(** * FInAT: the finite element base class

    A shallow embedding of [finat/finiteelementbase.py]: the abstract
    element contract, the placeholder permutation table, the degrees of
    freedom on the closure of every entity, and the degrees of freedom
    with support on every entity, found by quadrature of the squared
    basis functions. *)

From Stdlib Require Import ZArith List Bool String Lia Factorial.
From Stdlib Require Import Permutation Sorted Mergesort Orders.
From Stdlib Require Import Floats.
Import ListNotations.
Open Scope Z_scope.

(** ** Python values *)

(** Exceptions the class raises or lets through. *)
Inductive py_error : Type :=
| KeyError
| ValueError
| TypeError
| IndexError
| AttributeError
| AssertionError
| NotImplementedError (msg : string).

Definition result (A : Type) : Type := (py_error + A)%type.

Definition bind {A B : Type} (r : result A) (k : A -> result B) : result B :=
  match r with
  | inl e => inl e
  | inr a => k a
  end.

Declare Scope result_scope.
Delimit Scope result_scope with result.
Notation "x <- e ;; k" := (bind e (fun x => k))
  (at level 61, e at next level, right associativity) : result_scope.
Notation "' p <- e ;; k" := (bind e (fun x => match x with p => k end))
  (at level 61, p pattern, e at next level, right associativity) : result_scope.
Open Scope result_scope.

(** A [for] loop (or comprehension) whose body may raise: the first
    exception ends it. *)
Fixpoint mapM {A B : Type} (f : A -> result B) (l : list A) : result (list B) :=
  match l with
  | [] => inr []
  | x :: rest =>
      y <- f x ;;
      ys <- mapM f rest ;;
      inr (y :: ys)
  end.

(** [x, = iterable]: the iterable must hold exactly one value. *)
Definition unpack1 {A : Type} (l : list A) : result A :=
  match l with
  | [x] => inr x
  | _ => inl ValueError
  end.

Definition assert (b : bool) : result unit :=
  if b then inr tt else inl AssertionError.

(** [list(range(n))] *)
Definition range (n : nat) : list Z := map Z.of_nat (seq 0 n).

(** [sorted] on a list of [int]. *)
Module ZOrder <: TotalLeBool.
Definition t := Z.
Definition leb := Z.leb.
Lemma leb_total : forall x y, leb x y = true \/ leb y x = true.
Proof. intros x y. unfold leb. rewrite !Z.leb_le. lia. Qed.
End ZOrder.

Module ZSort := Sort ZOrder.

Definition sorted (l : list Z) : list Z := ZSort.sort l.

(** Keys of a [dict]: values with an equality test. *)
Class Hashable (K : Type) : Type := {
  key_eqb : K -> K -> bool;
  key_eqb_eq : forall x y, key_eqb x y = true <-> x = y
}.

#[export] Instance Hashable_Z : Hashable Z :=
  {| key_eqb := Z.eqb; key_eqb_eq := Z.eqb_eq |}.

(** A [dict] is the list of its items, in insertion order.  The keys of
    a Python [dict] are pairwise distinct, so a loop that assigns one
    entry per item of another [dict] appends one item each time. *)
Definition dict (K V : Type) : Type := list (K * V).

Section Dict.
Context {K V : Type} `{Hashable K}.

Fixpoint dict_get (d : dict K V) (k : K) : option V :=
  match d with
  | [] => None
  | (k', v) :: rest => if key_eqb k' k then Some v else dict_get rest k
  end.

(** [d[k]] *)
Definition getitem (d : dict K V) (k : K) : result V :=
  match dict_get d k with
  | Some v => inr v
  | None => inl KeyError
  end.

Definition keys (d : dict K V) : list K := map fst d.
Definition values (d : dict K V) : list V := map snd d.
Definition items (d : dict K V) : list (K * V) := d.
End Dict.

(** A topological dimension: an [int], or a [tuple] of [int] on a
    product cell. *)
Inductive dimkey : Type :=
| DimInt (d : Z)
| DimTuple (ds : list Z).

Definition dimkey_eqb (a b : dimkey) : bool :=
  match a, b with
  | DimInt x, DimInt y => Z.eqb x y
  | DimTuple xs, DimTuple ys =>
      if list_eq_dec Z.eq_dec xs ys then true else false
  | _, _ => false
  end.

Lemma dimkey_eqb_eq : forall a b, dimkey_eqb a b = true <-> a = b.
Proof.
  intros [x|xs] [y|ys]; simpl; try (split; congruence).
  - rewrite Z.eqb_eq. split; congruence.
  - destruct (list_eq_dec Z.eq_dec xs ys); split; congruence.
Qed.

#[export] Instance Hashable_dimkey : Hashable dimkey :=
  {| key_eqb := dimkey_eqb; key_eqb_eq := dimkey_eqb_eq |}.

(** An entity of the cell: [(dimension, id)]. *)
Definition entity : Type := (dimkey * Z)%type.

(** An orientation: an [int], or a pair of them on a product cell. *)
Inductive orientation : Type :=
| Orient (o : Z)
| OrientPair (i0 i1 : Z).

Definition orientation_eqb (a b : orientation) : bool :=
  match a, b with
  | Orient x, Orient y => Z.eqb x y
  | OrientPair x0 x1, OrientPair y0 y1 => Z.eqb x0 y0 && Z.eqb x1 y1
  | _, _ => false
  end.

Lemma orientation_eqb_eq : forall a b, orientation_eqb a b = true <-> a = b.
Proof.
  intros [x|x0 x1] [y|y0 y1]; simpl; try (split; congruence).
  - rewrite Z.eqb_eq. split; congruence.
  - rewrite andb_true_iff, !Z.eqb_eq. split; [intros [-> ->]; reflexivity|].
    intros E; inversion E; auto.
Qed.

#[export] Instance Hashable_orientation : Hashable orientation :=
  {| key_eqb := orientation_eqb; key_eqb_eq := orientation_eqb_eq |}.

(** ** The reference cell (FIAT) *)

(** [topology[dim][e]]: the vertices bounding entity [e]. *)
Definition Topology : Type := dict dimkey (dict Z (list Z)).

(** [sub_entities[dim][e]]: the entities in the closure of [e]. *)
Definition SubEntities : Type := dict dimkey (dict Z (list entity)).

#[local] Set Warnings "-register-all".
Inductive Cell : Type :=
| SimpleCell (topology : Topology) (sub_entities : SubEntities)
    (construct_subelement : dimkey -> result Cell)
| TensorProductCell (cells : list Cell)
    (topology : Topology) (sub_entities : SubEntities)
    (construct_subelement : dimkey -> result Cell).

Definition topology (c : Cell) : Topology :=
  match c with
  | SimpleCell t _ _ => t
  | TensorProductCell _ t _ _ => t
  end.

Definition sub_entities (c : Cell) : SubEntities :=
  match c with
  | SimpleCell _ s _ => s
  | TensorProductCell _ _ s _ => s
  end.

Definition construct_subelement (c : Cell) (d : dimkey) : result Cell :=
  match c with
  | SimpleCell _ _ f => f d
  | TensorProductCell _ _ _ f => f d
  end.

(** [isinstance(cell, FIAT.reference_element.TensorProductCell)] *)
Definition is_tensor_product (c : Cell) : bool :=
  match c with
  | SimpleCell _ _ _ => false
  | TensorProductCell _ _ _ _ => true
  end.

(** [cell.cells[i]]; only a product cell has the attribute. *)
Definition cells_item (c : Cell) (i : nat) : result Cell :=
  match c with
  | SimpleCell _ _ _ => inl AttributeError
  | TensorProductCell cs _ _ _ =>
      match nth_error cs i with
      | Some c' => inr c'
      | None => inl IndexError
      end
  end.

(** ** The symbolic tensor engine (gem) *)

(** An index object carries an extent.  Index objects are compared by
    identity: an index made by this class is known by the method that
    made it and its axis (the indices of one pass of a loop are not
    used in another), an index made by a collaborator (the points of a
    point set) by a number of its own. *)
Inductive index_name : Type :=
| BasisAxis (axis : nat)
| ValueAxis (axis : nat)
| External (id : nat).

Record Index : Type := mkIndex {
  index_name_of : index_name;
  extent : nat
}.

Definition index_name_eqb (a b : index_name) : bool :=
  match a, b with
  | BasisAxis x, BasisAxis y => Nat.eqb x y
  | ValueAxis x, ValueAxis y => Nat.eqb x y
  | External x, External y => Nat.eqb x y
  | _, _ => false
  end.

Lemma index_name_eqb_eq : forall a b, index_name_eqb a b = true <-> a = b.
Proof.
  intros [x|x|x] [y|y|y]; simpl; try (split; congruence);
    rewrite Nat.eqb_eq; split; congruence.
Qed.

Definition index_eqb (i j : Index) : bool :=
  index_name_eqb (index_name_of i) (index_name_of j)
  && Nat.eqb (extent i) (extent j).

Lemma index_eqb_eq : forall i j, index_eqb i j = true <-> i = j.
Proof.
  intros [a x] [b y]; unfold index_eqb; simpl.
  rewrite andb_true_iff, index_name_eqb_eq, Nat.eqb_eq.
  split; [intros [-> ->]; reflexivity | intros E; inversion E; auto].
Qed.

(** An index owned by a collaborator. *)
Record ExternalIndex : Type := mkExternalIndex {
  external_id : nat;
  external_extent : nat
}.

Definition external (i : ExternalIndex) : Index :=
  mkIndex (External (external_id i)) (external_extent i).

(** The values of the free indices during an evaluation. *)
Definition environment : Type := index_name -> nat.

Definition bind_index (i : Index) (v : nat) (env : environment) : environment :=
  fun n => if index_name_eqb (index_name_of i) n then v else env n.

Fixpoint bind_indices (mi : list Index) (vs : list nat) (env : environment)
  : environment :=
  match mi, vs with
  | i :: mi', v :: vs' => bind_index i v (bind_indices mi' vs' env)
  | _, _ => env
  end.

(** An expression handed over by a collaborator (a tabulation of the
    basis functions, the weights of a quadrature rule), held by its
    denotation: its shape, its free indices, and its value at each
    position for each value of those indices. *)
Record Tabulation : Type := mkTabulation {
  tab_shape : list nat;
  tab_free : list ExternalIndex;
  tab_value : list nat -> list nat -> float
}.

(** Modelled from the spec: the expression nodes of the symbolic tensor
    engine, which is not part of this repository's sources (section 6:
    indexed access, product, index sum, and the wrapping of an
    expression with free indices as a dense component tensor). *)
Inductive gem : Type :=
| Tabulated (t : Tabulation)
| Indexed (aggregate : gem) (multiindex : list Index)
| Product (a b : gem)
| IndexSum (summand : gem) (multiindex : list Index)
| ComponentTensor (expression : gem) (multiindex : list Index).

(** All positions of an array of the given shape, last axis fastest. *)
Fixpoint positions (shape : list nat) : list (list nat) :=
  match shape with
  | [] => [[]]
  | n :: rest =>
      flat_map (fun i => map (cons i) (positions rest)) (seq 0 n)
  end.

Definition fsum (l : list float) : float :=
  fold_left PrimFloat.add l 0%float.

Definition extents (mi : list Index) : list nat := map extent mi.

Fixpoint eval (env : environment) (e : gem) (pos : list nat) : float :=
  match e with
  | Tabulated t =>
      tab_value t (map (fun i => env (External (external_id i))) (tab_free t)) pos
  | Indexed a mi => eval env a (map (fun i => env (index_name_of i)) mi)
  | Product a b => PrimFloat.mul (eval env a []) (eval env b [])
  | IndexSum s mi =>
      fsum (map (fun vs => eval (bind_indices mi vs env) s [])
                (positions (extents mi)))
  | ComponentTensor x mi => eval (bind_indices mi pos env) x []
  end.

Definition remove_indices (mi l : list Index) : list Index :=
  filter (fun i => negb (existsb (index_eqb i) mi)) l.

Definition union_indices (l1 l2 : list Index) : list Index :=
  l1 ++ remove_indices l1 l2.

Fixpoint free_indices (e : gem) : list Index :=
  match e with
  | Tabulated t => map external (tab_free t)
  | Indexed a mi => union_indices (free_indices a) mi
  | Product a b => union_indices (free_indices a) (free_indices b)
  | IndexSum s mi => remove_indices mi (free_indices s)
  | ComponentTensor x mi => remove_indices mi (free_indices x)
  end.

Definition shape_of (e : gem) : list nat :=
  match e with
  | Tabulated t => tab_shape t
  | ComponentTensor _ mi => extents mi
  | _ => []
  end.

(** What the evaluator returns for one expression: a dense array
    (its data in row-major order) and the free indices left over, which
    come first among the axes of the array. *)
Record ndarray : Type := mkArray {
  array_shape : list nat;
  array_data : list float
}.

Definition flatten (a : ndarray) : list float := array_data a.

Record Result : Type := mkResult {
  arr : ndarray;
  fids : list Index
}.

(** Modelled from the spec: the numeric evaluator of the symbolic
    tensor engine (section 6: it reduces a list of symbolic expressions
    to numeric arrays and reports the free indices that remain). *)
Definition evaluate_one (e : gem) : Result :=
  let fs := free_indices e in
  mkResult
    (mkArray (extents fs ++ shape_of e)
       (flat_map
          (fun vs =>
             map (eval (bind_indices fs vs (fun _ => 0%nat)) e)
                 (positions (shape_of e)))
          (positions (extents fs))))
    fs.

Definition evaluate (es : list gem) : list Result := map evaluate_one es.

(** ** The element contract *)

Record PointSet : Type := mkPointSet {
  points : list (list float);
  indices : list ExternalIndex
}.

Record QuadratureRule : Type := mkQuadratureRule {
  point_set : PointSet;
  weight_expression : Tabulation
}.

(** [degree]: an [int], or a [tuple] of them in the tensor case. *)
Inductive Degree : Type :=
| DegreeInt (n : Z)
| DegreeTuple (ns : list Z).

(** The abstract members of [FiniteElementBase] that the class itself
    uses, and [type(self).__name__]. *)
Record FiniteElementBase : Type := mkElement {
  type_name : string;
  cell : Cell;
  degree : Degree;
  entity_dofs : dict dimkey (dict Z (list Z));
  index_shape : list nat;
  value_shape : list nat;
  basis_evaluation :
    Z -> PointSet -> option entity -> result (dict (list Z) Tabulation)
}.

(** ** [permutations] *)

(** [n, = set(len(x) for x in xs)] *)
Definition the_length {A : Type} (xs : list (list A)) : result nat :=
  unpack1 (nodup Nat.eq_dec (map (@List.length A) xs)).

(** [len(dim)] and [dim[i]] *)
Definition dim_len (dim : dimkey) : result nat :=
  match dim with
  | DimInt _ => inl TypeError
  | DimTuple ds => inr (List.length ds)
  end.

Definition dim_item (dim : dimkey) (i : nat) : result Z :=
  match dim with
  | DimInt _ => inl TypeError
  | DimTuple ds =>
      match nth_error ds i with
      | Some d => inr d
      | None => inl IndexError
      end
  end.

Definition PermutationTable : Type := dict dimkey (dict orientation (list Z)).

(** The body of the loop in the product branch. *)
Definition permutations_product (self : FiniteElementBase)
    (item : dimkey * dict Z (list Z)) : result (dimkey * dict orientation (list Z)) :=
  let '(dim, entity_dofs) := item in
  n <- the_length (values entity_dofs) ;;
  let perm := range n in
  len <- dim_len dim ;;
  _ <- assert (Nat.eqb len 2) ;;
  c0 <- cells_item (cell self) 0 ;;
  d0 <- dim_item dim 0 ;;
  t0 <- getitem (topology c0) (DimInt d0) ;;
  m0 <- the_length (values t0) ;;
  c1 <- cells_item (cell self) 1 ;;
  d1 <- dim_item dim 1 ;;
  t1 <- getitem (topology c1) (DimInt d1) ;;
  m1 <- the_length (values t1) ;;
  inr (dim,
       flat_map
         (fun i0 => map (fun i1 => (OrientPair i0 i1, perm))
                        (range (fact m1 * 2)))
         (range (fact m0 * 2))).

(** The body of the loop in the other branch. *)
Definition permutations_simple (self : FiniteElementBase)
    (item : dimkey * dict Z (list Z)) : result (dimkey * dict orientation (list Z)) :=
  let '(dim, entity_dofs) := item in
  n <- the_length (values entity_dofs) ;;
  let perm := range n in
  if key_eqb dim (DimInt 0) then
    inr (dim, [(Orient 0, perm)])
  else
    t <- getitem (topology (cell self)) dim ;;
    m <- the_length (values t) ;;
    inr (dim, map (fun o => (Orient o, perm)) (range (fact m * 2))).

Definition permutations (self : FiniteElementBase) : result PermutationTable :=
  if is_tensor_product (cell self) then
    mapM (permutations_product self) (items (entity_dofs self))
  else
    mapM (permutations_simple self) (items (entity_dofs self)).

(** ** Calls to collaborators *)

(** What [(2*numpy.array(degree)).tolist()] gives: an [int] or a
    [float], or a [list] of either. *)
Inductive DegreeArg : Type :=
| ArgInt (n : Z)
| ArgList (ns : list Z)
| ArgFloat (x : float)
| ArgFloatList (xs : list float).

(** The calls and reads a probe on the collaborators would see. *)
Inductive event : Type :=
| CallEntityDofs
| ReadSubEntities
| CallConstructSubelement (dim : dimkey)
| CallMakeQuadrature (c : Cell) (deg : DegreeArg)
| CallBasisEvaluation (order : Z) (ps : PointSet) (e : option entity)
| CallEvaluate (es : list gem).

(** A computation that logs its calls and may raise. *)
Definition traced (A : Type) : Type := (list event * result A)%type.

Definition tret {A : Type} (a : A) : traced A := ([], inr a).

Definition tbind {A B : Type} (m : traced A) (k : A -> traced B) : traced B :=
  match m with
  | (log, inl e) => (log, inl e)
  | (log, inr a) => let '(log', r) := k a in (log ++ log', r)
  end.

Definition call {A : Type} (ev : event) (r : result A) : traced A := ([ev], r).

Definition lift {A : Type} (r : result A) : traced A := ([], r).

Declare Scope traced_scope.
Delimit Scope traced_scope with traced.
Notation "x <- e ;; k" := (tbind e (fun x => k))
  (at level 61, e at next level, right associativity) : traced_scope.

Fixpoint tmapM {A B : Type} (f : A -> traced B) (l : list A) : traced (list B) :=
  match l with
  | [] => tret []
  | x :: rest =>
      (y <- f x ;;
       ys <- tmapM f rest ;;
       tret (y :: ys))%traced
  end.

(** ** [_entity_closure_dofs] *)

Definition ClosureDofs : Type := dict dimkey (dict Z (list Z)).

(** [entity_dofs[d][se]] *)
Definition dofs_of (entity_dofs : dict dimkey (dict Z (list Z)))
    (p : entity) : result (list Z) :=
  let '(d, se) := p in
  by_entity <- getitem entity_dofs d ;;
  getitem by_entity se.

(** [sorted] of the [chain] of the lists [entity_dofs[d][se]], for
    [d, se] in [sub_entities]. *)
Definition closure_of (entity_dofs : dict dimkey (dict Z (list Z)))
    (sub_entities : list entity) : result (list Z) :=
  lists <- mapM (dofs_of entity_dofs) sub_entities ;;
  inr (sorted (List.concat lists)).

(** The inner comprehension, over the entities of one dimension. *)
Definition closure_entry (entity_dofs : dict dimkey (dict Z (list Z)))
    (item : Z * list entity) : result (Z * list Z) :=
  let '(e, sub_entities) := item in
  dofs <- closure_of entity_dofs sub_entities ;;
  inr (e, dofs).

(** The outer comprehension, over the dimensions. *)
Definition closure_row (entity_dofs : dict dimkey (dict Z (list Z)))
    (item : dimkey * dict Z (list entity)) : result (dimkey * dict Z (list Z)) :=
  let '(dim, entities) := item in
  row <- mapM (closure_entry entity_dofs) (items entities) ;;
  inr (dim, row).

Definition closure_table (entity_dofs : dict dimkey (dict Z (list Z)))
    (subs : SubEntities) : result ClosureDofs :=
  mapM (closure_row entity_dofs) (items subs).

Definition _entity_closure_dofs (self : FiniteElementBase) : traced ClosureDofs :=
  (entity_dofs <- call CallEntityDofs (inr (entity_dofs self)) ;;
   subs <- call ReadSubEntities (inr (sub_entities (cell self))) ;;
   lift (closure_table entity_dofs subs))%traced.

(** ** [_entity_support_dofs] *)

Definition SupportDofs : Type := dict dimkey (dict Z (list Z)).

(** [enumerate] *)
Definition enumerate {A : Type} (l : list A) : list (nat * A) :=
  combine (seq 0 (List.length l)) l.

(** [tuple(gem.Index(extent=d) for d in shape)]: one new index per
    entry of the shape. *)
Definition new_indices (name : nat -> index_name) (shape : list nat)
  : list Index :=
  map (fun '(axis, d) => mkIndex (name axis) d) (enumerate shape).

Definition get_indices (self : FiniteElementBase) : list Index :=
  new_indices BasisAxis (index_shape self).

Definition get_value_indices (self : FiniteElementBase) : list Index :=
  new_indices ValueAxis (value_shape self).

(** How [numpy.array] holds a Python [int] (where numpy's default
    integer has 64 bits): as a signed 64-bit integer where it fits, as
    an object where not even an unsigned 64-bit integer holds it, and
    as an unsigned 64-bit integer in between. *)
Definition held_as_int64 (n : Z) : bool :=
  (- 2 ^ 63 <=? n) && (n <? 2 ^ 63).

Definition held_as_object (n : Z) : bool :=
  (n <? - 2 ^ 63) || (2 ^ 64 <=? n).

(** The product of signed 64-bit integers wraps. *)
Definition wrap_int64 (x : Z) : Z :=
  (x + 2 ^ 63) mod 2 ^ 64 - 2 ^ 63.

Section Numpy.
(** What [(2*numpy.array(degree)).tolist()] gives for a degree that
    numpy holds neither as signed 64-bit integers nor as objects: one
    with a component from [2**63] up to [2**64 - 1] and none beyond.
    numpy holds it as unsigned integers or as floats, and what the
    product is depends on numpy's version: any function of the
    degree. *)
Variable twice_wide : Degree -> result DegreeArg.

(** [(2*numpy.array(degree)).tolist()].  Of an [int] held as an object
    the product is an [int] again, which has no [tolist]; of a tuple
    held as objects the product is taken exactly, one [int] at a
    time. *)
Definition twice_degree (deg : Degree) : result DegreeArg :=
  match deg with
  | DegreeInt n =>
      if held_as_int64 n then inr (ArgInt (wrap_int64 (2 * n)))
      else if held_as_object n then inl AttributeError
      else twice_wide deg
  | DegreeTuple ns =>
      if forallb held_as_int64 ns then
        inr (ArgList (map (fun n => wrap_int64 (2 * n)) ns))
      else if existsb held_as_object ns then
        inr (ArgList (map (fun n => 2 * n) ns))
      else twice_wide deg
  end.
End Numpy.

#[local] Set Warnings "-inexact-float".
Definition eps : float := 1e-8%float.

(** [[dof for dof, i in enumerate(ints) if i > eps]] *)
Definition dofs_above_eps (ints : list float) : list Z :=
  map (fun '(dof, _) => Z.of_nat dof)
      (filter (fun '(_, i) => PrimFloat.ltb eps i) (enumerate ints)).

(** The integrand the loop builds for one entity. *)
Definition squared_basis_integral (vals : Tabulation) (beta zeta : list Index)
    (quad : QuadratureRule) : gem :=
  IndexSum
    (Product
       (IndexSum
          (Product (Indexed (Tabulated vals) (beta ++ zeta))
                   (Indexed (Tabulated vals) (beta ++ zeta)))
          zeta)
       (Tabulated (weight_expression quad)))
    (map external (indices (point_set quad))).

(** [t == ()] on a tuple. *)
Definition is_empty_tuple {A : Type} (t : list A) : bool :=
  match t with
  | [] => true
  | _ :: _ => false
  end.

Section Support.
(** numpy on the degrees it holds as unsigned integers or floats. *)
Variable twice_wide : Degree -> result DegreeArg.
(** [finat.quadrature.make_quadrature], a collaborator: any function
    of a cell and a degree that returns a rule or raises. *)
Variable make_quadrature : Cell -> DegreeArg -> result QuadratureRule.

(** The body of the loop over the entities of one dimension. *)
Definition support_of_entity (self : FiniteElementBase)
    (beta zeta : list Index) (quad : QuadratureRule)
    (entity_dim : dimkey) (f : Z) : traced (Z * list Z) :=
  (tab <- call (CallBasisEvaluation 0 (point_set quad) (Some (entity_dim, f)))
               (basis_evaluation self 0 (point_set quad) (Some (entity_dim, f))) ;;
   vals <- lift (unpack1 (values tab)) ;;
   let ints := squared_basis_integral vals beta zeta quad in
   evaluations <- call (CallEvaluate [ComponentTensor ints beta])
                       (inr (evaluate [ComponentTensor ints beta])) ;;
   evaluation <- lift (unpack1 evaluations) ;;
   let ints := flatten (arr evaluation) in
   _ <- lift (assert (is_empty_tuple (fids evaluation))) ;;
   tret (f, dofs_above_eps ints))%traced.

(** The body of the loop over the dimensions. *)
Definition support_of_dimension (self : FiniteElementBase)
    (entity_dim : dimkey) : traced (dimkey * dict Z (list Z)) :=
  (let beta := get_indices self in
   let zeta := get_value_indices self in
   entity_cell <- call (CallConstructSubelement entity_dim)
                       (construct_subelement (cell self) entity_dim) ;;
   deg <- lift (twice_degree twice_wide (degree self)) ;;
   quad <- call (CallMakeQuadrature entity_cell deg)
                (make_quadrature entity_cell deg) ;;
   entity_dofs <- call CallEntityDofs (inr (entity_dofs self)) ;;
   by_entity <- lift (getitem entity_dofs entity_dim) ;;
   result <- tmapM (support_of_entity self beta zeta quad entity_dim)
                   (keys by_entity) ;;
   tret (entity_dim, result))%traced.

Definition _entity_support_dofs (self : FiniteElementBase) : traced SupportDofs :=
  (subs <- call ReadSubEntities (inr (sub_entities (cell self))) ;;
   tmapM (support_of_dimension self) (keys subs))%traced.
End Support.

(** ** [fiat_equivalent] *)

Definition fiat_equivalent (self : FiniteElementBase) : result unit :=
  inl (NotImplementedError
         ("Cannot make equivalent FIAT element for " ++ type_name self)%string).


(** ** Words for the statements *)

(** [d[k1][k2]] on a nested [dict]. *)
Definition lookup2 {V : Type} (t : dict dimkey (dict Z V)) (d : dimkey) (e : Z)
  : option V :=
  match dict_get t d with
  | Some row => dict_get row e
  | None => None
  end.

(** The identity permutation of [n] degrees of freedom: [0, 1, ..., n-1]. *)
Definition identity_permutation (n : nat) (perm : list Z) : Prop :=
  List.length perm = n /\
  forall i, (i < n)%nat -> nth_error perm i = Some (Z.of_nat i).


#[export] Instance Hashable_entity : Hashable entity.
Proof.
  refine {| key_eqb := fun p q => key_eqb (fst p) (fst q) && Z.eqb (snd p) (snd q) |}.
  intros [d e] [d' e']. simpl.
  rewrite andb_true_iff, dimkey_eqb_eq, Z.eqb_eq.
  split; [intros [-> ->]; reflexivity | intros E; inversion E; auto].
Defined.

Definition has_dofs (entity_dofs : dict dimkey (dict Z (list Z))) (p : entity)
  : bool :=
  match lookup2 entity_dofs (fst p) (snd p) with
  | Some _ => true
  | None => false
  end.

(** Every entity that [cell.sub_entities] lists has an entry in
    [entity_dofs()]. *)
Definition listed_entities_have_dofs (self : FiniteElementBase) : bool :=
  forallb (fun by_dim =>
             forallb (fun by_entity =>
                        forallb (has_dofs (entity_dofs self)) (snd by_entity))
                     (snd by_dim))
          (sub_entities (cell self)).

(** The relation is transitively closed: the entities listed for a
    listed entity are listed too. *)
Definition transitively_closed (subs : SubEntities) : bool :=
  forallb (fun by_dim =>
             forallb (fun by_entity =>
                        forallb (fun p =>
                                   match lookup2 subs (fst p) (snd p) with
                                   | Some listed =>
                                       forallb (fun q => existsb (key_eqb q)
                                                           (snd by_entity))
                                               listed
                                   | None => true
                                   end)
                                (snd by_entity))
                     (snd by_dim))
          subs.

(** Every degree of freedom that [entity_dofs()] assigns, entity after
    entity. *)
Definition all_dofs (entity_dofs : dict dimkey (dict Z (list Z))) : list Z :=
  flat_map (fun by_dim => flat_map snd (snd by_dim)) entity_dofs.

(** The same, each with the entity it is assigned to. *)
Definition assigned_dofs (entity_dofs : dict dimkey (dict Z (list Z)))
  : list (entity * Z) :=
  flat_map (fun by_dim =>
              flat_map (fun by_entity =>
                          map (fun x => ((fst by_dim, fst by_entity), x))
                              (snd by_entity))
                       (snd by_dim))
           entity_dofs.

(** ** The integral of a squared basis function, as the specification
    words it *)

(** The quadrature points of a rule: one value per index of its point
    set. *)
Definition quadrature_points (quad : QuadratureRule) : list (list nat) :=
  positions (map external_extent (indices (point_set quad))).

(** The values of the indices of the point set at one point. *)
Definition at_point (quad : QuadratureRule) (pt : list nat) : environment :=
  bind_indices (map external (indices (point_set quad))) pt (fun _ => 0%nat).

Definition tabulated_at (t : Tabulation) (quad : QuadratureRule)
    (pt : list nat) (pos : list nat) : float :=
  tab_value t
    (map (fun i => at_point quad pt (External (external_id i))) (tab_free t))
    pos.

(** The order-0 evaluation of basis function [b], component [z], at a
    quadrature point. *)
Definition basis_value (vals : Tabulation) (quad : QuadratureRule)
    (b z pt : list nat) : float :=
  tabulated_at vals quad pt (b ++ z).

Definition quadrature_weight (quad : QuadratureRule) (pt : list nat) : float :=
  tabulated_at (weight_expression quad) quad pt [].

(** The sum over the quadrature points of the weight times the sum
    over the value indices of the squared evaluation. *)
Definition weighted_square_integral (self : FiniteElementBase)
    (vals : Tabulation) (quad : QuadratureRule) (b : list nat) : float :=
  fsum (map (fun pt =>
               (quadrature_weight quad pt *
                fsum (map (fun z => basis_value vals quad b z pt *
                                    basis_value vals quad b z pt)
                          (positions (value_shape self))))%float)
            (quadrature_points quad)).

(** Basis function [k], in the flattened numbering of the degrees of
    freedom. *)
Definition basis_function (self : FiniteElementBase) (k : Z)
  : option (list nat) :=
  if Z.ltb k 0 then None
  else nth_error (positions (index_shape self)) (Z.to_nat k).

(** ** The quadrature rules the support computation asks for *)

(** The arguments of the calls to [make_quadrature] in a log. *)
Definition quadrature_requests (log : list event) : list (Cell * DegreeArg) :=
  flat_map (fun ev =>
              match ev with
              | CallMakeQuadrature c deg => [(c, deg)]
              | _ => []
              end)
           log.

(** Twice the degree, component by component for a tuple. *)
Definition exactly_twice (deg : Degree) : DegreeArg :=
  match deg with
  | DegreeInt n => ArgInt (2 * n)
  | DegreeTuple ns => ArgList (map (fun n => 2 * n) ns)
  end.

(** The degrees whose double a 64-bit integer holds. *)
Definition double_fits_int64 (deg : Degree) : Prop :=
  match deg with
  | DegreeInt n => - 2 ^ 62 <= n < 2 ^ 62
  | DegreeTuple ns => Forall (fun n => - 2 ^ 62 <= n < 2 ^ 62) ns
  end.

(** The degrees numpy doubles without wrapping: those whose double a
    64-bit integer holds, and the tuples with a component that numpy
    holds as an object. *)
Definition doubled_exactly (deg : Degree) : Prop :=
  double_fits_int64 deg \/
  exists ns, deg = DegreeTuple ns /\ existsb held_as_object ns = true.

(** The dimensions on which the loop of the support computation runs
    its body: each in turn, up to and with the first on which the body
    raises. *)
Fixpoint dimensions_entered
    (twice_wide : Degree -> result DegreeArg)
    (make_quadrature : Cell -> DegreeArg -> result QuadratureRule)
    (self : FiniteElementBase) (dims : list dimkey) : list dimkey :=
  match dims with
  | [] => []
  | dim :: rest =>
      match snd (support_of_dimension twice_wide make_quadrature self dim) with
      | inr _ => dim :: dimensions_entered twice_wide make_quadrature self rest
      | inl _ => [dim]
      end
  end.

(** The requests to expect on the given dimensions: one for each whose
    subelement is constructed, on that subelement, with twice the
    degree. *)
Definition requests_on (self : FiniteElementBase) (dims : list dimkey)
  : list (Cell * DegreeArg) :=
  flat_map (fun dim =>
              match construct_subelement (cell self) dim with
              | inr entity_cell => [(entity_cell, exactly_twice (degree self))]
              | inl _ => []
              end)
           dims.

(** ** The cached properties *)

#[export] Instance Hashable_string : Hashable string :=
  {| key_eqb := String.eqb; key_eqb_eq := String.eqb_eq |}.

(** The objects the two cached properties make. *)
Inductive py_object : Type :=
| ClosureObject (v : ClosureDofs)
| SupportObject (v : SupportDofs).

(** An element instance in its surroundings: the objects allocated so
    far (an object is known by its place among them), the instance's
    own [__dict__], and what a probe on the collaborators has seen. *)
Record World : Type := mkWorld {
  heap : list py_object;
  instance_dict : dict string nat;
  probe : list event
}.

(** Modelled from the spec: [gem.utils.cached_property], which is not
    part of this repository's sources (section 3: computed lazily on
    first access and cached for the element's lifetime; section 9: a
    cache field computed on first access).  The attribute is looked up
    in the instance's [__dict__] first; when it is not there the getter
    runs and its result is stored under the attribute's name. *)
Definition cached_property (name : string)
    (fget : FiniteElementBase -> traced py_object)
    (self : FiniteElementBase) (w : World) : World * result nat :=
  match dict_get (instance_dict w) name with
  | Some address => (w, inr address)
  | None =>
      match fget self with
      | (log, inl e) =>
          (mkWorld (heap w) (instance_dict w) (probe w ++ log), inl e)
      | (log, inr v) =>
          let address := List.length (heap w) in
          (mkWorld (heap w ++ [v])
                   (instance_dict w ++ [(name, address)])
                   (probe w ++ log),
           inr address)
      end
  end.

Definition boxed {A : Type} (box : A -> py_object) (m : traced A)
  : traced py_object :=
  (fst m, match snd m with
          | inl e => inl e
          | inr a => inr (box a)
          end).

(** [entity_closure_dofs()]: returns [self._entity_closure_dofs]. *)
Definition entity_closure_dofs (self : FiniteElementBase) (w : World)
  : World * result nat :=
  cached_property "_entity_closure_dofs"
    (fun self => boxed ClosureObject (_entity_closure_dofs self)) self w.

(** [entity_support_dofs()]: returns [self._entity_support_dofs]. *)
Definition entity_support_dofs
    (twice_wide : Degree -> result DegreeArg)
    (make_quadrature : Cell -> DegreeArg -> result QuadratureRule)
    (self : FiniteElementBase) (w : World) : World * result nat :=
  cached_property "_entity_support_dofs"
    (fun self => boxed SupportObject (_entity_support_dofs twice_wide make_quadrature self))
    self w.

(** The two cached accessors, side by side. *)
Inductive accessor : Type :=
| EntityClosureDofs
| EntitySupportDofs.

Definition attribute (a : accessor) : string :=
  match a with
  | EntityClosureDofs => "_entity_closure_dofs"
  | EntitySupportDofs => "_entity_support_dofs"
  end.

Definition access
    (twice_wide : Degree -> result DegreeArg)
    (make_quadrature : Cell -> DegreeArg -> result QuadratureRule)
    (a : accessor) (self : FiniteElementBase) (w : World) : World * result nat :=
  match a with
  | EntityClosureDofs => entity_closure_dofs self w
  | EntitySupportDofs => entity_support_dofs twice_wide make_quadrature self w
  end.

(** The computation behind each: its log and the object it makes. *)
Definition computation
    (twice_wide : Degree -> result DegreeArg)
    (make_quadrature : Cell -> DegreeArg -> result QuadratureRule)
    (a : accessor) (self : FiniteElementBase) : traced py_object :=
  match a with
  | EntityClosureDofs => boxed ClosureObject (_entity_closure_dofs self)
  | EntitySupportDofs =>
      boxed SupportObject (_entity_support_dofs twice_wide make_quadrature self)
  end.

(** A new instance: nothing allocated, nothing cached, nothing seen. *)
Definition new_world : World := mkWorld [] [] [].

(** ** The module-level [entity_support_dofs] *)

Module Toplevel.
(** [elem.entity_support_dofs()[entity_dim]]: the method gives the
  object it cached; the function takes the entry of one dimension. *)
Definition entity_support_dofs
  (twice_wide : Degree -> result DegreeArg)
  (make_quadrature : Cell -> DegreeArg -> result QuadratureRule)
  (elem : FiniteElementBase) (entity_dim : dimkey) (w : World)
: World * result (dict Z (list Z)) :=
match entity_support_dofs twice_wide make_quadrature elem w with
| (w', inl e) => (w', inl e)
| (w', inr address) =>
    match nth_error (heap w') address with
    | Some (SupportObject table) => (w', getitem table entity_dim)
    | _ => (w', inl TypeError)
    end
end.
End Toplevel.

(** ** More words for the statements *)

(** The arguments of the calls to [basis_evaluation] in a log. *)
Definition basis_evaluation_requests (log : list event)
  : list (Z * PointSet * option entity) :=
  flat_map (fun ev =>
              match ev with
              | CallBasisEvaluation order ps e => [(order, ps, e)]
              | _ => []
              end)
           log.

(** The rule the support computation works with on one dimension. *)
Definition rule_for
    (twice_wide : Degree -> result DegreeArg)
    (make_quadrature : Cell -> DegreeArg -> result QuadratureRule)
    (self : FiniteElementBase) (dim : dimkey) : option QuadratureRule :=
  match construct_subelement (cell self) dim with
  | inr entity_cell =>
      match twice_degree twice_wide (degree self) with
      | inr deg =>
          match make_quadrature entity_cell deg with
          | inr quad => Some quad
          | inl _ => None
          end
      | inl _ => None
      end
  | inl _ => None
  end.

(** The number of entries of an array of the given shape. *)
Definition size_of (shape : list nat) : nat := fold_right Nat.mul 1%nat shape.

(** What can go wrong with the tabulation on one entity, and the
    exception that comes of it: [basis_evaluation] raises; it returns
    a [dict] that does not hold exactly one expression; the expression,
    or the weights of the rule, have a free index that is not among the
    indices of the point set. *)
Definition tabulation_failure (self : FiniteElementBase) (quad : QuadratureRule)
    (dim : dimkey) (f : Z) (err : py_error) : Prop :=
  basis_evaluation self 0 (point_set quad) (Some (dim, f)) = inl err \/
  exists tab,
    basis_evaluation self 0 (point_set quad) (Some (dim, f)) = inr tab /\
    ((List.length (values tab) <> 1%nat /\ err = ValueError) \/
     (exists vals i,
        values tab = [vals] /\
        In i (tab_free vals ++ tab_free (weight_expression quad)) /\
        ~ In i (indices (point_set quad)) /\
        err = AssertionError)).

(** Lists that are there and all of one length. *)
Definition evenly_sized {A : Type} (ls : list (list A)) : Prop :=
  ls <> [] /\ exists n, Forall (fun l => List.length l = n) ls.

(** What [permutations()] needs of one dimension of [entity_dofs()]:
    entities, with equally many degrees of freedom each; on a product
    cell a pair of dimensions that the topologies of the first two
    factor cells have, each with equally long entries; on any other
    cell, off the vertex dimension, a dimension that the topology has,
    with equally long entries. *)
Definition dimension_admissible (self : FiniteElementBase)
    (item : dimkey * dict Z (list Z)) : Prop :=
  evenly_sized (values (snd item)) /\
  if is_tensor_product (cell self) then
    exists d0 d1 c0 c1 t0 t1,
      fst item = DimTuple [d0; d1] /\
      cells_item (cell self) 0 = inr c0 /\
      cells_item (cell self) 1 = inr c1 /\
      dict_get (topology c0) (DimInt d0) = Some t0 /\
      dict_get (topology c1) (DimInt d1) = Some t1 /\
      evenly_sized (values t0) /\
      evenly_sized (values t1)
  else
    fst item <> DimInt 0 ->
    exists t, dict_get (topology (cell self)) (fst item) = Some t /\
              evenly_sized (values t).


(** ** Concrete elements: Lagrange elements on the reference interval *)

Module Interval.
(** A vertex: the cell a subelement of dimension 0 is built on. *)
Definition point_cell : Cell :=
  SimpleCell [(DimInt 0, [(0, [0])])]
             [(DimInt 0, [(0, [(DimInt 0, 0)])])]
             (fun _ => inl KeyError).

Definition interval_topology : Topology :=
  [(DimInt 0, [(0, [0]); (1, [1])]);
   (DimInt 1, [(0, [0; 1])])].

Definition interval_sub_entities : SubEntities :=
  [(DimInt 0, [(0, [(DimInt 0, 0)]); (1, [(DimInt 0, 1)])]);
   (DimInt 1, [(0, [(DimInt 0, 0); (DimInt 0, 1); (DimInt 1, 0)])])].

(** The subelement of dimension 1 of an interval is an interval. *)
Fixpoint interval_cell_upto (depth : nat) : Cell :=
  SimpleCell interval_topology interval_sub_entities
    (fun dim =>
       match dim with
       | DimInt 0 => inr point_cell
       | DimInt 1 =>
           match depth with
           | O => inl KeyError
           | S depth' => inr (interval_cell_upto depth')
           end
       | _ => inl KeyError
       end).

Definition interval_cell : Cell := interval_cell_upto 1.

(** Gauss-Legendre rules on [0, 1] with two and with three points,
    and the rule of a single point. *)
Definition gauss_rule (n : nat) : list (float * float) :=
  match n with
  | 2%nat => [(0.21132486540518713, 0.5); (0.7886751345948129, 0.5)]%float
  | _ => [(0.1127016653792583, 0.2777777777777778);
          (0.5, 0.4444444444444444);
          (0.8872983346207417, 0.2777777777777778)]%float
  end.

Definition rule_on (pts : list (list float)) (weights : list float)
  : QuadratureRule :=
  let q := mkExternalIndex 0 (List.length pts) in
  mkQuadratureRule
    (mkPointSet pts [q])
    (mkTabulation [] [q]
       (fun pt _ => nth (nth 0 pt 0%nat) weights 0%float)).

Definition make_quadrature (c : Cell) (deg : DegreeArg) : result QuadratureRule :=
  match dict_get (topology c) (DimInt 1), deg with
  | None, _ => inr (rule_on [[]] [1%float])
  | Some _, ArgInt d =>
      let rule := gauss_rule (if Z.leb d 3 then 2 else 3) in
      inr (rule_on (map (fun p => [fst p]) rule) (map snd rule))
  | Some _, _ => inl ValueError
  end.

(** One way for numpy to double the degrees it holds as unsigned
    64-bit integers: the product wraps. *)
Definition twice_wide (deg : Degree) : result DegreeArg :=
  match deg with
  | DegreeInt n => inr (ArgInt ((2 * n) mod 2 ^ 64))
  | DegreeTuple ns => inr (ArgList (map (fun n => (2 * n) mod 2 ^ 64) ns))
  end.

(** The Lagrange basis of degree 1 or 2 on [0, 1]. *)
Definition lagrange (deg : Degree) (phi : nat) (x : float) : float :=
  match deg, phi with
  | DegreeInt 1, O => (1 - x)%float
  | DegreeInt 1, _ => x
  | _, O => ((1 - x) * (1 - 2 * x))%float
  | _, S O => (x * (2 * x - 1))%float
  | _, _ => (4 * x * (1 - x))%float
  end.

(** Where the points of a rule on an entity lie in the interval. *)
Definition coordinate (e : entity) (ps : PointSet) (pt : list nat) : float :=
  match e with
  | (DimInt 0, v) => if Z.eqb v 0 then 0%float else 1%float
  | _ => nth 0 (nth (nth 0 pt 0%nat) (points ps) []) 0%float
  end.

Definition tabulate (deg : Degree) (size : nat) (order : Z) (ps : PointSet)
    (e : option entity) : result (dict (list Z) Tabulation) :=
  match e with
  | Some (DimInt d, v) =>
      inr [([0], mkTabulation [size] (indices ps)
                   (fun pt pos =>
                      lagrange deg (nth 0 pos 0%nat)
                               (coordinate (DimInt d, v) ps pt)))]
  | _ => inl ValueError
  end.

Definition P1 : FiniteElementBase :=
  mkElement "Lagrange" interval_cell (DegreeInt 1)
    [(DimInt 0, [(0, [0]); (1, [1])]); (DimInt 1, [(0, [])])]
    [2%nat] []
    (tabulate (DegreeInt 1) 2).

Definition P2 : FiniteElementBase :=
  mkElement "Lagrange" interval_cell (DegreeInt 2)
    [(DimInt 0, [(0, [0]); (1, [1])]); (DimInt 1, [(0, [2])])]
    [3%nat] []
    (tabulate (DegreeInt 2) 3).

(** [P2] with another [degree] attribute. *)
Definition of_degree (deg : Degree) : FiniteElementBase :=
  mkElement "Lagrange" interval_cell deg
    [(DimInt 0, [(0, [0]); (1, [1])]); (DimInt 1, [(0, [2])])]
    [3%nat] []
    (tabulate (DegreeInt 2) 3).

(** An element that breaks the contract: one vertex holds two degrees
    of freedom, the other one. *)
Definition uneven : FiniteElementBase :=
  mkElement "Uneven" interval_cell (DegreeInt 2)
    [(DimInt 0, [(0, [0; 1]); (1, [2])]); (DimInt 1, [(0, [])])]
    [3%nat] []
    (tabulate (DegreeInt 2) 3).

(** What the methods return on them. *)
Definition P2_permutations : PermutationTable :=
  [(DimInt 0, [(Orient 0, [0])]);
   (DimInt 1, [(Orient 0, [0]); (Orient 1, [0]);
               (Orient 2, [0]); (Orient 3, [0])])].

Definition P2_closure_dofs : ClosureDofs :=
  [(DimInt 0, [(0, [0]); (1, [1])]); (DimInt 1, [(0, [0; 1; 2])])].

Definition P2_support_dofs : SupportDofs :=
  [(DimInt 0, [(0, [0]); (1, [1])]); (DimInt 1, [(0, [0; 1; 2])])].

Definition P1_support_dofs : SupportDofs :=
  [(DimInt 0, [(0, [0]); (1, [1])]); (DimInt 1, [(0, [0; 1])])].

(** The surroundings of a new [P2] after [entity_closure_dofs()]. *)
Definition P2_after_closure : World :=
  mkWorld [ClosureObject P2_closure_dofs]
          [("_entity_closure_dofs"%string, 0%nat)]
          [CallEntityDofs; ReadSubEntities].
End Interval.

(** ** A concrete element on a product cell: degree-1 Lagrange on the
    product of two intervals *)

Module Quadrilateral.
Definition vertex : dimkey := DimTuple [0; 0].
Definition edge01 : dimkey := DimTuple [0; 1].
Definition edge10 : dimkey := DimTuple [1; 0].
Definition interior : dimkey := DimTuple [1; 1].

Definition product_topology : Topology :=
  [(vertex, [(0, [0]); (1, [1]); (2, [2]); (3, [3])]);
   (edge01, [(0, [0; 1]); (1, [2; 3])]);
   (edge10, [(0, [0; 2]); (1, [1; 3])]);
   (interior, [(0, [0; 1; 2; 3])])].

Definition product_sub_entities : SubEntities :=
  [(vertex, [(0, [(vertex, 0)]); (1, [(vertex, 1)]);
             (2, [(vertex, 2)]); (3, [(vertex, 3)])]);
   (edge01, [(0, [(vertex, 0); (vertex, 1); (edge01, 0)]);
             (1, [(vertex, 2); (vertex, 3); (edge01, 1)])]);
   (edge10, [(0, [(vertex, 0); (vertex, 2); (edge10, 0)]);
             (1, [(vertex, 1); (vertex, 3); (edge10, 1)])]);
   (interior, [(0, [(vertex, 0); (vertex, 1); (vertex, 2); (vertex, 3);
                    (edge01, 0); (edge01, 1); (edge10, 0); (edge10, 1);
                    (interior, 0)])])].

Definition product_cell : Cell :=
  TensorProductCell [Interval.interval_cell; Interval.interval_cell]
    product_topology product_sub_entities
    (fun _ => inl KeyError).

Definition Q1 : FiniteElementBase :=
  mkElement "TensorProductElement" product_cell (DegreeTuple [1; 1])
    [(vertex, [(0, [0]); (1, [1]); (2, [2]); (3, [3])]);
     (edge01, [(0, []); (1, [])]);
     (edge10, [(0, []); (1, [])]);
     (interior, [(0, [])])]
    [4%nat] []
    (fun _ _ _ => inl ValueError).
End Quadrilateral.

(** ** Elements that break the contract *)

Module Malformed.
(** The edge dimension is there, with no entity. *)
Definition no_edges : FiniteElementBase :=
mkElement "NoEdges" Interval.interval_cell (DegreeInt 1)
  [(DimInt 0, [(0, [0]); (1, [1])]); (DimInt 1, [])]
  [2%nat] []
  (Interval.tabulate (DegreeInt 1) 2).

(** [entity_dofs()] knows the vertices only. *)
Definition vertices_only : FiniteElementBase :=
mkElement "VerticesOnly" Interval.interval_cell (DegreeInt 1)
  [(DimInt 0, [(0, [0]); (1, [1])])]
  [2%nat] []
  (Interval.tabulate (DegreeInt 1) 2).

(** [basis_evaluation] returns the derivative along with the value. *)
Definition two_tabulations : FiniteElementBase :=
mkElement "TwoTabulations" Interval.interval_cell (DegreeInt 1)
  [(DimInt 0, [(0, [0]); (1, [1])]); (DimInt 1, [(0, [])])]
  [2%nat] []
  (fun order ps e =>
     match Interval.tabulate (DegreeInt 1) 2 order ps e with
     | inr [(alpha, t)] => inr [(alpha, t); ([1], t)]
     | other => other
     end).
End Malformed.

(** The surroundings of a new [P2] after [entity_support_dofs()], and
    after [entity_closure_dofs()] and then [entity_support_dofs()]. *)
Definition P2_after_support : World :=
  mkWorld [SupportObject Interval.P2_support_dofs]
          [("_entity_support_dofs"%string, 0%nat)]
          (fst (_entity_support_dofs Interval.twice_wide Interval.make_quadrature Interval.P2)).

Definition P2_after_both : World :=
  mkWorld [ClosureObject Interval.P2_closure_dofs;
           SupportObject Interval.P2_support_dofs]
          [("_entity_closure_dofs"%string, 0%nat);
           ("_entity_support_dofs"%string, 1%nat)]
          ([CallEntityDofs; ReadSubEntities]
           ++ fst (_entity_support_dofs Interval.twice_wide Interval.make_quadrature Interval.P2)).

(** What [permutations()] returns on [Q1]. *)
Definition Q1_permutations : PermutationTable :=
  Eval vm_compute in
    match permutations Quadrilateral.Q1 with
    | inr table => table
    | inl _ => []
    end.


(** ** Loops and lookups *)

Section LoopFacts.
Context {A B : Type}.

Lemma mapM_inr (f : A -> result B) (l : list A) (ys : list B) :
  mapM f l = inr ys -> Forall2 (fun x y => f x = inr y) l ys.
Proof.
  revert ys. induction l as [|x l IH]; simpl; intros ys E.
  - inversion E. constructor.
  - destruct (f x) as [e|y] eqn:Ex; simpl in E; [discriminate|].
    destruct (mapM f l) as [e|ys'] eqn:El; simpl in E; [discriminate|].
    inversion E; subst. constructor; auto.
Qed.

Lemma mapM_total (f : A -> result B) (l : list A) :
  Forall (fun x => exists y, f x = inr y) l -> exists ys, mapM f l = inr ys.
Proof.
  induction 1 as [|x l [y Ex] _ [ys El]]; simpl.
  - eexists; reflexivity.
  - rewrite Ex, El. simpl. eexists; reflexivity.
Qed.

Lemma mapM_raises (f : A -> result B) (l : list A) (x : A) (e : py_error) :
  In x l -> f x = inl e -> exists e', mapM f l = inl e'.
Proof.
  induction l as [|a l IH]; simpl; intros Hin Ex; [contradiction|].
  destruct Hin as [->|Hin].
  - rewrite Ex. simpl. eauto.
  - destruct (f a); simpl; eauto.
    destruct (IH Hin Ex) as [e' ->]. simpl. eauto.
Qed.
End LoopFacts.

Section DictFacts.
Context {K : Type} `{Hashable K}.

Lemma key_eqb_refl (k : K) : key_eqb k k = true.
Proof. apply key_eqb_eq. reflexivity. Qed.

Lemma key_eqb_neq (k k' : K) : k <> k' -> key_eqb k k' = false.
Proof.
  intros N. destruct (key_eqb k k') eqn:E; auto.
  apply key_eqb_eq in E. contradiction.
Qed.

Lemma dict_get_In {V : Type} (d : dict K V) (k : K) (v : V) :
  dict_get d k = Some v -> In (k, v) d.
Proof.
  induction d as [|[k' v'] d IH]; simpl; [discriminate|].
  destruct (key_eqb k' k) eqn:E.
  - apply key_eqb_eq in E. intros [= ->]. subst. auto.
  - auto.
Qed.

(** A [dict] built with one entry per item of another, under the
    same key. *)
Lemma dict_get_rebuilt {V W : Type} (P : K -> V -> W -> Prop)
    (d : dict K V) (out : dict K W) (k : K) (v : V) :
  Forall2 (fun it o => fst o = fst it /\ P (fst it) (snd it) (snd o)) d out ->
  dict_get d k = Some v ->
  exists w, dict_get out k = Some w /\ P k v w.
Proof.
  induction 1 as [|[k1 v1] [k2 w2] d out [Ek HP] _ IH]; simpl in *;
    [discriminate|].
  subst k2. destruct (key_eqb k1 k) eqn:E.
  - apply key_eqb_eq in E. subst k1. intros [= ->]. eauto.
  - exact IH.
Qed.

Lemma dict_get_rebuilt_inv {V W : Type} (P : K -> V -> W -> Prop)
    (d : dict K V) (out : dict K W) (k : K) (w : W) :
  Forall2 (fun it o => fst o = fst it /\ P (fst it) (snd it) (snd o)) d out ->
  dict_get out k = Some w ->
  exists v, dict_get d k = Some v /\ P k v w.
Proof.
  induction 1 as [|[k1 v1] [k2 w2] d out [Ek HP] _ IH]; simpl in *;
    [discriminate|].
  subst k2. destruct (key_eqb k1 k) eqn:E.
  - apply key_eqb_eq in E. subst k1. intros [= ->]. eauto.
  - exact IH.
Qed.

(** A [dict] built with one entry per key of a list. *)
Lemma dict_get_keyed {W : Type} (P : K -> W -> Prop)
    (l : list K) (out : dict K W) (k : K) :
  Forall2 (fun x o => fst o = x /\ P x (snd o)) l out ->
  In k l ->
  exists w, dict_get out k = Some w /\ P k w.
Proof.
  induction 1 as [|x [k2 w2] l out [Ek HP] _ IH]; simpl in *;
    [contradiction|].
  subst k2. intros Hin. destruct (key_eqb x k) eqn:E.
  - apply key_eqb_eq in E. subst x. eauto.
  - destruct Hin as [->|Hin]; [rewrite key_eqb_refl in E; discriminate|].
    auto.
Qed.
End DictFacts.

(** ** Facts about [permutations] *)

Lemma nodup_singleton (l : list nat) (n : nat) :
  nodup Nat.eq_dec l = [n] <-> l <> [] /\ Forall (fun x => x = n) l.
Proof.
  split.
  - intros E. split.
    + intros ->. discriminate.
    + apply Forall_forall. intros x Hx.
      apply (nodup_In Nat.eq_dec) in Hx. rewrite E in Hx.
      destruct Hx as [->|[]]. reflexivity.
  - intros [Hne Hall]. rewrite Forall_forall in Hall.
    assert (Hin : forall x, In x (nodup Nat.eq_dec l) -> x = n).
    { intros x Hx. apply Hall. apply (nodup_In Nat.eq_dec). exact Hx. }
    pose proof (NoDup_nodup Nat.eq_dec l) as Hnd.
    destruct (nodup Nat.eq_dec l) as [|a [|b r]] eqn:E.
    + destruct l as [|x l]; [contradiction|].
      assert (Hx : In x (nodup Nat.eq_dec (x :: l)))
        by (apply nodup_In; left; reflexivity).
      rewrite E in Hx. destruct Hx.
    + rewrite (Hin a); [reflexivity | left; reflexivity].
    + exfalso. inversion Hnd as [|? ? Hnot _]; subst. apply Hnot.
      rewrite (Hin a), (Hin b); simpl; auto.
Qed.

(** [the_length] returns exactly when the lists are there and all of
    one length. *)
Lemma the_length_inr {A : Type} (xs : list (list A)) (n : nat) :
  the_length xs = inr n <->
  xs <> [] /\ Forall (fun x => List.length x = n) xs.
Proof.
  unfold the_length, unpack1. split.
  - intros E.
    destruct (nodup Nat.eq_dec (map (@List.length A) xs)) as [|a [|b r]] eqn:En;
      try discriminate.
    inversion E; subst a. apply nodup_singleton in En. destruct En as [Hne Hall].
    split.
    + intros ->. apply Hne. reflexivity.
    + rewrite Forall_map in Hall. exact Hall.
  - intros [Hne Hall].
    assert (En : nodup Nat.eq_dec (map (@List.length A) xs) = [n]).
    { apply nodup_singleton. split.
      - destruct xs; [contradiction | discriminate].
      - rewrite Forall_map. exact Hall. }
    rewrite En. reflexivity.
Qed.

Lemma the_length_uneven {A : Type} (xs : list (list A)) (x y : list A) :
  In x xs -> In y xs -> List.length x <> List.length y ->
  the_length xs = inl ValueError.
Proof.
  intros Hx Hy Hne.
  destruct (the_length xs) as [e|n] eqn:E.
  - unfold the_length, unpack1 in E.
    destruct (nodup Nat.eq_dec (map (@List.length A) xs)) as [|a [|b r]];
      inversion E; reflexivity.
  - apply the_length_inr in E. destruct E as [_ Hall].
    rewrite Forall_forall in Hall.
    exfalso. apply Hne. rewrite (Hall x Hx), (Hall y Hy). reflexivity.
Qed.

Lemma range_identity (n : nat) : identity_permutation n (range n).
Proof.
  unfold identity_permutation, range. split.
  - rewrite length_map, length_seq. reflexivity.
  - intros i Hi. rewrite nth_error_map.
    rewrite nth_error_seq.
    destruct (Nat.ltb_spec i n); [reflexivity | lia].
Qed.

Lemma in_range (n : nat) (o : Z) :
  In o (range n) <-> 0 <= o < Z.of_nat n.
Proof.
  unfold range. rewrite in_map_iff. split.
  - intros [i [<- Hi]]. apply in_seq in Hi. lia.
  - intros Ho. exists (Z.to_nat o). split; [lia|]. apply in_seq. lia.
Qed.

Lemma NoDup_range (n : nat) : NoDup (range n).
Proof.
  unfold range. apply Finite.Injective_map_NoDup.
  - intros a b E. lia.
  - apply seq_NoDup.
Qed.

(** The table of one dimension that is not the vertex dimension. *)
Lemma orientation_row_lookup (perm : list Z) (N : nat) (o : Z) :
  0 <= o < Z.of_nat N ->
  dict_get (map (fun o => (Orient o, perm)) (range N)) (Orient o) = Some perm.
Proof.
  intros Ho. apply in_range in Ho.
  induction (range N) as [|a l IH]; simpl in *; [contradiction|].
  destruct (Z.eqb_spec a o); [reflexivity|].
  destruct Ho as [->|Ho]; [contradiction | auto].
Qed.

Lemma permutations_simple_key (self : FiniteElementBase)
    (item : dimkey * dict Z (list Z)) (out : dimkey * dict orientation (list Z)) :
  permutations_simple self item = inr out -> fst out = fst item.
Proof.
  destruct item as [dim by_entity]. unfold permutations_simple.
  destruct (the_length (values by_entity)); cbn [bind]; [discriminate|].
  destruct (key_eqb dim (DimInt 0)).
  - intros E; inversion E; reflexivity.
  - destruct (getitem (topology (cell self)) dim) as [e|t]; cbn [bind];
      [discriminate|].
    destruct (the_length (values t)); cbn [bind]; [discriminate|].
    intros E; inversion E; reflexivity.
Qed.

(** What a successful call on a cell that is not a product cell holds
    for one dimension of [entity_dofs()]. *)
Lemma permutations_simple_row (self : FiniteElementBase)
    (table : PermutationTable) (dim : dimkey) (by_entity : dict Z (list Z)) :
  is_tensor_product (cell self) = false ->
  permutations self = inr table ->
  dict_get (entity_dofs self) dim = Some by_entity ->
  exists row, dict_get table dim = Some row /\
              permutations_simple self (dim, by_entity) = inr (dim, row).
Proof.
  intros Hcell Hrun Hdim. unfold permutations in Hrun. rewrite Hcell in Hrun.
  apply mapM_inr in Hrun.
  apply (dict_get_rebuilt
           (fun k v w => permutations_simple self (k, v) = inr (k, w))
           (entity_dofs self) table dim by_entity); [|exact Hdim].
  eapply Forall2_impl; [|exact Hrun].
  intros [k v] [k' w] E. pose proof (permutations_simple_key _ _ _ E) as Ek.
  simpl in *. subst k'. auto.
Qed.

(** C10. On a cell that is not a product cell, a successful
    [permutations()] holds, for the vertex dimension 0 of
    [entity_dofs()], the single orientation 0, mapped to the identity
    permutation of the number [n] of degrees of freedom every vertex
    has; no orientation is enumerated from the topology there. *)
Theorem permutations_vertex_dimension (self : FiniteElementBase)
    (table : PermutationTable) (by_entity : dict Z (list Z)) :
  is_tensor_product (cell self) = false ->
  permutations self = inr table ->
  dict_get (entity_dofs self) (DimInt 0) = Some by_entity ->
  exists n perm,
    by_entity <> [] /\
    Forall (fun dofs => List.length dofs = n) (values by_entity) /\
    identity_permutation n perm /\
    dict_get table (DimInt 0) = Some [(Orient 0, perm)].
Proof.
  intros Hcell Hrun Hdim.
  destruct (permutations_simple_row _ _ _ _ Hcell Hrun Hdim) as [row [Hrow E]].
  unfold permutations_simple in E.
  destruct (the_length (values by_entity)) as [e|n] eqn:En; cbn [bind] in E;
    [discriminate|].
  apply the_length_inr in En. destruct En as [Hne Hall].
  inversion E; subst row.
  exists n, (range n). repeat split.
  - intros ->. apply Hne. reflexivity.
  - exact Hall.
  - apply range_identity.
  - apply range_identity.
  - exact Hrow.
Qed.

(** C5, as amended.  On a cell that is not a product cell, for every
    dimension [dim] of [entity_dofs()] other than the vertex dimension
    0, a successful [permutations()] holds at [dim] exactly one entry
    for every orientation [0 .. factorial(m)*2 - 1] and no other entry,
    [m] being the length every entry of [cell.topology[dim]] has, and
    every value is the identity permutation of the number [n] of
    degrees of freedom every entity of that dimension has. *)
Theorem permutations_orientation_table (self : FiniteElementBase)
    (table : PermutationTable) (dim : dimkey) (by_entity : dict Z (list Z)) :
  is_tensor_product (cell self) = false ->
  permutations self = inr table ->
  dict_get (entity_dofs self) dim = Some by_entity ->
  dim <> DimInt 0 ->
  exists n m cones row,
    Forall (fun dofs => List.length dofs = n) (values by_entity) /\
    dict_get (topology (cell self)) dim = Some cones /\
    Forall (fun cone => List.length cone = m) (values cones) /\
    dict_get table dim = Some row /\
    (forall o, 0 <= o < Z.of_nat (fact m * 2) ->
       exists perm, dict_get row (Orient o) = Some perm /\
                    identity_permutation n perm) /\
    (forall k perm, In (k, perm) row ->
       exists o, k = Orient o /\ 0 <= o < Z.of_nat (fact m * 2) /\
                 identity_permutation n perm) /\
    NoDup (keys row) /\
    List.length row = (fact m * 2)%nat.
Proof.
  intros Hcell Hrun Hdim Hnot0.
  destruct (permutations_simple_row _ _ _ _ Hcell Hrun Hdim) as [row [Hrow E]].
  unfold permutations_simple in E.
  destruct (the_length (values by_entity)) as [e|n] eqn:En; cbn [bind] in E;
    [discriminate|].
  apply the_length_inr in En. destruct En as [_ Hall].
  rewrite (key_eqb_neq _ _ Hnot0) in E.
  unfold getitem in E.
  destruct (dict_get (topology (cell self)) dim) as [cones|] eqn:Ecs; cbn [bind] in E;
    [|discriminate].
  destruct (the_length (values cones)) as [e|m] eqn:Em; cbn [bind] in E;
    [discriminate|].
  apply the_length_inr in Em. destruct Em as [_ Hcones].
  inversion E; subst row. clear E.
  exists n, m, cones, (map (fun o => (Orient o, range n)) (range (fact m * 2))).
  repeat split; auto.
  - intros o Ho. exists (range n). split.
    + apply orientation_row_lookup. exact Ho.
    + apply range_identity.
  - intros k perm Hin. apply in_map_iff in Hin.
    destruct Hin as [o [Eo Ho]]. inversion Eo; subst.
    exists o. split; [reflexivity|]. split.
    + apply in_range. exact Ho.
    + apply range_identity.
  - unfold keys. rewrite map_map. simpl.
    apply Finite.Injective_map_NoDup.
    + intros a b Eab. congruence.
    + apply NoDup_range.
  - rewrite length_map. unfold range. rewrite length_map, length_seq.
    reflexivity.
Qed.

(** C8. When some dimension of [entity_dofs()] holds two entities with
    lists of degrees of freedom of different lengths, [permutations()]
    raises, on a product cell and on any other cell, and returns no
    table. *)
Theorem permutations_uneven_dofs_raises (self : FiniteElementBase)
    (dim : dimkey) (by_entity : dict Z (list Z)) (e1 e2 : Z)
    (dofs1 dofs2 : list Z) :
  dict_get (entity_dofs self) dim = Some by_entity ->
  dict_get by_entity e1 = Some dofs1 ->
  dict_get by_entity e2 = Some dofs2 ->
  List.length dofs1 <> List.length dofs2 ->
  exists err, permutations self = inl err.
Proof.
  intros Hdim H1 H2 Hne.
  apply dict_get_In in Hdim.
  assert (Hlen : the_length (values by_entity) = inl ValueError).
  { apply (the_length_uneven _ dofs1 dofs2); auto; unfold values.
    - change dofs1 with (snd (e1, dofs1)). apply in_map.
      apply dict_get_In. exact H1.
    - change dofs2 with (snd (e2, dofs2)). apply in_map.
      apply dict_get_In. exact H2. }
  unfold permutations. destruct (is_tensor_product (cell self)).
  - apply (mapM_raises _ _ (dim, by_entity) ValueError); [exact Hdim|].
    unfold permutations_product. rewrite Hlen. reflexivity.
  - apply (mapM_raises _ _ (dim, by_entity) ValueError); [exact Hdim|].
    unfold permutations_simple. rewrite Hlen. reflexivity.
Qed.

(** ** Facts about logged computations *)

Lemma snd_tbind {A B : Type} (m : traced A) (k : A -> traced B) :
  snd (tbind m k) = bind (snd m) (fun a => snd (k a)).
Proof.
  destruct m as [log [e|a]]; simpl; [reflexivity|].
  destruct (k a); reflexivity.
Qed.

Lemma fst_tbind {A B : Type} (m : traced A) (k : A -> traced B) :
  fst (tbind m k) =
  fst m ++ match snd m with
           | inl _ => []
           | inr a => fst (k a)
           end.
Proof.
  destruct m as [log [e|a]]; simpl; [rewrite app_nil_r; reflexivity|].
  destruct (k a); reflexivity.
Qed.

Lemma snd_tmapM {A B : Type} (f : A -> traced B) (l : list A) :
  snd (tmapM f l) = mapM (fun x => snd (f x)) l.
Proof.
  induction l as [|x l IH]; simpl; [reflexivity|].
  rewrite snd_tbind. destruct (snd (f x)); simpl; [reflexivity|].
  rewrite snd_tbind, IH. destruct (mapM _ l); reflexivity.
Qed.

(** ** Facts about [sorted] *)

Lemma sorted_permutation (l : list Z) : Permutation (sorted l) l.
Proof. symmetry. apply ZSort.Permuted_sort. Qed.

Lemma sorted_ascending (l : list Z) : StronglySorted Z.le (sorted l).
Proof.
  assert (Htrans : Relations_1.Transitive (fun x y => is_true (ZOrder.leb x y))).
  { intros x y z Hxy Hyz. unfold is_true, ZOrder.leb in *.
    rewrite Z.leb_le in *. lia. }
  pose proof (ZSort.StronglySorted_sort l Htrans) as Hs.
  unfold sorted. induction Hs as [|a r _ IH Hall]; constructor; auto.
  eapply Forall_impl; [|exact Hall].
  intros b Hb. unfold is_true, ZOrder.leb in Hb. apply Z.leb_le. exact Hb.
Qed.

(** ** Facts about the closure degrees of freedom *)

Lemma closure_result (self : FiniteElementBase) :
  snd (_entity_closure_dofs self) =
  closure_table (entity_dofs self) (sub_entities (cell self)).
Proof.
  unfold _entity_closure_dofs. rewrite !snd_tbind. reflexivity.
Qed.

Lemma closure_of_inr (entity_dofs : dict dimkey (dict Z (list Z)))
    (subs : list entity) (dofs : list Z) :
  closure_of entity_dofs subs = inr dofs ->
  exists lists,
    Forall2 (fun p l => lookup2 entity_dofs (fst p) (snd p) = Some l) subs lists /\
    dofs = sorted (List.concat lists).
Proof.
  unfold closure_of. intros E.
  destruct (mapM (dofs_of entity_dofs) subs) as [e|lists] eqn:El; cbn [bind] in E; [discriminate|].
  inversion E; subst dofs. exists lists. split; [|reflexivity].
  apply mapM_inr in El. eapply Forall2_impl; [|exact El].
  intros [d se] l Hl. unfold dofs_of, lookup2, getitem in *. simpl.
  destruct (dict_get entity_dofs d) as [row|]; cbn [bind] in Hl; [|discriminate].
  destruct (dict_get row se); congruence.
Qed.

Lemma closure_of_total (entity_dofs : dict dimkey (dict Z (list Z)))
    (subs : list entity) :
  Forall (fun p => exists l, lookup2 entity_dofs (fst p) (snd p) = Some l) subs ->
  exists dofs, closure_of entity_dofs subs = inr dofs.
Proof.
  intros Hall. unfold closure_of.
  destruct (mapM_total (dofs_of entity_dofs) subs) as [lists El].
  - eapply Forall_impl; [|exact Hall].
    intros [d se] [l Hl]. unfold dofs_of, lookup2, getitem in *. simpl in Hl.
    destruct (dict_get entity_dofs d) as [row|]; [|discriminate].
    cbn [bind]. rewrite Hl. eauto.
  - rewrite El. cbn [bind]. eauto.
Qed.

(** The entry of a returned closure table, for an entity that
    [cell.sub_entities] lists. *)
Lemma closure_table_entry (entity_dofs : dict dimkey (dict Z (list Z)))
    (subs : SubEntities) (table : ClosureDofs)
    (dim : dimkey) (e : Z) (listed : list entity) :
  closure_table entity_dofs subs = inr table ->
  lookup2 subs dim e = Some listed ->
  exists dofs, lookup2 table dim e = Some dofs /\
               closure_of entity_dofs listed = inr dofs.
Proof.
  unfold closure_table, lookup2. intros Hrun Hlisted.
  destruct (dict_get subs dim) as [entities|] eqn:Hdim; [|discriminate].
  apply mapM_inr in Hrun.
  destruct (dict_get_rebuilt
              (fun _ (entities : dict Z (list entity)) (row : dict Z (list Z)) =>
                 forall e listed, dict_get entities e = Some listed ->
                   exists dofs, dict_get row e = Some dofs /\
                                closure_of entity_dofs listed = inr dofs)
              subs table dim entities) as [row [Hrow Hentries]]; auto.
  - eapply Forall2_impl; [|exact Hrun].
    intros [k ents] [k' row] E. unfold closure_row in E.
    destruct (mapM (closure_entry entity_dofs) (items ents)) as [err|row']
      eqn:Erow; cbn [bind] in E; [discriminate|].
    inversion E; subst k' row'. simpl. split; [reflexivity|].
    intros e0 listed0 He0. apply mapM_inr in Erow.
    apply (dict_get_rebuilt
             (fun _ listed dofs => closure_of entity_dofs listed = inr dofs)
             ents row e0 listed0); [|exact He0].
    eapply Forall2_impl; [|exact Erow].
    intros [k1 l1] [k2 d2] E1. unfold closure_entry in E1.
    destruct (closure_of entity_dofs l1) as [err|dofs1] eqn:Ec;
      cbn [bind] in E1; [discriminate|].
    inversion E1; subst. simpl. auto.
  - rewrite Hrow. apply Hentries. exact Hlisted.
Qed.

Lemma closure_members (entity_dofs : dict dimkey (dict Z (list Z)))
    (subs : list entity) (lists : list (list Z)) (x : Z) :
  Forall2 (fun p l => lookup2 entity_dofs (fst p) (snd p) = Some l) subs lists ->
  (In x (List.concat lists) <->
   exists p l, In p subs /\ lookup2 entity_dofs (fst p) (snd p) = Some l /\ In x l).
Proof.
  induction 1 as [|p l subs lists Hp _ IH]; simpl.
  - split; [contradiction | intros [p [l [[] _]]]].
  - rewrite in_app_iff, IH. split.
    + intros [Hx|[p' [l' [Hin [Hl Hx]]]]].
      * exists p, l. auto.
      * exists p', l'. auto.
    + intros [p' [l' [[->|Hin] [Hl Hx]]]].
      * left. congruence.
      * right. exists p', l'. auto.
Qed.

Lemma closure_table_total (self : FiniteElementBase) :
  listed_entities_have_dofs self = true ->
  exists table,
    closure_table (entity_dofs self) (sub_entities (cell self)) = inr table.
Proof.
  unfold listed_entities_have_dofs. intros Hall.
  rewrite forallb_forall in Hall.
  unfold closure_table. apply mapM_total.
  apply Forall_forall. intros [dim entities] Hdim. unfold closure_row.
  specialize (Hall _ Hdim). cbn [snd] in Hall. rewrite forallb_forall in Hall.
  destruct (mapM_total (closure_entry (entity_dofs self)) (items entities))
    as [row Erow].
  - apply Forall_forall. intros [e listed] He. unfold closure_entry.
    specialize (Hall _ He). cbn [snd] in Hall. rewrite forallb_forall in Hall.
    destruct (closure_of_total (entity_dofs self) listed) as [dofs Ed].
    + apply Forall_forall. intros p Hp. specialize (Hall p Hp).
      unfold has_dofs in Hall.
      destruct (lookup2 (entity_dofs self) (fst p) (snd p)); [eauto|discriminate].
    + rewrite Ed. cbn [bind]. eauto.
  - rewrite Erow. cbn [bind]. eauto.
Qed.

(** The entry of a returned closure table: the ascending arrangement
    of the degrees of freedom of the listed entities. *)
Lemma closure_entry_spec (self : FiniteElementBase) (table : ClosureDofs)
    (dim : dimkey) (e : Z) (listed : list entity) :
  snd (_entity_closure_dofs self) = inr table ->
  lookup2 (sub_entities (cell self)) dim e = Some listed ->
  exists lists dofs,
    lookup2 table dim e = Some dofs /\
    Forall2 (fun p l => lookup2 (entity_dofs self) (fst p) (snd p) = Some l)
            listed lists /\
    Permutation dofs (List.concat lists) /\
    StronglySorted Z.le dofs.
Proof.
  intros Hrun Hlisted. rewrite closure_result in Hrun.
  destruct (closure_table_entry _ _ _ _ _ _ Hrun Hlisted) as [dofs [Hd Hc]].
  destruct (closure_of_inr _ _ _ Hc) as [lists [Hl ->]].
  exists lists, (sorted (List.concat lists)).
  repeat split; auto using sorted_permutation, sorted_ascending.
Qed.

(** C2. When every listed entity has an entry in [entity_dofs()], the
    closure table is computed, and for every dimension [dim] and entity
    [e] of [cell.sub_entities] its entry at [dim], [e] is the ascending
    arrangement of the concatenation of [entity_dofs()[d'][e']] over
    the pairs [(d', e')] that [cell.sub_entities[dim][e]] lists. *)
Theorem entity_closure_dofs_sorted_concatenation (self : FiniteElementBase)
    (dim : dimkey) (e : Z) (listed : list entity) :
  listed_entities_have_dofs self = true ->
  lookup2 (sub_entities (cell self)) dim e = Some listed ->
  exists table lists dofs,
    snd (_entity_closure_dofs self) = inr table /\
    lookup2 table dim e = Some dofs /\
    Forall2 (fun p l => lookup2 (entity_dofs self) (fst p) (snd p) = Some l)
            listed lists /\
    Permutation dofs (List.concat lists) /\
    StronglySorted Z.le dofs.
Proof.
  intros Hall Hlisted.
  destruct (closure_table_total self Hall) as [table Htable].
  rewrite <- closure_result in Htable.
  destruct (closure_entry_spec self table dim e listed Htable Hlisted)
    as [lists [dofs H]].
  exists table, lists, dofs. tauto.
Qed.

Lemma lookup2_In {V : Type} (t : dict dimkey (dict Z V)) (d : dimkey) (e : Z)
    (v : V) :
  lookup2 t d e = Some v -> exists row, In (d, row) t /\ In (e, v) row.
Proof.
  unfold lookup2. destruct (dict_get t d) as [row|] eqn:Hrow; [|discriminate].
  intros Hv. exists row. split; apply dict_get_In; assumption.
Qed.

Lemma transitively_closed_incl (subs : SubEntities) :
  transitively_closed subs = true ->
  forall d1 e1 listed1 d2 e2 listed2,
    lookup2 subs d1 e1 = Some listed1 ->
    In (d2, e2) listed1 ->
    lookup2 subs d2 e2 = Some listed2 ->
    incl listed2 listed1.
Proof.
  unfold transitively_closed. intros Hall d1 e1 listed1 d2 e2 listed2 H1 Hin H2.
  rewrite forallb_forall in Hall.
  destruct (lookup2_In _ _ _ _ H1) as [row [Hrow He]].
  specialize (Hall _ Hrow). cbn [snd] in Hall. rewrite forallb_forall in Hall.
  specialize (Hall _ He). cbn [snd] in Hall. rewrite forallb_forall in Hall.
  specialize (Hall _ Hin). cbn [fst snd] in Hall. rewrite H2 in Hall.
  rewrite forallb_forall in Hall.
  intros q Hq. specialize (Hall q Hq). apply existsb_exists in Hall.
  destruct Hall as [x [Hx E]]. apply key_eqb_eq in E. subst x. exact Hx.
Qed.

(** C3. When the relation [cell.sub_entities] is transitively closed
    and entity [(d2, e2)] is listed among the sub-entities of
    [(d1, e1)], every id of the closure entry of [(d2, e2)] is an id of
    the closure entry of [(d1, e1)]. *)
Theorem closure_dofs_monotone (self : FiniteElementBase) (table : ClosureDofs)
    (d1 d2 : dimkey) (e1 e2 : Z) (listed1 : list entity)
    (dofs1 dofs2 : list Z) :
  transitively_closed (sub_entities (cell self)) = true ->
  snd (_entity_closure_dofs self) = inr table ->
  lookup2 (sub_entities (cell self)) d1 e1 = Some listed1 ->
  In (d2, e2) listed1 ->
  lookup2 table d1 e1 = Some dofs1 ->
  lookup2 table d2 e2 = Some dofs2 ->
  incl dofs2 dofs1.
Proof.
  intros Htrans Hrun Hl1 Hin Hd1 Hd2 x Hx.
  destruct (closure_entry_spec self table d1 e1 listed1 Hrun Hl1)
    as [lists1 [dofs1' [Hd1' [Hf1 [Hp1 _]]]]].
  rewrite Hd1 in Hd1'. inversion Hd1'; subst dofs1'. clear Hd1'.
  assert (Hl2 : exists listed2,
             lookup2 (sub_entities (cell self)) d2 e2 = Some listed2).
  { rewrite closure_result in Hrun. unfold closure_table in Hrun.
    apply mapM_inr in Hrun. unfold lookup2 in Hd2 |- *.
    destruct (dict_get table d2) as [row|] eqn:Hrow; [|discriminate].
    destruct (dict_get_rebuilt_inv
                (fun _ (entities : dict Z (list entity)) (row : dict Z (list Z)) =>
                   forall e, dict_get row e <> None -> dict_get entities e <> None)
                (sub_entities (cell self)) table d2 row) as [ents [He Hk]]; auto.
    - eapply Forall2_impl; [|exact Hrun].
      intros [k ents] [k' row'] E. unfold closure_row in E.
      destruct (mapM (closure_entry (entity_dofs self)) (items ents))
        as [err|row''] eqn:Erow; cbn [bind] in E; [discriminate|].
      inversion E; subst k' row''. simpl. split; [reflexivity|].
      intros e0 Hsome. apply mapM_inr in Erow.
      destruct (dict_get row' e0) as [w|] eqn:Hw; [|contradiction].
      destruct (dict_get_rebuilt_inv
                  (fun _ (_ : list entity) (_ : list Z) => True)
                  ents row' e0 w) as [v [Hv _]]; auto.
      + eapply Forall2_impl; [|exact Erow].
        intros [k1 l1] [k2 w2] E1. unfold closure_entry in E1.
        destruct (closure_of (entity_dofs self) l1); cbn [bind] in E1;
          [discriminate|].
        inversion E1; subst. simpl. auto.
      + rewrite Hv. discriminate.
    - rewrite He. specialize (Hk e2).
      destruct (dict_get ents e2) as [l2|]; eauto.
      exfalso. apply Hk; [rewrite Hd2; discriminate | reflexivity]. }
  destruct Hl2 as [listed2 Hl2].
  destruct (closure_entry_spec self table d2 e2 listed2 Hrun Hl2)
    as [lists2 [dofs2' [Hd2' [Hf2 [Hp2 _]]]]].
  rewrite Hd2 in Hd2'. inversion Hd2'; subst dofs2'. clear Hd2'.
  apply (Permutation_in _ Hp2) in Hx.
  apply (closure_members _ _ _ _ Hf2) in Hx.
  destruct Hx as [p [l [Hp [Hl Hxl]]]].
  apply (Permutation_in _ (Permutation_sym Hp1)).
  apply (closure_members _ _ _ _ Hf1).
  exists p, l. repeat split; auto.
  exact (transitively_closed_incl _ Htrans _ _ _ _ _ _ Hl1 Hin Hl2 p Hp).
Qed.

Lemma flat_map_step {A B : Type} (f : A -> list B) (x : A) (l : list A) :
  flat_map f (x :: l) = f x ++ flat_map f l.
Proof. reflexivity. Qed.

Lemma assigned_dofs_values (entity_dofs : dict dimkey (dict Z (list Z))) :
  map snd (assigned_dofs entity_dofs) = all_dofs entity_dofs.
Proof.
  unfold assigned_dofs, all_dofs.
  induction entity_dofs as [|[d row] rest IH]; [reflexivity|].
  rewrite !flat_map_step, map_app. f_equal; [|exact IH].
  clear IH. cbn [fst snd]. induction row as [|[e dofs] row IHrow]; [reflexivity|].
  rewrite !flat_map_step, map_app. f_equal; [|exact IHrow].
  rewrite map_map. cbn [fst snd]. apply map_id.
Qed.

Lemma lookup2_assigned (entity_dofs : dict dimkey (dict Z (list Z)))
    (d : dimkey) (e : Z) (l : list Z) (x : Z) :
  lookup2 entity_dofs d e = Some l -> In x l ->
  In ((d, e), x) (assigned_dofs entity_dofs).
Proof.
  unfold lookup2. intros Hl Hx.
  destruct (dict_get entity_dofs d) as [row|] eqn:Hrow; [|discriminate].
  apply dict_get_In in Hrow. apply dict_get_In in Hl.
  unfold assigned_dofs. apply in_flat_map. exists (d, row). split; [exact Hrow|].
  apply in_flat_map. exists (e, l). split; [exact Hl|].
  simpl. apply in_map_iff. exists x. auto.
Qed.

Lemma NoDup_map_injective_on {A B : Type} (f : A -> B) (l : list A) (a b : A) :
  NoDup (map f l) -> In a l -> In b l -> f a = f b -> a = b.
Proof.
  induction l as [|x l IH]; simpl; [contradiction|].
  intros Hnd Ha Hb E. inversion Hnd as [|? ? Hnot Hnd']; subst.
  destruct Ha as [->|Ha], Hb as [->|Hb]; auto.
  - exfalso. apply Hnot. rewrite E. apply in_map. exact Hb.
  - exfalso. apply Hnot. rewrite <- E. apply in_map. exact Ha.
Qed.

Lemma NoDup_flat_map_part {A B : Type} (f : A -> list B) (l : list A) (a : A) :
  NoDup (flat_map f l) -> In a l -> NoDup (f a).
Proof.
  induction l as [|x l IH]; simpl; [contradiction|].
  intros Hnd [->|Ha].
  - apply NoDup_app_remove_r in Hnd. exact Hnd.
  - apply NoDup_app_remove_l in Hnd. auto.
Qed.

(** With every id assigned once, the ids of one entity are distinct
    and two entities share none. *)
Lemma assigned_once_entity (entity_dofs : dict dimkey (dict Z (list Z)))
    (d : dimkey) (e : Z) (l : list Z) :
  NoDup (all_dofs entity_dofs) ->
  lookup2 entity_dofs d e = Some l -> NoDup l.
Proof.
  unfold lookup2, all_dofs. intros Hnd Hl.
  destruct (dict_get entity_dofs d) as [row|] eqn:Hrow; [|discriminate].
  apply dict_get_In in Hrow. apply dict_get_In in Hl.
  pose proof (NoDup_flat_map_part _ _ _ Hnd Hrow) as Hrow'. simpl in Hrow'.
  exact (NoDup_flat_map_part _ _ _ Hrow' Hl).
Qed.

Lemma assigned_once_disjoint (entity_dofs : dict dimkey (dict Z (list Z)))
    (p p' : entity) (l l' : list Z) (x : Z) :
  NoDup (all_dofs entity_dofs) ->
  lookup2 entity_dofs (fst p) (snd p) = Some l ->
  lookup2 entity_dofs (fst p') (snd p') = Some l' ->
  In x l -> In x l' -> p = p'.
Proof.
  intros Hnd Hl Hl' Hx Hx'. rewrite <- assigned_dofs_values in Hnd.
  destruct p as [d e], p' as [d' e']. simpl in *.
  pose proof (lookup2_assigned _ _ _ _ _ Hl Hx) as H1.
  pose proof (lookup2_assigned _ _ _ _ _ Hl' Hx') as H2.
  pose proof (NoDup_map_injective_on snd _ _ _ Hnd H1 H2 eq_refl) as E.
  congruence.
Qed.

Lemma closure_concat_NoDup (entity_dofs : dict dimkey (dict Z (list Z)))
    (listed : list entity) (lists : list (list Z)) :
  NoDup (all_dofs entity_dofs) ->
  NoDup listed ->
  Forall2 (fun p l => lookup2 entity_dofs (fst p) (snd p) = Some l) listed lists ->
  NoDup (List.concat lists).
Proof.
  intros Hnd Hlisted Hf.
  induction Hf as [|p l listed lists Hp Hf IH]; simpl; [constructor|].
  inversion Hlisted as [|? ? Hnot Hlisted']; subst.
  apply NoDup_app.
  - exact (assigned_once_entity _ _ _ _ Hnd Hp).
  - auto.
  - intros x Hx Hx'. apply (closure_members _ _ _ _ Hf) in Hx'.
    destruct Hx' as [p' [l' [Hin [Hl' Hxl']]]].
    rewrite (assigned_once_disjoint _ _ _ _ _ _ Hnd Hp Hl' Hx Hxl') in Hnot.
    contradiction.
Qed.

(** C4. When [entity_dofs()] assigns every id once over all entities,
    and [cell.sub_entities[d][e]] lists each of its pairs once and the
    pair [(d, e)] among them, the closure entry at [d], [e] is in
    ascending order, holds no id twice, and holds every id of
    [entity_dofs()[d][e]]. *)
Theorem closure_dofs_sorted_distinct_superset (self : FiniteElementBase)
    (table : ClosureDofs) (d : dimkey) (e : Z) (listed : list entity)
    (dofs : list Z) :
  NoDup (all_dofs (entity_dofs self)) ->
  lookup2 (sub_entities (cell self)) d e = Some listed ->
  NoDup listed ->
  In (d, e) listed ->
  snd (_entity_closure_dofs self) = inr table ->
  lookup2 table d e = Some dofs ->
  StronglySorted Z.le dofs /\
  NoDup dofs /\
  exists own, lookup2 (entity_dofs self) d e = Some own /\ incl own dofs.
Proof.
  intros Honce Hlisted Hnd Hself Hrun Hdofs.
  destruct (closure_entry_spec self table d e listed Hrun Hlisted)
    as [lists [dofs' [Hd' [Hf [Hperm Hsorted]]]]].
  rewrite Hdofs in Hd'. inversion Hd'; subst dofs'. clear Hd'.
  split; [exact Hsorted|]. split.
  - apply (Permutation_NoDup (Permutation_sym Hperm)).
    exact (closure_concat_NoDup _ _ _ Honce Hnd Hf).
  - assert (Hown : exists own, lookup2 (entity_dofs self) d e = Some own /\
                               In own lists).
    { clear Hperm Hnd Hlisted. induction Hf as [|p l listed' lists' Hp _ IH];
        [contradiction|].
      destruct Hself as [->|Hin].
      - exists l. simpl in Hp. split; [exact Hp | left; reflexivity].
      - destruct (IH Hin) as [own [Ho Hi]]. exists own. split; [exact Ho|].
        right. exact Hi. }
    destruct Hown as [own [Ho Hi]]. exists own. split; [exact Ho|].
    intros x Hx. apply (Permutation_in _ (Permutation_sym Hperm)).
    apply in_concat. exists own. auto.
Qed.

(** ** Facts about floating-point numbers *)

Lemma float_mul_comm (x y : float) : (x * y)%float = (y * x)%float.
Proof.
  apply Prim2SF_inj. rewrite !mul_spec. unfold SF64mul, SFmul.
  destruct (Prim2SF x) as [sx|sx| |sx mx ex], (Prim2SF y) as [sy|sy| |sy my ey];
    try reflexivity; rewrite (xorb_comm sy sx); try reflexivity.
  rewrite (Pos.mul_comm my mx), (Z.add_comm ey ex). reflexivity.
Qed.

Lemma eps_not_above_eps : PrimFloat.ltb eps eps = false.
Proof. vm_compute. reflexivity. Qed.

(** ** Facts about [enumerate] and the threshold *)

Lemma in_combine_seq {A : Type} (l : list A) (s n : nat) (x : A) :
  In (n, x) (combine (seq s (List.length l)) l) <->
  (s <= n)%nat /\ nth_error l (n - s) = Some x.
Proof.
  revert s. induction l as [|a l IH]; intros s; simpl.
  - split; [contradiction|]. intros [_ E]. destruct (n - s)%nat; discriminate.
  - rewrite IH. split.
    + intros [E|[Hle Hn]].
      * inversion E; subst. rewrite Nat.sub_diag. simpl. split; [lia|reflexivity].
      * split; [lia|]. replace (n - s)%nat with (S (n - S s)) by lia. exact Hn.
    + intros [Hle Hn]. destruct (Nat.eq_dec s n) as [->|Hne].
      * left. rewrite Nat.sub_diag in Hn. simpl in Hn. congruence.
      * right. split; [lia|].
        replace (n - s)%nat with (S (n - S s)) in Hn by lia. exact Hn.
Qed.

Lemma dofs_above_eps_In (ints : list float) (k : Z) :
  In k (dofs_above_eps ints) <->
  exists i, 0 <= k /\ nth_error ints (Z.to_nat k) = Some i /\
            PrimFloat.ltb eps i = true.
Proof.
  unfold dofs_above_eps, enumerate. rewrite in_map_iff. split.
  - intros [[n i] [<- Hin]]. apply filter_In in Hin. destruct Hin as [Hin Hi].
    apply in_combine_seq in Hin. destruct Hin as [_ Hn].
    rewrite Nat.sub_0_r in Hn. exists i. rewrite Nat2Z.id. split; [lia|]. auto.
  - intros [i [Hk [Hn Hi]]]. exists (Z.to_nat k, i). split; [lia|].
    apply filter_In. split; [|exact Hi].
    apply in_combine_seq. rewrite Nat.sub_0_r. split; [lia | exact Hn].
Qed.

Lemma dofs_above_eps_ascending (ints : list float) :
  StronglySorted Z.lt (dofs_above_eps ints).
Proof.
  unfold dofs_above_eps, enumerate. generalize 0%nat as s.
  induction ints as [|i ints IH]; intros s; simpl; [constructor|].
  assert (Hrest : Forall (Z.lt (Z.of_nat s))
            (map (fun '(dof, _) => Z.of_nat dof)
               (filter (fun '(_, i) => PrimFloat.ltb eps i)
                  (combine (seq (S s) (List.length ints)) ints)))).
  { apply Forall_forall. intros k Hk. apply in_map_iff in Hk.
    destruct Hk as [[n x] [<- Hin]]. apply filter_In in Hin.
    destruct Hin as [Hin _]. apply in_combine_seq in Hin. lia. }
  destruct (PrimFloat.ltb eps i); simpl.
  - constructor; [apply IH | exact Hrest].
  - apply IH.
Qed.

(** ** Facts about indices and environments *)

Lemma positions_length (shape : list nat) (p : list nat) :
  In p (positions shape) -> List.length p = List.length shape.
Proof.
  revert p. induction shape as [|n shape IH]; simpl; intros p Hp.
  - destruct Hp as [<-|[]]. reflexivity.
  - apply in_flat_map in Hp. destruct Hp as [i [_ Hp]].
    apply in_map_iff in Hp. destruct Hp as [q [<- Hq]].
    simpl. f_equal. auto.
Qed.

Lemma new_indices_shape (name : nat -> index_name) (shape : list nat) :
  extents (new_indices name shape) = shape /\
  map index_name_of (new_indices name shape)
  = map name (seq 0 (List.length shape)).
Proof.
  unfold new_indices, enumerate, extents. generalize 0%nat as s.
  induction shape as [|d shape IH]; intros s; simpl; [auto|].
  destruct (IH (S s)) as [E1 E2]. rewrite E1, E2. auto.
Qed.

Lemma new_indices_length (name : nat -> index_name) (shape : list nat) :
  List.length (new_indices name shape) = List.length shape.
Proof.
  destruct (new_indices_shape name shape) as [E _].
  rewrite <- E at 2. unfold extents. rewrite length_map. reflexivity.
Qed.

Lemma new_indices_NoDup (name : nat -> index_name) (shape : list nat) :
  (forall a b, name a = name b -> a = b) ->
  NoDup (map index_name_of (new_indices name shape)).
Proof.
  intros Hinj. destruct (new_indices_shape name shape) as [_ ->].
  apply Finite.Injective_map_NoDup; [exact Hinj | apply seq_NoDup].
Qed.

Lemma index_name_eqb_refl (n : index_name) : index_name_eqb n n = true.
Proof. apply index_name_eqb_eq. reflexivity. Qed.

Lemma bind_indices_other (mi : list Index) (vs : list nat) (env : environment)
    (n : index_name) :
  ~ In n (map index_name_of mi) -> bind_indices mi vs env n = env n.
Proof.
  revert vs. induction mi as [|i mi IH]; intros vs Hn; [reflexivity|].
  destruct vs as [|v vs]; [reflexivity|]. simpl in *. unfold bind_index.
  destruct (index_name_eqb (index_name_of i) n) eqn:E.
  - apply index_name_eqb_eq in E. exfalso. auto.
  - apply IH. auto.
Qed.

Lemma bind_indices_ext (mi : list Index) (vs : list nat)
    (env1 env2 : environment) (n : index_name) :
  env1 n = env2 n -> bind_indices mi vs env1 n = bind_indices mi vs env2 n.
Proof.
  revert vs. induction mi as [|i mi IH]; intros vs E; [exact E|].
  destruct vs as [|v vs]; [exact E|]. simpl. unfold bind_index.
  destruct (index_name_eqb (index_name_of i) n); auto.
Qed.

Lemma bind_indices_self (mi : list Index) (vs : list nat) (env : environment) :
  NoDup (map index_name_of mi) ->
  List.length vs = List.length mi ->
  map (fun i => bind_indices mi vs env (index_name_of i)) mi = vs.
Proof.
  revert vs. induction mi as [|i mi IH]; intros vs Hnd Hlen.
  - destruct vs; [reflexivity | discriminate].
  - destruct vs as [|v vs]; [discriminate|]. simpl in *.
    inversion Hnd as [|? ? Hnot Hnd']; subst. f_equal.
    + unfold bind_index. rewrite index_name_eqb_refl. reflexivity.
    + transitivity (map (fun j => bind_indices mi vs env (index_name_of j)) mi);
        [|apply IH; [exact Hnd' | lia]].
      apply map_ext_in. intros j Hj. unfold bind_index.
      destruct (index_name_eqb (index_name_of i) (index_name_of j)) eqn:E;
        [|reflexivity].
      apply index_name_eqb_eq in E. exfalso. apply Hnot. rewrite E.
      apply in_map. exact Hj.
Qed.

(** ** The value of the integrand the loop builds *)

Section Integrand.
Variable self : FiniteElementBase.
Variable quad : QuadratureRule.

Let beta := get_indices self.
Let zeta := get_value_indices self.
Let points := map external (indices (point_set quad)).

Lemma basis_names_not_external (id : nat) :
  ~ In (External id) (map index_name_of beta).
Proof.
  unfold beta, get_indices.
  destruct (new_indices_shape BasisAxis (index_shape self)) as [_ ->].
  rewrite in_map_iff. intros [k [E _]]. discriminate.
Qed.

Lemma value_names_not_external (id : nat) :
  ~ In (External id) (map index_name_of zeta).
Proof.
  unfold zeta, get_value_indices.
  destruct (new_indices_shape ValueAxis (value_shape self)) as [_ ->].
  rewrite in_map_iff. intros [k [E _]]. discriminate.
Qed.

Lemma value_names_not_basis (i : Index) :
  In i beta -> ~ In (index_name_of i) (map index_name_of zeta).
Proof.
  intros Hi. apply (in_map index_name_of) in Hi. revert Hi.
  unfold beta, zeta, get_indices, get_value_indices.
  destruct (new_indices_shape BasisAxis (index_shape self)) as [_ ->].
  destruct (new_indices_shape ValueAxis (value_shape self)) as [_ ->].
  rewrite !in_map_iff. intros [k [<- _]] [k' [E _]]. discriminate.
Qed.

Lemma point_names_not_basis (i : Index) :
  In i beta -> ~ In (index_name_of i) (map index_name_of points).
Proof.
  intros Hi. apply (in_map index_name_of) in Hi. revert Hi.
  unfold beta, points, get_indices.
  destruct (new_indices_shape BasisAxis (index_shape self)) as [_ ->].
  rewrite map_map. rewrite !in_map_iff.
  intros [k [<- _]] [j [E _]]. discriminate.
Qed.

(** The environment at a quadrature point, with the basis indices
    bound, gives the point indices their values at the point. *)
Lemma at_point_under_basis (b pt : list nat) (id : nat) :
  bind_indices points pt (bind_indices beta b (fun _ => 0%nat)) (External id)
  = at_point quad pt (External id).
Proof.
  unfold at_point. fold points. apply bind_indices_ext.
  apply bind_indices_other. apply basis_names_not_external.
Qed.

Lemma at_point_under_value (b z pt : list nat) (id : nat) :
  bind_indices zeta z
    (bind_indices points pt (bind_indices beta b (fun _ => 0%nat)))
    (External id)
  = at_point quad pt (External id).
Proof.
  rewrite bind_indices_other by apply value_names_not_external.
  apply at_point_under_basis.
Qed.

Lemma position_under_value (b z pt : list nat) :
  List.length b = List.length (index_shape self) ->
  List.length z = List.length (value_shape self) ->
  map (fun i =>
         bind_indices zeta z
           (bind_indices points pt (bind_indices beta b (fun _ => 0%nat)))
           (index_name_of i))
      (beta ++ zeta)
  = b ++ z.
Proof.
  intros Hb Hz. rewrite map_app. f_equal.
  - transitivity
      (map (fun i => bind_indices beta b (fun _ => 0%nat) (index_name_of i))
           beta).
    + apply map_ext_in. intros i Hi.
      rewrite bind_indices_other by (apply value_names_not_basis; exact Hi).
      apply bind_indices_other. apply point_names_not_basis. exact Hi.
    + apply bind_indices_self.
      * apply new_indices_NoDup. intros x y E. congruence.
      * unfold beta, get_indices. rewrite new_indices_length. exact Hb.
  - apply bind_indices_self.
    + apply new_indices_NoDup. intros x y E. congruence.
    + unfold zeta, get_value_indices. rewrite new_indices_length. exact Hz.
Qed.

(** At the position of basis function [b], the component tensor the
    loop hands to the evaluator has the value of the integral. *)
Lemma eval_squared_basis_integral (vals : Tabulation) (b : list nat) :
  List.length b = List.length (index_shape self) ->
  eval (fun _ => 0%nat)
       (ComponentTensor (squared_basis_integral vals beta zeta quad) beta) b
  = weighted_square_integral self vals quad b.
Proof.
  intros Hb. unfold weighted_square_integral, squared_basis_integral.
  cbn [eval]. fold points. f_equal.
  replace (positions (extents points)) with (quadrature_points quad)
    by (unfold quadrature_points, points, extents; rewrite map_map;
        reflexivity).
  apply map_ext_in. intros pt _.
  rewrite float_mul_comm. f_equal.
  - unfold quadrature_weight, tabulated_at. f_equal.
    apply map_ext. intros i. apply at_point_under_basis.
  - f_equal.
    replace (positions (extents zeta)) with (positions (value_shape self))
      by (unfold zeta, get_value_indices;
          destruct (new_indices_shape ValueAxis (value_shape self)) as [-> _];
          reflexivity).
    apply map_ext_in. intros z Hz. apply positions_length in Hz.
    assert (Hv : tab_value vals
                   (map (fun i =>
                           bind_indices zeta z
                             (bind_indices points pt
                                (bind_indices beta b (fun _ => 0%nat)))
                             (External (external_id i)))
                        (tab_free vals))
                   (map (fun i =>
                           bind_indices zeta z
                             (bind_indices points pt
                                (bind_indices beta b (fun _ => 0%nat)))
                             (index_name_of i))
                        (beta ++ zeta))
                 = basis_value vals quad b z pt).
    { unfold basis_value, tabulated_at.
      rewrite (position_under_value b z pt Hb Hz). f_equal.
      apply map_ext. intros i. apply at_point_under_value. }
    rewrite Hv. reflexivity.
Qed.

(** What the evaluator returns for it, when no free index is left. *)
Lemma evaluate_squared_basis_integral (vals : Tabulation) :
  let e := ComponentTensor (squared_basis_integral vals beta zeta quad) beta in
  fids (evaluate_one e) = [] ->
  flatten (arr (evaluate_one e))
  = map (weighted_square_integral self vals quad)
        (positions (index_shape self)).
Proof.
  intros e Hf. unfold evaluate_one in *. cbn [fids arr flatten array_data] in *.
  rewrite Hf. cbn [extents map positions flat_map bind_indices].
  rewrite app_nil_r.
  assert (Hs : shape_of e = index_shape self).
  { unfold e. cbn [shape_of]. unfold beta, get_indices.
    destruct (new_indices_shape BasisAxis (index_shape self)) as [-> _].
    reflexivity. }
  rewrite Hs. apply map_ext_in. intros b Hb. apply positions_length in Hb.
  apply eval_squared_basis_integral. exact Hb.
Qed.
End Integrand.

(** ** Facts about the support degrees of freedom *)

Lemma is_empty_tuple_nil {A : Type} (t : list A) :
  is_empty_tuple t = true -> t = [].
Proof. destruct t; [reflexivity | discriminate]. Qed.

Section SupportFacts.
Variable twice_wide : Degree -> result DegreeArg.
Variable make_quadrature : Cell -> DegreeArg -> result QuadratureRule.

(** What one returning pass of the loop over the entities did. *)
Lemma support_of_entity_inr (self : FiniteElementBase)
    (quad : QuadratureRule) (dim : dimkey) (f : Z) (out : Z * list Z) :
  snd (support_of_entity self (get_indices self) (get_value_indices self)
         quad dim f) = inr out ->
  exists tab vals,
    basis_evaluation self 0 (point_set quad) (Some (dim, f)) = inr tab /\
    values tab = [vals] /\
    fst out = f /\
    snd out = dofs_above_eps
                (map (weighted_square_integral self vals quad)
                     (positions (index_shape self))).
Proof.
  unfold support_of_entity. rewrite snd_tbind. unfold call at 1. cbn [snd].
  destruct (basis_evaluation self 0 (point_set quad) (Some (dim, f)))
    as [err|tab] eqn:Etab; cbn [bind]; [discriminate|].
  rewrite snd_tbind. unfold lift at 1. cbn [snd].
  destruct (unpack1 (values tab)) as [err|vals] eqn:Evals; cbn [bind];
    [discriminate|].
  rewrite snd_tbind. unfold call at 1. cbn [snd bind evaluate map].
  rewrite snd_tbind. unfold lift at 1. cbn [snd unpack1 bind].
  rewrite snd_tbind. unfold lift at 1. cbn [snd].
  destruct (is_empty_tuple _) eqn:Efids; cbn [assert bind];
    [|discriminate].
  apply is_empty_tuple_nil in Efids.
  intros E. cbn [tret snd] in E. inversion E; subst out. clear E.
  exists tab, vals. repeat split.
  - unfold unpack1 in Evals. destruct (values tab) as [|v [|w r]];
      inversion Evals; reflexivity.
  - cbn [snd]. f_equal.
    apply (evaluate_squared_basis_integral self quad vals). exact Efids.
Qed.

(** What one returning pass of the loop over the dimensions did. *)
Lemma support_of_dimension_inr (self : FiniteElementBase) (dim : dimkey)
    (out : dimkey * dict Z (list Z)) :
  snd (support_of_dimension twice_wide make_quadrature self dim) = inr out ->
  exists entity_cell deg quad by_entity,
    construct_subelement (cell self) dim = inr entity_cell /\
    twice_degree twice_wide (degree self) = inr deg /\
    make_quadrature entity_cell deg = inr quad /\
    dict_get (entity_dofs self) dim = Some by_entity /\
    fst out = dim /\
    Forall2 (fun f o =>
               snd (support_of_entity self (get_indices self)
                      (get_value_indices self) quad dim f) = inr o)
            (keys by_entity) (snd out).
Proof.
  unfold support_of_dimension. rewrite snd_tbind. unfold call at 1. cbn [snd].
  destruct (construct_subelement (cell self) dim) as [err|entity_cell]
    eqn:Ecell; cbn [bind]; [discriminate|].
  rewrite snd_tbind. unfold lift at 1. cbn [snd].
  destruct (twice_degree twice_wide (degree self)) as [err|deg] eqn:Edeg;
    cbn [bind]; [discriminate|].
  rewrite snd_tbind. unfold call at 1. cbn [snd].
  destruct (make_quadrature entity_cell deg)
    as [err|quad] eqn:Equad; cbn [bind]; [discriminate|].
  rewrite snd_tbind. unfold call at 1. cbn [snd bind].
  rewrite snd_tbind. unfold lift at 1, getitem. cbn [snd].
  destruct (dict_get (entity_dofs self) dim) as [by_entity|] eqn:Erow;
    cbn [bind]; [|discriminate].
  rewrite snd_tbind, snd_tmapM.
  destruct (mapM _ (keys by_entity)) as [err|rows] eqn:Erows; cbn [bind];
    [discriminate|].
  intros E. cbn [tret snd] in E. inversion E; subst out. clear E.
  exists entity_cell, deg, quad, by_entity. repeat split; auto.
  apply mapM_inr in Erows. exact Erows.
Qed.

(** C1. In a returned support table, for every dimension [dim] of
    [cell.sub_entities] and every entity [e] with an entry in
    [entity_dofs()[dim]], the entry at [dim], [e] holds id [k]
    exactly when the integral of the squared basis function [k] over
    the entity (the sum over the quadrature points of the weight
    times the sum over the value indices of the squared order-0
    evaluation) is strictly above 1e-8; a basis function whose
    integral equals 1e-8 is left out; and the ids are in strictly
    ascending order. *)
Theorem entity_support_dofs_threshold (self : FiniteElementBase)
    (table : SupportDofs) (dim : dimkey) (by_entity : dict Z (list Z))
    (e : Z) :
  snd (_entity_support_dofs twice_wide make_quadrature self) = inr table ->
  In dim (keys (sub_entities (cell self))) ->
  dict_get (entity_dofs self) dim = Some by_entity ->
  In e (keys by_entity) ->
  exists entity_cell deg quad tab vals dofs,
    construct_subelement (cell self) dim = inr entity_cell /\
    twice_degree twice_wide (degree self) = inr deg /\
    make_quadrature entity_cell deg = inr quad /\
    basis_evaluation self 0 (point_set quad) (Some (dim, e)) = inr tab /\
    values tab = [vals] /\
    lookup2 table dim e = Some dofs /\
    (forall k,
       In k dofs <->
       exists b, basis_function self k = Some b /\
                 PrimFloat.ltb eps (weighted_square_integral self vals quad b)
                 = true) /\
    (forall k b,
       basis_function self k = Some b ->
       weighted_square_integral self vals quad b = eps ->
       ~ In k dofs) /\
    StronglySorted Z.lt dofs.
Proof.
  intros Hrun Hdim Hrow He.
  unfold _entity_support_dofs in Hrun. rewrite snd_tbind in Hrun.
  unfold call at 1 in Hrun. cbn [snd bind] in Hrun.
  assert (Hloop : mapM (fun d => snd (support_of_dimension twice_wide make_quadrature self d))
                       (keys (sub_entities (cell self))) = inr table)
    by (rewrite <- snd_tmapM; exact Hrun).
  clear Hrun. rename Hloop into Hrun. apply mapM_inr in Hrun.
  destruct (dict_get_keyed
              (fun d (row : dict Z (list Z)) =>
                 snd (support_of_dimension twice_wide make_quadrature self d)
                 = inr (d, row))
              (keys (sub_entities (cell self))) table dim) as [row [Ht Hd]].
  { eapply Forall2_impl; [|exact Hrun].
    intros d [d' row] E.
    destruct (support_of_dimension_inr self d _ E)
      as [_ [_ [_ [_ [_ [_ [_ [_ [Ek _]]]]]]]]].
    simpl in Ek. subst d'. auto. }
  { exact Hdim. }
  destruct (support_of_dimension_inr self dim _ Hd)
    as [entity_cell [deg [quad [by_entity' [Hc [Hdeg [Hq [Hrow' [_ Hents]]]]]]]]].
  rewrite Hrow in Hrow'. inversion Hrow'; subst by_entity'. clear Hrow'.
  cbn [snd] in Hents.
  destruct (dict_get_keyed
              (fun f (dofs : list Z) =>
                 exists tab vals,
                   basis_evaluation self 0 (point_set quad) (Some (dim, f))
                   = inr tab /\
                   values tab = [vals] /\
                   dofs = dofs_above_eps
                            (map (weighted_square_integral self vals quad)
                                 (positions (index_shape self))))
              (keys by_entity) row e)
    as [dofs [Hdofs [tab [vals [Htab [Hvals ->]]]]]].
  { eapply Forall2_impl; [|exact Hents].
    intros f o E.
    destruct (support_of_entity_inr self quad dim f o E)
      as [tab [vals [Htab [Hvals [Ef Eo]]]]].
    split; [exact Ef|]. exists tab, vals. auto. }
  { exact He. }
  assert (Hiff : forall k,
             In k (dofs_above_eps
                     (map (weighted_square_integral self vals quad)
                          (positions (index_shape self)))) <->
             exists b, basis_function self k = Some b /\
                       PrimFloat.ltb eps
                         (weighted_square_integral self vals quad b) = true).
  { intros k. rewrite dofs_above_eps_In. unfold basis_function.
    split.
    - intros [i [Hk [Hn Hi]]]. rewrite nth_error_map in Hn.
      destruct (nth_error (positions (index_shape self)) (Z.to_nat k))
        as [b|] eqn:Eb; [|discriminate].
      simpl in Hn. inversion Hn; subst i. exists b.
      destruct (Z.ltb_spec k 0); [lia | auto].
    - intros [b [Hb Hi]]. destruct (Z.ltb_spec k 0); [discriminate|].
      exists (weighted_square_integral self vals quad b).
      rewrite nth_error_map, Hb. auto. }
  exists entity_cell, deg, quad, tab, vals,
    (dofs_above_eps (map (weighted_square_integral self vals quad)
                         (positions (index_shape self)))).
  repeat split; auto.
  - unfold lookup2. rewrite Ht. exact Hdofs.
  - apply Hiff.
  - apply Hiff.
  - intros k b Hb Heq Hin. apply Hiff in Hin.
    destruct Hin as [b' [Hb' Hi]]. rewrite Hb in Hb'. inversion Hb'; subst b'.
    rewrite Heq, eps_not_above_eps in Hi. discriminate.
  - apply dofs_above_eps_ascending.
Qed.
End SupportFacts.

(** ** Facts about the quadrature requests *)

Lemma wrap_int64_small (x : Z) :
  - 2 ^ 63 <= x < 2 ^ 63 -> wrap_int64 x = x.
Proof.
  unfold wrap_int64.
  change (2 ^ 63) with 9223372036854775808.
  change (2 ^ 64) with 18446744073709551616.
  intros Hx. rewrite Z.mod_small; lia.
Qed.

Lemma held_as_object_not_int64 (n : Z) :
  held_as_object n = true -> held_as_int64 n = false.
Proof.
  unfold held_as_object, held_as_int64.
  change (2 ^ 63) with 9223372036854775808.
  change (2 ^ 64) with 18446744073709551616.
  intros H. apply Bool.orb_true_iff in H. apply Bool.andb_false_iff.
  destruct H as [H|H]; [left | right].
  - apply Z.ltb_lt in H. apply Z.leb_gt. exact H.
  - apply Z.leb_le in H. apply Z.ltb_ge. lia.
Qed.

Lemma double_fits_held_as_int64 (n : Z) :
  - 2 ^ 62 <= n < 2 ^ 62 ->
  held_as_int64 n = true /\ wrap_int64 (2 * n) = 2 * n.
Proof.
  change (2 ^ 62) with 4611686018427387904. intros Hn. split.
  - unfold held_as_int64. change (2 ^ 63) with 9223372036854775808.
    apply Bool.andb_true_iff. split; [apply Z.leb_le | apply Z.ltb_lt]; lia.
  - apply wrap_int64_small. change (2 ^ 63) with 9223372036854775808. lia.
Qed.

(** numpy doubles without wrapping where the double fits, and on the
    tuples it holds as objects. *)
Lemma twice_degree_exact (twice_wide : Degree -> result DegreeArg)
    (deg : Degree) :
  doubled_exactly deg ->
  twice_degree twice_wide deg = inr (exactly_twice deg).
Proof.
  intros [Hfit | [ns [-> Hobj]]].
  - destruct deg as [n|ns]; cbn [double_fits_int64] in Hfit;
      cbn [twice_degree exactly_twice].
    + destruct (double_fits_held_as_int64 n Hfit) as [-> ->]. reflexivity.
    + assert (Hheld : forallb held_as_int64 ns = true).
      { apply forallb_forall. intros n Hn. rewrite Forall_forall in Hfit.
        apply (double_fits_held_as_int64 n (Hfit n Hn)). }
      rewrite Hheld. do 2 f_equal. apply map_ext_in. intros n Hn.
      rewrite Forall_forall in Hfit.
      apply (double_fits_held_as_int64 n (Hfit n Hn)).
  - cbn [twice_degree exactly_twice]. rewrite Hobj.
    assert (Hheld : forallb held_as_int64 ns = false).
    { apply existsb_exists in Hobj. destruct Hobj as [n [Hn Hobj]].
      destruct (forallb held_as_int64 ns) eqn:E; [|reflexivity].
      rewrite forallb_forall in E. specialize (E n Hn).
      rewrite (held_as_object_not_int64 n Hobj) in E. discriminate. }
    rewrite Hheld. reflexivity.
Qed.

Lemma quadrature_requests_tbind {A B : Type} (m : traced A) (k : A -> traced B) :
  quadrature_requests (fst (tbind m k)) =
  quadrature_requests (fst m) ++
  match snd m with
  | inl _ => []
  | inr a => quadrature_requests (fst (k a))
  end.
Proof.
  rewrite fst_tbind. unfold quadrature_requests. rewrite flat_map_app.
  destruct (snd m); reflexivity.
Qed.

Ltac requests_step :=
  rewrite quadrature_requests_tbind; unfold call, lift;
  cbn [fst snd quadrature_requests flat_map app].

Section RequestFacts.
Variable twice_wide : Degree -> result DegreeArg.
Variable make_quadrature : Cell -> DegreeArg -> result QuadratureRule.

Lemma support_of_entity_requests (self : FiniteElementBase)
    (beta zeta : list Index) (quad : QuadratureRule) (dim : dimkey) (f : Z) :
  quadrature_requests
    (fst (support_of_entity self beta zeta quad dim f)) = [].
Proof.
  unfold support_of_entity. requests_step.
  destruct (basis_evaluation self 0 (point_set quad) (Some (dim, f)))
    as [err|tab]; [reflexivity|].
  requests_step. destruct (unpack1 (values tab)); [reflexivity|].
  requests_step. requests_step.
  destruct (unpack1 _); [reflexivity|].
  requests_step. destruct (assert _); reflexivity.
Qed.

Lemma support_entities_requests (self : FiniteElementBase)
    (beta zeta : list Index) (quad : QuadratureRule) (dim : dimkey)
    (fs : list Z) :
  quadrature_requests
    (fst (tmapM (support_of_entity self beta zeta quad dim) fs)) = [].
Proof.
  induction fs as [|f fs IH]; [reflexivity|]. cbn [tmapM].
  rewrite quadrature_requests_tbind, support_of_entity_requests.
  destruct (snd _); [reflexivity|].
  rewrite quadrature_requests_tbind, IH.
  destruct (snd _); reflexivity.
Qed.

(** One pass of the loop over the dimensions asks for one rule, once
    the subelement is there and numpy has doubled the degree. *)
Lemma support_of_dimension_requests (self : FiniteElementBase) (dim : dimkey) :
  quadrature_requests (fst (support_of_dimension twice_wide make_quadrature self dim)) =
  match construct_subelement (cell self) dim,
        twice_degree twice_wide (degree self) with
  | inr entity_cell, inr deg => [(entity_cell, deg)]
  | _, _ => []
  end.
Proof.
  unfold support_of_dimension. requests_step.
  destruct (construct_subelement (cell self) dim) as [err|entity_cell];
    [reflexivity|].
  requests_step.
  destruct (twice_degree twice_wide (degree self)) as [err|deg];
    [reflexivity|].
  requests_step.
  destruct (make_quadrature entity_cell deg); [reflexivity|].
  requests_step. requests_step.
  destruct (getitem (entity_dofs self) dim); [reflexivity|].
  rewrite quadrature_requests_tbind, support_entities_requests.
  destruct (snd _); reflexivity.
Qed.

Lemma support_of_dimension_returned (self : FiniteElementBase) (dim : dimkey)
    (out : dimkey * dict Z (list Z)) :
  snd (support_of_dimension twice_wide make_quadrature self dim) = inr out ->
  exists entity_cell, construct_subelement (cell self) dim = inr entity_cell.
Proof.
  intros E. destruct (support_of_dimension_inr twice_wide make_quadrature self dim out E)
    as [entity_cell [_ [_ [_ [H _]]]]]. eauto.
Qed.

(** The requests of the loop are those of the passes it runs. *)
Lemma support_loop_requests (self : FiniteElementBase) (dims : list dimkey) :
  doubled_exactly (degree self) ->
  quadrature_requests
    (fst (tmapM (support_of_dimension twice_wide make_quadrature self) dims)) =
  requests_on self (dimensions_entered twice_wide make_quadrature self dims).
Proof.
  intros Hfit. apply (twice_degree_exact twice_wide) in Hfit.
  induction dims as [|dim dims IH]; [reflexivity|].
  cbn [tmapM dimensions_entered]. rewrite quadrature_requests_tbind.
  rewrite support_of_dimension_requests, Hfit.
  destruct (snd (support_of_dimension twice_wide make_quadrature self dim))
    as [e|out] eqn:Eout.
  - unfold requests_on. cbn [flat_map].
    destruct (construct_subelement (cell self) dim); reflexivity.
  - rewrite quadrature_requests_tbind, IH.
    unfold requests_on. cbn [flat_map].
    destruct (construct_subelement (cell self) dim);
      destruct (snd (tmapM _ dims)); cbn [tret fst quadrature_requests flat_map];
      rewrite app_nil_r; reflexivity.
Qed.

(** When the loop returns, it has run every pass and every subelement
    was constructed. *)
Lemma support_loop_returned (self : FiniteElementBase) (dims : list dimkey)
    (outs : list (dimkey * dict Z (list Z))) :
  snd (tmapM (support_of_dimension twice_wide make_quadrature self) dims)
  = inr outs ->
  dimensions_entered twice_wide make_quadrature self dims = dims /\
  Forall (fun dim => exists entity_cell,
            construct_subelement (cell self) dim = inr entity_cell) dims.
Proof.
  revert outs. induction dims as [|dim dims IH]; intros outs.
  - intros _. split; [reflexivity | constructor].
  - cbn [tmapM dimensions_entered]. rewrite snd_tbind.
    destruct (snd (support_of_dimension twice_wide make_quadrature self dim))
      as [e|out] eqn:Eout; cbn [bind]; [discriminate|].
    rewrite snd_tbind.
    destruct (snd (tmapM (support_of_dimension twice_wide make_quadrature self) dims))
      as [e|outs'] eqn:Eouts; cbn [bind]; [discriminate|].
    intros _. destruct (IH outs' eq_refl) as [Hentered Hcells]. split.
    + rewrite Hentered. reflexivity.
    + constructor; [|exact Hcells].
      apply (support_of_dimension_returned self dim out Eout).
Qed.

Lemma requests_on_constructed (self : FiniteElementBase) (dims : list dimkey) :
  Forall (fun dim => exists entity_cell,
            construct_subelement (cell self) dim = inr entity_cell) dims ->
  Forall2 (fun dim request =>
             construct_subelement (cell self) dim = inr (fst request) /\
             snd request = exactly_twice (degree self))
          dims (requests_on self dims).
Proof.
  induction 1 as [|dim dims [c Hc] _ IH]; [constructor|].
  unfold requests_on. cbn [flat_map]. rewrite Hc. cbn [app].
  constructor; [|exact IH]. cbn [fst snd]. auto.
Qed.

(** C6, for the degrees numpy doubles without wrapping (an [int] or a
    tuple of them whose doubles 64-bit integers hold, or a tuple with
    a component beyond 64 bits).  The calls to [make_quadrature] that
    the support computation makes are, in order, exactly one for each
    dimension of [cell.sub_entities] whose pass of the loop it runs and
    whose subelement is constructed: on that subelement, with exactly
    twice the element's degree, component by component for a tuple.
    When it returns, that is one call for every dimension of
    [cell.sub_entities]. *)
Theorem support_quadrature_requests (self : FiniteElementBase) :
  doubled_exactly (degree self) ->
  quadrature_requests
    (fst (_entity_support_dofs twice_wide make_quadrature self)) =
  requests_on self
    (dimensions_entered twice_wide make_quadrature self
       (keys (sub_entities (cell self)))) /\
  (forall table,
     snd (_entity_support_dofs twice_wide make_quadrature self) = inr table ->
     dimensions_entered twice_wide make_quadrature self
       (keys (sub_entities (cell self)))
     = keys (sub_entities (cell self)) /\
     Forall2 (fun dim request =>
                construct_subelement (cell self) dim = inr (fst request) /\
                snd request = exactly_twice (degree self))
             (keys (sub_entities (cell self)))
             (quadrature_requests
                (fst (_entity_support_dofs twice_wide make_quadrature self)))).
Proof.
  intros Hfit.
  assert (Hlog : quadrature_requests
                   (fst (_entity_support_dofs twice_wide make_quadrature self)) =
                 requests_on self
                   (dimensions_entered twice_wide make_quadrature self
                      (keys (sub_entities (cell self))))).
  { unfold _entity_support_dofs. requests_step.
    apply support_loop_requests. exact Hfit. }
  split; [exact Hlog|].
  intros table Hrun. rewrite Hlog. clear Hlog.
  unfold _entity_support_dofs in Hrun. rewrite snd_tbind in Hrun.
  unfold call at 1 in Hrun. cbn [snd bind] in Hrun.
  destruct (support_loop_returned self _ table Hrun) as [Hentered Hcells].
  split; [exact Hentered|]. rewrite Hentered.
  apply requests_on_constructed. exact Hcells.
Qed.
End RequestFacts.

(** ** Facts about the cached properties *)

Lemma dict_get_appended {V : Type} (d : dict string V) (name : string) (v : V) :
  dict_get d name = None -> dict_get (d ++ [(name, v)]) name = Some v.
Proof.
  induction d as [|[k w] d IH]; simpl.
  - rewrite String.eqb_refl. reflexivity.
  - destruct (String.eqb k name); [discriminate | exact IH].
Qed.

(** The first access runs the getter once and stores what it made; the
    second finds it and runs nothing. *)
Lemma cached_property_once (name : string)
    (fget : FiniteElementBase -> traced py_object)
    (self : FiniteElementBase) (w w1 : World) (address : nat) :
  dict_get (instance_dict w) name = None ->
  cached_property name fget self w = (w1, inr address) ->
  cached_property name fget self w1 = (w1, inr address) /\
  probe w1 = probe w ++ fst (fget self) /\
  exists v, snd (fget self) = inr v /\ nth_error (heap w1) address = Some v.
Proof.
  intros Hnew. unfold cached_property at 1. rewrite Hnew.
  destruct (fget self) as [log [e|v]]; intros E; inversion E; subst. clear E.
  repeat split.
  - unfold cached_property. cbn [instance_dict].
    rewrite (dict_get_appended _ _ _ Hnew). reflexivity.
  - exists v. split; [reflexivity|]. cbn [heap].
    rewrite nth_error_app2, Nat.sub_diag; [reflexivity | lia].
Qed.

(** C7. On an instance that has not computed it yet, when the first
    call of [entity_closure_dofs()] returns, the second call returns
    the same object and changes nothing, so that the probe on the
    collaborators has seen the calls of one computation only, those of
    the first call; and the same holds of [entity_support_dofs()]. *)
Theorem cached_dofs_computed_once
    (twice_wide : Degree -> result DegreeArg)
    (make_quadrature : Cell -> DegreeArg -> result QuadratureRule)
    (a : accessor) (self : FiniteElementBase) (w w1 : World) (address : nat) :
  dict_get (instance_dict w) (attribute a) = None ->
  access twice_wide make_quadrature a self w = (w1, inr address) ->
  access twice_wide make_quadrature a self w1 = (w1, inr address) /\
  probe w1 = probe w ++ fst (computation twice_wide make_quadrature a self) /\
  exists object,
    snd (computation twice_wide make_quadrature a self) = inr object /\
    nth_error (heap w1) address = Some object.
Proof.
  intros Hnew Hfirst. destruct a; cbn [access attribute computation] in *.
  - exact (cached_property_once _ _ _ _ _ _ Hnew Hfirst).
  - exact (cached_property_once _ _ _ _ _ _ Hnew Hfirst).
Qed.

(** ** [fiat_equivalent] *)

(** C9. On an element that keeps the accessor of the base class,
    [fiat_equivalent] raises [NotImplementedError] with a message that
    ends in the name of the element's type, and returns no object. *)
Theorem fiat_equivalent_not_implemented (self : FiniteElementBase) :
  fiat_equivalent self =
  inl (NotImplementedError
         ("Cannot make equivalent FIAT element for " ++ type_name self)%string) /\
  forall equivalent, fiat_equivalent self <> inr equivalent.
Proof.
  unfold fiat_equivalent. split; [reflexivity | discriminate].
Qed.

(** ** When the methods return *)

(** [permutations()] returns on a cell that is not a product cell when
    the entities of every dimension hold equally many degrees of
    freedom and, off the vertex dimension, the topology has the
    dimension, with equally many vertices around every entity. *)
Lemma permutations_returns (self : FiniteElementBase) :
  is_tensor_product (cell self) = false ->
  Forall (fun item =>
            (exists n, the_length (values (snd item)) = inr n) /\
            (fst item <> DimInt 0 ->
             exists t m, dict_get (topology (cell self)) (fst item) = Some t /\
                         the_length (values t) = inr m))
         (entity_dofs self) ->
  exists table, permutations self = inr table.
Proof.
  intros Hcell Hall. unfold permutations. rewrite Hcell.
  apply mapM_total. eapply Forall_impl; [|exact Hall].
  intros [dim by_entity] [[n Hn] Htop]. cbn [fst snd] in *.
  unfold permutations_simple. rewrite Hn. cbn [bind].
  destruct (key_eqb dim (DimInt 0)) eqn:E; [eauto|].
  destruct Htop as [t [m [Ht Hm]]].
  - intros ->. rewrite key_eqb_refl in E. discriminate.
  - unfold getitem. rewrite Ht. cbn [bind]. rewrite Hm. cbn [bind]. eauto.
Qed.

Lemma in_remove_indices (mi l : list Index) (i : Index) :
  In i (remove_indices mi l) <-> In i l /\ ~ In i mi.
Proof.
  unfold remove_indices. rewrite filter_In, negb_true_iff.
  split; intros [Hl Hmi]; split; auto.
  - intros Hin. assert (E : existsb (index_eqb i) mi = true).
    { apply existsb_exists. exists i. split; [exact Hin|].
      apply index_eqb_eq. reflexivity. }
    congruence.
  - destruct (existsb (index_eqb i) mi) eqn:E; [|reflexivity].
    exfalso. apply Hmi. apply existsb_exists in E.
    destruct E as [j [Hj E]]. apply index_eqb_eq in E. subst j. exact Hj.
Qed.


(** ** More facts about loops and lookups *)

Lemma mapM_inl {A B : Type} (f : A -> result B) (l : list A) (e : py_error) :
  mapM f l = inl e -> exists x, In x l /\ f x = inl e.
Proof.
  induction l as [|a l IH]; simpl; [discriminate|].
  destruct (f a) as [e'|y] eqn:Ea; cbn [bind].
  - intros E. inversion E; subst. exists a. auto.
  - destruct (mapM f l) as [e'|ys]; cbn [bind]; [|discriminate].
    intros E. inversion E; subst. destruct (IH eq_refl) as [x [Hx Hf]].
    exists x. auto.
Qed.

Lemma Forall2_same_keys {K V W : Type} (d : dict K V) (out : dict K W) :
  Forall2 (fun it o => fst o = fst it) d out -> keys out = keys d.
Proof.
  induction 1 as [|it o d out E _ IH]; simpl; [reflexivity|].
  rewrite E. f_equal. exact IH.
Qed.

Lemma dict_get_same_value {K V : Type} `{Hashable K} (d : dict K V) (k : K)
    (v : V) :
  In k (keys d) -> (forall k' v', In (k', v') d -> v' = v) ->
  dict_get d k = Some v.
Proof.
  intros Hk Hall. induction d as [|[k1 v1] d IH]; simpl in *; [contradiction|].
  destruct (key_eqb k1 k) eqn:E.
  - f_equal. apply (Hall k1). auto.
  - apply IH.
    + destruct Hk as [->|Hk]; [rewrite key_eqb_refl in E; discriminate|exact Hk].
    + intros k' v' Hin. apply (Hall k'). auto.
Qed.

Lemma NoDup_flat_map_disjoint {A B : Type} (f : A -> list B) (l : list A) :
  NoDup l ->
  (forall a, In a l -> NoDup (f a)) ->
  (forall a b x, In a l -> In b l -> In x (f a) -> In x (f b) -> a = b) ->
  NoDup (flat_map f l).
Proof.
  induction l as [|a l IH]; intros Hl Hf Hdis; [constructor|].
  rewrite flat_map_step. inversion Hl as [|? ? Hnot Hl']; subst.
  apply NoDup_app.
  - apply Hf. left. reflexivity.
  - apply IH; auto.
    + intros b Hb. apply Hf. right. exact Hb.
    + intros b c x Hb Hc. apply Hdis; right; assumption.
  - intros x Hx Hx'. apply in_flat_map in Hx'. destruct Hx' as [b [Hb Hxb]].
    apply Hnot. rewrite (Hdis a b x); auto.
    + left. reflexivity.
    + right. exact Hb.
Qed.

(** ** More facts about [permutations] *)

Lemma permutations_product_key (self : FiniteElementBase)
    (item : dimkey * dict Z (list Z)) (out : dimkey * dict orientation (list Z)) :
  permutations_product self item = inr out -> fst out = fst item.
Proof.
  destruct item as [dim by_entity]. unfold permutations_product.
  repeat match goal with
         | |- bind ?r _ = inr _ -> _ =>
             destruct r; cbn [bind]; [discriminate|]
         end.
  intros E. inversion E. reflexivity.
Qed.

(** X1. A returned permutation table holds the dimensions of
    [entity_dofs()], each once and in the same order, on a product cell
    and on any other cell. *)
Theorem permutations_dimensions (self : FiniteElementBase)
    (table : PermutationTable) :
  permutations self = inr table ->
  keys table = keys (entity_dofs self).
Proof.
  unfold permutations. intros Hrun. apply Forall2_same_keys.
  destruct (is_tensor_product (cell self)); apply mapM_inr in Hrun;
    (eapply Forall2_impl; [|exact Hrun]); intros item out E.
  - exact (permutations_product_key _ _ _ E).
  - exact (permutations_simple_key _ _ _ E).
Qed.

Lemma dim_len_two (dim : dimkey) (len : nat) :
  dim_len dim = inr len -> Nat.eqb len 2 = true ->
  exists d0 d1, dim = DimTuple [d0; d1].
Proof.
  destruct dim as [d|ds]; simpl; [discriminate|].
  intros E Hlen. inversion E; subst len. apply Nat.eqb_eq in Hlen.
  destruct ds as [|d0 [|d1 [|d2 ds]]]; try discriminate. eauto.
Qed.

(** X2. On a product cell, a returned table holds at every dimension
    of [entity_dofs()], which is a pair [(d0, d1)], exactly one entry
    for every pair of orientations [(i0, i1)] with
    [i0 < factorial(m0)*2] and [i1 < factorial(m1)*2] and no other
    entry, [m0] and [m1] being the lengths of the entries of the two
    factor cells' topologies at [d0] and [d1]; every value is the
    identity permutation.  The vertex dimension is not set apart. *)
Theorem permutations_product_table (self : FiniteElementBase)
    (table : PermutationTable) (dim : dimkey) (by_entity : dict Z (list Z)) :
  is_tensor_product (cell self) = true ->
  permutations self = inr table ->
  dict_get (entity_dofs self) dim = Some by_entity ->
  exists d0 d1 c0 c1 cones0 cones1 n m0 m1 row,
    dim = DimTuple [d0; d1] /\
    cells_item (cell self) 0 = inr c0 /\
    cells_item (cell self) 1 = inr c1 /\
    dict_get (topology c0) (DimInt d0) = Some cones0 /\
    dict_get (topology c1) (DimInt d1) = Some cones1 /\
    Forall (fun cone => List.length cone = m0) (values cones0) /\
    Forall (fun cone => List.length cone = m1) (values cones1) /\
    Forall (fun dofs => List.length dofs = n) (values by_entity) /\
    dict_get table dim = Some row /\
    (forall i0 i1,
       0 <= i0 < Z.of_nat (fact m0 * 2) ->
       0 <= i1 < Z.of_nat (fact m1 * 2) ->
       exists perm, dict_get row (OrientPair i0 i1) = Some perm /\
                    identity_permutation n perm) /\
    (forall k perm, In (k, perm) row ->
       exists i0 i1, k = OrientPair i0 i1 /\
                     0 <= i0 < Z.of_nat (fact m0 * 2) /\
                     0 <= i1 < Z.of_nat (fact m1 * 2) /\
                     identity_permutation n perm) /\
    NoDup (keys row) /\
    List.length row = (fact m0 * 2 * (fact m1 * 2))%nat.
Proof.
  intros Hcell Hrun Hdim. unfold permutations in Hrun. rewrite Hcell in Hrun.
  apply mapM_inr in Hrun.
  destruct (dict_get_rebuilt
              (fun k v w => permutations_product self (k, v) = inr (k, w))
              (entity_dofs self) table dim by_entity) as [row [Hrow E]];
    [|exact Hdim|].
  { eapply Forall2_impl; [|exact Hrun].
    intros [k v] [k' w] E. pose proof (permutations_product_key _ _ _ E) as Ek.
    simpl in *. subst k'. auto. }
  clear Hrun. unfold permutations_product in E.
  destruct (the_length (values by_entity)) as [e|n] eqn:En; cbn [bind] in E;
    [discriminate|].
  destruct (dim_len dim) as [e|len] eqn:Elen; cbn [bind] in E; [discriminate|].
  destruct (Nat.eqb len 2) eqn:Etwo; cbn [assert bind] in E; [|discriminate].
  destruct (dim_len_two dim len Elen Etwo) as [d0 [d1 ->]].
  destruct (cells_item (cell self) 0) as [e|c0] eqn:Ec0; cbn [bind] in E;
    [discriminate|].
  cbn [dim_item nth_error bind] in E. unfold getitem in E.
  destruct (dict_get (topology c0) (DimInt d0)) as [cones0|] eqn:Et0;
    cbn [bind] in E; [|discriminate].
  destruct (the_length (values cones0)) as [e|m0] eqn:Em0; cbn [bind] in E;
    [discriminate|].
  destruct (cells_item (cell self) 1) as [e|c1] eqn:Ec1; cbn [bind] in E;
    [discriminate|].
  destruct (dict_get (topology c1) (DimInt d1)) as [cones1|] eqn:Et1;
    cbn [bind] in E; [|discriminate].
  destruct (the_length (values cones1)) as [e|m1] eqn:Em1; cbn [bind] in E;
    [discriminate|].
  inversion E; subst row. clear E.
  apply the_length_inr in En, Em0, Em1.
  destruct En as [_ Hn], Em0 as [_ Hm0], Em1 as [_ Hm1].
  set (row := flat_map
                (fun i0 => map (fun i1 => (OrientPair i0 i1, range n))
                               (range (fact m1 * 2)))
                (range (fact m0 * 2))) in *.
  assert (Hin : forall k perm, In (k, perm) row <->
                  exists i0 i1, (k, perm) = (OrientPair i0 i1, range n) /\
                                In i0 (range (fact m0 * 2)) /\
                                In i1 (range (fact m1 * 2))).
  { intros k perm. unfold row. rewrite in_flat_map. split.
    - intros [i0 [H0 H1]]. apply in_map_iff in H1. destruct H1 as [i1 [E H1]].
      exists i0, i1. auto.
    - intros [i0 [i1 [E [H0 H1]]]]. exists i0. split; [exact H0|].
      apply in_map_iff. exists i1. auto. }
  exists d0, d1, c0, c1, cones0, cones1, n, m0, m1, row.
  repeat split; auto.
  - intros i0 i1 H0 H1. exists (range n). split; [|apply range_identity].
    apply dict_get_same_value.
    + unfold keys. change (OrientPair i0 i1) with (fst (OrientPair i0 i1, range n)).
      apply in_map. apply Hin. exists i0, i1.
      rewrite !in_range. auto.
    + intros k' v' Hk. apply Hin in Hk. destruct Hk as [j0 [j1 [E _]]].
      congruence.
  - intros k perm Hk. apply Hin in Hk. destruct Hk as [i0 [i1 [E [H0 H1]]]].
    inversion E; subst. exists i0, i1. rewrite <- !in_range.
    repeat split; auto; apply range_identity.
  - unfold keys, row. rewrite flat_map_concat_map, concat_map, map_map.
    rewrite <- flat_map_concat_map.
    apply NoDup_flat_map_disjoint.
    + apply NoDup_range.
    + intros i0 _. rewrite map_map. cbn [fst].
      apply Finite.Injective_map_NoDup; [|apply NoDup_range].
      intros a b Eab. congruence.
    + intros a b x _ _ Ha Hb. rewrite map_map in Ha, Hb. cbn [fst] in Ha, Hb.
      apply in_map_iff in Ha, Hb. destruct Ha as [i [<- _]], Hb as [j [E _]].
      congruence.
  - unfold row. rewrite flat_map_concat_map.
    assert (Hlen : forall (l : list Z) (c : nat),
               List.length
                 (List.concat
                    (map (fun i0 => map (fun i1 => (OrientPair i0 i1, range n))
                                        (range c)) l))
               = (List.length l * c)%nat).
    { intros l c. induction l as [|a l IH]; [reflexivity|].
      cbn [map List.concat]. rewrite length_app, IH, length_map.
      unfold range. rewrite length_map, length_seq. reflexivity. }
    rewrite Hlen. unfold range. rewrite length_map, length_seq. reflexivity.
Qed.

(** X3. [permutations()] raises when some dimension of [entity_dofs()]
    has no entity at all; on a product cell also when some dimension is
    not a pair; and on any other cell when a dimension other than 0 has
    no entry in [cell.topology]. *)
Theorem permutations_malformed_raises (self : FiniteElementBase)
    (dim : dimkey) (by_entity : dict Z (list Z)) :
  dict_get (entity_dofs self) dim = Some by_entity ->
  by_entity = [] \/
  (is_tensor_product (cell self) = true /\
   forall d0 d1, dim <> DimTuple [d0; d1]) \/
  (is_tensor_product (cell self) = false /\
   dim <> DimInt 0 /\
   dict_get (topology (cell self)) dim = None) ->
  exists err, permutations self = inl err.
Proof.
  intros Hdim Hbad. apply dict_get_In in Hdim. unfold permutations.
  assert (Hbody :
            exists err,
              (if is_tensor_product (cell self)
               then permutations_product self (dim, by_entity)
               else permutations_simple self (dim, by_entity)) = inl err).
  { unfold permutations_product, permutations_simple.
    destruct (the_length (values by_entity)) as [e|n] eqn:En; cbn [bind];
      [destruct (is_tensor_product (cell self)); eauto|].
    destruct Hbad as [->|[[Hcell Hpair]|[Hcell [Hne Htop]]]].
    - discriminate En.
    - rewrite Hcell.
      destruct (dim_len dim) as [e|len] eqn:Elen; cbn [bind]; [eauto|].
      destruct (Nat.eqb len 2) eqn:Etwo; cbn [assert bind]; [|eauto].
      destruct (dim_len_two dim len Elen Etwo) as [d0 [d1 E]].
      exfalso. exact (Hpair d0 d1 E).
    - rewrite Hcell, (key_eqb_neq _ _ Hne). unfold getitem. rewrite Htop.
      cbn [bind]. eauto. }
  destruct Hbody as [err Hbody].
  destruct (is_tensor_product (cell self));
    exact (mapM_raises _ _ (dim, by_entity) err Hdim Hbody).
Qed.
(** ** More facts about the closure degrees of freedom *)

Lemma Forall2_Forall_left {A B : Type} (P : A -> B -> Prop) (l : list A)
    (l' : list B) :
  Forall2 P l l' -> Forall (fun x => exists y, P x y) l.
Proof. induction 1; constructor; eauto. Qed.

Lemma Forall2_Forall_right_in {A B : Type} (P : A -> B -> Prop) (l : list A)
    (l' : list B) (y : B) :
  Forall2 P l l' -> In y l' -> exists x, In x l /\ P x y.
Proof.
  induction 1 as [|a b l l' Hab _ IH]; simpl; [contradiction|].
  intros [<-|Hy].
  - exists a. auto.
  - destruct (IH Hy) as [x [Hx Hp]]. exists x. auto.
Qed.

Lemma dofs_of_inr_iff (entity_dofs : dict dimkey (dict Z (list Z)))
    (p : entity) (l : list Z) :
  dofs_of entity_dofs p = inr l <->
  lookup2 entity_dofs (fst p) (snd p) = Some l.
Proof.
  destruct p as [d se]. unfold dofs_of, lookup2, getitem. simpl.
  destruct (dict_get entity_dofs d) as [row|]; cbn [bind].
  - destruct (dict_get row se); split; congruence.
  - split; discriminate.
Qed.

Lemma dofs_of_error (entity_dofs : dict dimkey (dict Z (list Z)))
    (p : entity) (e : py_error) :
  dofs_of entity_dofs p = inl e -> e = KeyError.
Proof.
  destruct p as [d se]. unfold dofs_of, getitem.
  destruct (dict_get entity_dofs d) as [row|]; cbn [bind].
  - destruct (dict_get row se); congruence.
  - congruence.
Qed.

Lemma closure_table_error (entity_dofs : dict dimkey (dict Z (list Z)))
    (subs : SubEntities) (e : py_error) :
  closure_table entity_dofs subs = inl e -> e = KeyError.
Proof.
  unfold closure_table. intros E. apply mapM_inl in E.
  destruct E as [[dim entities] [_ E]]. unfold closure_row in E.
  destruct (mapM (closure_entry entity_dofs) (items entities)) as [e1|row]
    eqn:Erow; cbn [bind] in E; [|discriminate].
  inversion E; subst e1. clear E. apply mapM_inl in Erow.
  destruct Erow as [[en listed] [_ E]]. unfold closure_entry, closure_of in E.
  destruct (mapM (dofs_of entity_dofs) listed) as [e1|lists] eqn:El;
    cbn [bind] in E; [|discriminate].
  inversion E; subst e1. apply mapM_inl in El. destruct El as [p [_ Hp]].
  exact (dofs_of_error _ _ _ Hp).
Qed.

(** X4. The closure computation returns exactly when every entity
    that [cell.sub_entities] lists has an entry in [entity_dofs()];
    when one has none it raises [KeyError], and it raises nothing
    else. *)
Theorem closure_returns_iff (self : FiniteElementBase) :
  ((exists table, snd (_entity_closure_dofs self) = inr table) <->
   listed_entities_have_dofs self = true) /\
  (forall e, snd (_entity_closure_dofs self) = inl e -> e = KeyError).
Proof.
  rewrite closure_result. split; [split|].
  - intros [table Hrun]. unfold closure_table in Hrun. apply mapM_inr in Hrun.
    apply Forall2_Forall_left in Hrun. rewrite Forall_forall in Hrun.
    unfold listed_entities_have_dofs. apply forallb_forall.
    intros [dim entities] Hdim. destruct (Hrun _ Hdim) as [[dim' row] Hrow].
    unfold closure_row in Hrow.
    destruct (mapM (closure_entry (entity_dofs self)) (items entities))
      as [e|row'] eqn:Erow; cbn [bind] in Hrow; [discriminate|].
    apply mapM_inr, Forall2_Forall_left in Erow. rewrite Forall_forall in Erow.
    cbn [snd]. apply forallb_forall. intros [en listed] Hen.
    destruct (Erow _ Hen) as [[en' dofs] Hdofs].
    unfold closure_entry, closure_of in Hdofs.
    destruct (mapM (dofs_of (entity_dofs self)) listed) as [e|lists] eqn:El;
      cbn [bind] in Hdofs; [discriminate|].
    apply mapM_inr, Forall2_Forall_left in El. rewrite Forall_forall in El.
    cbn [snd]. apply forallb_forall. intros p Hp.
    destruct (El p Hp) as [l Hl]. apply dofs_of_inr_iff in Hl.
    unfold has_dofs. rewrite Hl. reflexivity.
  - apply closure_table_total.
  - apply closure_table_error.
Qed.

(** X5. A returned closure table has the dimensions of
    [cell.sub_entities], in the same order, and at each of them the
    entities that [cell.sub_entities] has there, in the same order:
    whether [entity_dofs()] has an entry for the entity itself plays no
    part. *)
Theorem closure_table_entities (self : FiniteElementBase)
    (table : ClosureDofs) :
  snd (_entity_closure_dofs self) = inr table ->
  keys table = keys (sub_entities (cell self)) /\
  forall dim entities,
    dict_get (sub_entities (cell self)) dim = Some entities ->
    exists row, dict_get table dim = Some row /\ keys row = keys entities.
Proof.
  rewrite closure_result. unfold closure_table. intros Hrun.
  apply mapM_inr in Hrun.
  assert (Hrows : Forall2
                    (fun it o => fst o = fst it /\
                                 keys (snd o) = keys (snd it))
                    (sub_entities (cell self)) table).
  { eapply Forall2_impl; [|exact Hrun].
    intros [dim entities] [dim' row] E. unfold closure_row in E.
    destruct (mapM (closure_entry (entity_dofs self)) (items entities))
      as [e|row'] eqn:Erow; cbn [bind] in E; [discriminate|].
    inversion E; subst dim' row'. split; [reflexivity|]. cbn [snd].
    apply mapM_inr in Erow. apply Forall2_same_keys.
    eapply Forall2_impl; [|exact Erow].
    intros [en listed] [en' dofs] E1. unfold closure_entry in E1.
    destruct (closure_of (entity_dofs self) listed); cbn [bind] in E1;
      [discriminate|].
    inversion E1. reflexivity. }
  split.
  - apply Forall2_same_keys. eapply Forall2_impl; [|exact Hrows].
    intros it o [E _]. exact E.
  - intros dim entities Hdim.
    exact (dict_get_rebuilt (fun _ entities row => keys row = keys entities)
             _ _ dim entities Hrows Hdim).
Qed.

(** X6. In a returned closure table, the entry of an entity holds an
    id exactly when [entity_dofs()] gives that id to one of the
    entities listed for it, and it is as long as their lists taken
    together: an id that two listed entities share, or an entity listed
    twice, is not merged. *)
Theorem closure_dofs_members (self : FiniteElementBase) (table : ClosureDofs)
    (dim : dimkey) (e : Z) (listed : list entity) :
  snd (_entity_closure_dofs self) = inr table ->
  lookup2 (sub_entities (cell self)) dim e = Some listed ->
  exists lists dofs,
    lookup2 table dim e = Some dofs /\
    Forall2 (fun p l => lookup2 (entity_dofs self) (fst p) (snd p) = Some l)
            listed lists /\
    (forall x, In x dofs <->
               exists p l, In p listed /\
                           lookup2 (entity_dofs self) (fst p) (snd p) = Some l /\
                           In x l) /\
    List.length dofs = list_sum (map (@List.length Z) lists).
Proof.
  intros Hrun Hlisted.
  destruct (closure_entry_spec self table dim e listed Hrun Hlisted)
    as [lists [dofs [Hd [Hf [Hperm _]]]]].
  exists lists, dofs. repeat split; auto.
  - intros Hx. apply (closure_members _ _ _ _ Hf).
    exact (Permutation_in _ Hperm Hx).
  - intros Hx. apply (Permutation_in _ (Permutation_sym Hperm)).
    apply (closure_members _ _ _ _ Hf). exact Hx.
  - rewrite (Permutation_length Hperm). clear.
    induction lists as [|l lists IH]; [reflexivity|].
    cbn [List.concat map list_sum]. rewrite length_app, IH. reflexivity.
Qed.

Lemma sorted_unique (l1 l2 : list Z) :
  StronglySorted Z.le l1 -> StronglySorted Z.le l2 -> Permutation l1 l2 ->
  l1 = l2.
Proof.
  intros H1. revert l2. induction H1 as [|a l1 H1 IH Ha]; intros l2 H2 Hp.
  - apply Permutation_nil in Hp. symmetry. exact Hp.
  - destruct H2 as [|b l2 H2 Hb].
    + apply Permutation_sym, Permutation_nil in Hp. discriminate.
    + assert (Eab : a = b).
      { assert (Hab : In a (b :: l2))
          by (apply (Permutation_in _ Hp); left; reflexivity).
        assert (Hba : In b (a :: l1))
          by (apply (Permutation_in _ (Permutation_sym Hp)); left; reflexivity).
        rewrite Forall_forall in Ha, Hb.
        destruct Hab as [->|Hab]; [reflexivity|].
        destruct Hba as [->|Hba]; [reflexivity|].
        specialize (Ha b Hba). specialize (Hb a Hab). lia. }
      subst b. f_equal. apply IH; [exact H2|].
      exact (Permutation_cons_inv Hp).
Qed.

Lemma mapM_permuted {A B : Type} (f : A -> result B) (l l' : list A)
    (ys : list B) :
  Permutation l l' -> mapM f l = inr ys ->
  exists ys', mapM f l' = inr ys' /\ Permutation ys ys'.
Proof.
  intros Hp. revert ys.
  induction Hp as [|x l l' Hp IH|x y l|l l' l'' Hp1 IH1 Hp2 IH2]; intros ys.
  - simpl. intros E. inversion E. exists []. auto.
  - simpl. destruct (f x) as [e|b]; cbn [bind]; [discriminate|].
    destruct (mapM f l) as [e|bs]; cbn [bind]; [discriminate|].
    intros E. inversion E; subst ys.
    destruct (IH bs eq_refl) as [bs' [-> Hbs]]. cbn [bind].
    exists (b :: bs'). auto.
  - simpl. destruct (f y) as [e|b]; cbn [bind]; [discriminate|].
    destruct (f x) as [e|a]; cbn [bind]; [discriminate|].
    destruct (mapM f l) as [e|bs]; cbn [bind]; [discriminate|].
    intros E. inversion E; subst ys. exists (a :: b :: bs).
    split; [reflexivity | apply perm_swap].
  - intros E. destruct (IH1 ys E) as [ys1 [E1 Hp1']].
    destruct (IH2 ys1 E1) as [ys2 [E2 Hp2']].
    exists ys2. split; [exact E2|]. eapply Permutation_trans; eassumption.
Qed.

Lemma Permutation_concat_lists {A : Type} (ls ls' : list (list A)) :
  Permutation ls ls' -> Permutation (List.concat ls) (List.concat ls').
Proof.
  induction 1 as [|l ls ls' _ IH|l1 l2 ls|ls ls' ls'' _ IH1 _ IH2];
    cbn [List.concat].
  - constructor.
  - apply Permutation_app_head. exact IH.
  - rewrite !app_assoc. apply Permutation_app_tail. apply Permutation_app_comm.
  - eapply Permutation_trans; eassumption.
Qed.

(** X7. The closure entry of an entity does not depend on the order
    in which [cell.sub_entities] lists its sub-entities: for the same
    entities in another order, the comprehension gives the same
    sorted list. *)
Theorem closure_of_order_independent
    (entity_dofs : dict dimkey (dict Z (list Z)))
    (listed listed' : list entity) (dofs : list Z) :
  Permutation listed listed' ->
  closure_of entity_dofs listed = inr dofs ->
  closure_of entity_dofs listed' = inr dofs.
Proof.
  unfold closure_of. intros Hp E.
  destruct (mapM (dofs_of entity_dofs) listed) as [e|lists] eqn:El;
    cbn [bind] in E; [discriminate|].
  inversion E; subst dofs. clear E.
  destruct (mapM_permuted _ _ _ _ Hp El) as [lists' [-> Hl]]. cbn [bind].
  f_equal. apply sorted_unique; try apply sorted_ascending.
  eapply Permutation_trans; [apply sorted_permutation|].
  eapply Permutation_trans;
    [apply Permutation_concat_lists, Permutation_sym; exact Hl|].
  apply Permutation_sym, sorted_permutation.
Qed.
(** ** More facts about floating-point numbers *)

Lemma SFcompare_antisym (a b : SpecFloat.spec_float) (c : comparison) :
  SpecFloat.SFcompare a b = Some c ->
  SpecFloat.SFcompare b a = Some (CompOpp c).
Proof.
  destruct a as [sa|sa| |sa ma ea], b as [sb|sb| |sb mb eb]; simpl;
    try discriminate;
    try (destruct sa; intros E; inversion E; reflexivity);
    try (destruct sb; intros E; inversion E; reflexivity);
    try (destruct sa, sb; intros E; inversion E; reflexivity).
  destruct sa, sb; intros E; inversion E; try reflexivity; f_equal;
    rewrite (Z.compare_antisym ea eb);
    destruct (ea ?= eb)%Z; try reflexivity; cbn [CompOpp];
    rewrite !Pos.compare_cont_spec; cbn [Pos.switch_Eq];
    rewrite (Pos.compare_antisym ma mb);
    destruct (ma ?= mb)%positive; reflexivity.
Qed.

Lemma float_leb_not_ltb (x y : float) :
  PrimFloat.leb x y = true -> PrimFloat.ltb y x = false.
Proof.
  rewrite leb_spec, ltb_spec. unfold SpecFloat.SFleb, SpecFloat.SFltb.
  destruct (SpecFloat.SFcompare (Prim2SF y) (Prim2SF x)) as [c|] eqn:E;
    [|reflexivity].
  rewrite (SFcompare_antisym _ _ _ E).
  destruct c; simpl; congruence.
Qed.

Lemma float_nan_not_above (x : float) : PrimFloat.ltb x nan = false.
Proof.
  rewrite ltb_spec. unfold SpecFloat.SFltb.
  replace (Prim2SF nan) with SpecFloat.S754_nan by reflexivity.
  destruct (Prim2SF x); reflexivity.
Qed.

(** ** More facts about the support degrees of freedom *)

Lemma positions_count (shape : list nat) :
  List.length (positions shape) = size_of shape.
Proof.
  induction shape as [|n shape IH]; [reflexivity|].
  cbn [positions size_of fold_right]. fold (size_of shape).
  rewrite <- IH. generalize 0%nat as s.
  induction n as [|n IHn]; intros s; [reflexivity|].
  cbn [seq flat_map]. rewrite length_app, length_map, IHn. reflexivity.
Qed.

Lemma StronglySorted_lt_NoDup (l : list Z) : StronglySorted Z.lt l -> NoDup l.
Proof.
  induction 1 as [|a l _ IH Ha]; constructor; [|exact IH].
  intros Hin. rewrite Forall_forall in Ha. specialize (Ha a Hin). lia.
Qed.

Lemma dofs_above_eps_bounded (ints : list float) (k : Z) :
  In k (dofs_above_eps ints) -> 0 <= k < Z.of_nat (List.length ints).
Proof.
  intros Hk. apply dofs_above_eps_In in Hk. destruct Hk as [i [H0 [Hn _]]].
  assert (Hlt : (Z.to_nat k < List.length ints)%nat)
    by (apply nth_error_Some; congruence).
  lia.
Qed.

Lemma dofs_above_eps_length (ints : list float) :
  (List.length (dofs_above_eps ints) <= List.length ints)%nat.
Proof.
  unfold dofs_above_eps, enumerate. rewrite length_map.
  eapply Nat.le_trans; [apply filter_length_le|].
  rewrite length_combine, length_seq. lia.
Qed.

(** X10. The threshold leaves out every basis function whose integral
    is not above 1e-8 in the order of the floating-point numbers: one
    that is at most 1e-8 (zero or negative among them) and one that is
    not a number. *)
Theorem dofs_above_eps_leaves_out (ints : list float) (dof : nat) (i : float) :
  nth_error ints dof = Some i ->
  PrimFloat.leb i eps = true \/ i = nan ->
  ~ In (Z.of_nat dof) (dofs_above_eps ints).
Proof.
  intros Hn Hi Hin. apply dofs_above_eps_In in Hin.
  destruct Hin as [i' [_ [Hn' Habove]]]. rewrite Nat2Z.id, Hn in Hn'.
  inversion Hn'; subst i'. destruct Hi as [Hle| ->].
  - rewrite (float_leb_not_ltb _ _ Hle) in Habove. discriminate.
  - rewrite float_nan_not_above in Habove. discriminate.
Qed.

Lemma Forall2_keyed_keys {K W : Type} (l : list K) (out : dict K W) :
  Forall2 (fun x o => fst o = x) l out -> keys out = l.
Proof.
  induction 1 as [|x o l out E _ IH]; simpl; [reflexivity|].
  rewrite E. f_equal. exact IH.
Qed.

Lemma dict_get_key {K V : Type} `{Hashable K} (d : dict K V) (k : K) (v : V) :
  dict_get d k = Some v -> In k (keys d).
Proof.
  intros E. apply dict_get_In in E. unfold keys.
  change k with (fst (k, v)). apply in_map. exact E.
Qed.

Section MoreSupportFacts.
Variable twice_wide : Degree -> result DegreeArg.
Variable make_quadrature : Cell -> DegreeArg -> result QuadratureRule.

(** What a returned support computation did on each dimension. *)
Lemma support_rows (self : FiniteElementBase) (table : SupportDofs) :
snd (_entity_support_dofs twice_wide make_quadrature self) = inr table ->
Forall2 (fun dim o =>
           fst o = dim /\
           exists quad by_entity,
             rule_for twice_wide make_quadrature self dim = Some quad /\
             dict_get (entity_dofs self) dim = Some by_entity /\
             Forall2 (fun f o' =>
                        snd (support_of_entity self (get_indices self)
                               (get_value_indices self) quad dim f)
                        = inr o')
                     (keys by_entity) (snd o))
        (keys (sub_entities (cell self))) table.
Proof.
intros Hrun. unfold _entity_support_dofs in Hrun. rewrite snd_tbind in Hrun.
unfold call at 1 in Hrun. cbn [snd bind] in Hrun.
assert (Hloop : mapM (fun d => snd (support_of_dimension twice_wide make_quadrature self d))
                     (keys (sub_entities (cell self))) = inr table)
  by (rewrite <- snd_tmapM; exact Hrun).
apply mapM_inr in Hloop. eapply Forall2_impl; [|exact Hloop].
intros dim o E.
destruct (support_of_dimension_inr twice_wide make_quadrature self dim o E)
  as [entity_cell [deg [quad [by_entity [Hc [Hdeg [Hq [Hrow [Ek Hents]]]]]]]]].
split; [exact Ek|]. exists quad, by_entity. repeat split; auto.
unfold rule_for. rewrite Hc, Hdeg, Hq. reflexivity.
Qed.

Lemma support_table_dimensions (self : FiniteElementBase)
  (table : SupportDofs) :
snd (_entity_support_dofs twice_wide make_quadrature self) = inr table ->
keys table = keys (sub_entities (cell self)).
Proof.
intros Hrun. pose proof (support_rows self table Hrun) as Hrows.
apply Forall2_keyed_keys. eapply Forall2_impl; [|exact Hrows].
intros dim o [E _]. exact E.
Qed.

(** X8. A returned support table has the dimensions of
  [cell.sub_entities], in the same order, and at each of them the
  entities that [entity_dofs()] has there, in the same order; every
  such dimension has an entry in [entity_dofs()]. *)
Theorem support_table_entities (self : FiniteElementBase)
  (table : SupportDofs) :
snd (_entity_support_dofs twice_wide make_quadrature self) = inr table ->
keys table = keys (sub_entities (cell self)) /\
forall dim, In dim (keys (sub_entities (cell self))) ->
  exists by_entity row,
    dict_get (entity_dofs self) dim = Some by_entity /\
    dict_get table dim = Some row /\
    keys row = keys by_entity.
Proof.
intros Hrun. pose proof (support_rows self table Hrun) as Hrows. split.
- exact (support_table_dimensions self table Hrun).
- intros dim Hdim.
  destruct (dict_get_keyed
              (fun d (row : dict Z (list Z)) =>
                 exists by_entity,
                   dict_get (entity_dofs self) d = Some by_entity /\
                   keys row = keys by_entity)
              (keys (sub_entities (cell self))) table dim)
    as [row [Hrow [by_entity [Hed Hkeys]]]]; [|exact Hdim|eauto].
  eapply Forall2_impl; [|exact Hrows].
  intros d o [E [quad [by_entity [_ [Hed Hents]]]]].
  split; [exact E|]. exists by_entity. split; [exact Hed|].
  apply Forall2_keyed_keys. eapply Forall2_impl; [|exact Hents].
  intros f o' E'.
  destruct (support_of_entity_inr self quad d f o' E')
    as [_ [_ [_ [_ [Ef _]]]]]. exact Ef.
Qed.

(** Every entry of a returned support table is the outcome of the
  threshold on a list with one number per basis function. *)
Lemma support_entry_thresholded (self : FiniteElementBase)
  (table : SupportDofs) (dim : dimkey) (e : Z) (dofs : list Z) :
snd (_entity_support_dofs twice_wide make_quadrature self) = inr table ->
lookup2 table dim e = Some dofs ->
exists ints,
  List.length ints = size_of (index_shape self) /\
  dofs = dofs_above_eps ints.
Proof.
intros Hrun Hdofs. pose proof (support_rows self table Hrun) as Hrows.
unfold lookup2 in Hdofs.
destruct (dict_get table dim) as [row|] eqn:Hrow; [|discriminate].
assert (Hentry :
          forall e dofs, dict_get row e = Some dofs ->
            exists ints, List.length ints = size_of (index_shape self) /\
                         dofs = dofs_above_eps ints).
{ clear e dofs Hdofs. apply dict_get_In in Hrow.
  apply (Forall2_Forall_right_in _ _ _ _ Hrows) in Hrow.
  destruct Hrow as [d [_ [_ [quad [by_entity [_ [_ Hents]]]]]]].
  cbn [snd] in Hents. intros e dofs He. apply dict_get_In in He.
  apply (Forall2_Forall_right_in _ _ _ _ Hents) in He.
  destruct He as [f [_ E]].
  destruct (support_of_entity_inr self quad d f _ E)
    as [tab [vals [_ [_ [_ Eo]]]]].
  cbn [snd] in Eo. subst dofs. eexists. split; [|reflexivity].
  rewrite length_map. apply positions_count. }
exact (Hentry e dofs Hdofs).
Qed.

(** X9. Every entry of a returned support table holds ids of basis
  functions only, from 0 up to the number of basis functions, the
  product of [index_shape], and holds none twice. *)
Theorem support_dofs_in_range (self : FiniteElementBase) (table : SupportDofs)
  (dim : dimkey) (e : Z) (dofs : list Z) :
snd (_entity_support_dofs twice_wide make_quadrature self) = inr table ->
lookup2 table dim e = Some dofs ->
(forall k, In k dofs -> 0 <= k < Z.of_nat (size_of (index_shape self))) /\
NoDup dofs /\
(List.length dofs <= size_of (index_shape self))%nat.
Proof.
intros Hrun Hdofs.
destruct (support_entry_thresholded self table dim e dofs Hrun Hdofs)
  as [ints [Hlen ->]].
split; [|split].
- intros k Hk. apply dofs_above_eps_bounded in Hk. lia.
- apply StronglySorted_lt_NoDup, dofs_above_eps_ascending.
- rewrite <- Hlen. apply dofs_above_eps_length.
Qed.
End MoreSupportFacts.
(** ** How the support computation fails *)

Lemma tmapM_raises {A B : Type} (f : A -> traced B) (l : list A) (x : A)
    (e : py_error) :
  In x l -> snd (f x) = inl e -> exists e', snd (tmapM f l) = inl e'.
Proof.
  intros Hx He. rewrite snd_tmapM.
  exact (mapM_raises (fun a => snd (f a)) l x e Hx He).
Qed.

Lemma in_union_indices_left (l1 l2 : list Index) (i : Index) :
  In i l1 -> In i (union_indices l1 l2).
Proof. intros Hi. unfold union_indices. apply in_or_app. left. exact Hi. Qed.

Lemma in_union_indices_right (l1 l2 : list Index) (i : Index) :
  In i l2 -> In i (union_indices l1 l2).
Proof.
  intros Hi. unfold union_indices, remove_indices. apply in_or_app.
  destruct (existsb (index_eqb i) l1) eqn:E.
  - left. apply existsb_exists in E. destruct E as [j [Hj E]].
    apply index_eqb_eq in E. subst j. exact Hj.
  - right. apply filter_In. rewrite E. auto.
Qed.

Lemma external_injective (i j : ExternalIndex) : external i = external j -> i = j.
Proof. destruct i, j. unfold external. simpl. congruence. Qed.

(** A free index of the tabulation or of the weights that the point
    set does not have stays free in the component tensor of the loop. *)
Lemma squared_basis_integral_open (self : FiniteElementBase)
    (vals : Tabulation) (quad : QuadratureRule) (i : ExternalIndex) :
  In i (tab_free vals ++ tab_free (weight_expression quad)) ->
  ~ In i (indices (point_set quad)) ->
  In (external i)
     (free_indices
        (ComponentTensor
           (squared_basis_integral vals (get_indices self)
              (get_value_indices self) quad)
           (get_indices self))).
Proof.
  intros Hi Hout. unfold squared_basis_integral. cbn [free_indices].
  assert (Hbeta : ~ In (external i) (get_indices self)).
  { intros Hin. apply (in_map index_name_of) in Hin.
    exact (basis_names_not_external self _ Hin). }
  assert (Hzeta : ~ In (external i) (get_value_indices self)).
  { intros Hin. apply (in_map index_name_of) in Hin.
    exact (value_names_not_external self _ Hin). }
  assert (Hpts : ~ In (external i) (map external (indices (point_set quad)))).
  { intros Hin. apply in_map_iff in Hin. destruct Hin as [j [E Hj]].
    apply external_injective in E. subst j. exact (Hout Hj). }
  apply in_remove_indices. split; [|exact Hbeta].
  apply in_remove_indices. split; [|exact Hpts].
  apply in_app_or in Hi. destruct Hi as [Hi|Hi].
  - apply in_union_indices_left. apply in_remove_indices. split; [|exact Hzeta].
    apply in_union_indices_left, in_union_indices_left.
    apply in_map. exact Hi.
  - apply in_union_indices_right. apply in_map. exact Hi.
Qed.

Section Failures.
Variable twice_wide : Degree -> result DegreeArg.
Variable make_quadrature : Cell -> DegreeArg -> result QuadratureRule.

Lemma support_of_entity_fails (self : FiniteElementBase)
  (quad : QuadratureRule) (dim : dimkey) (f : Z) (err : py_error) :
tabulation_failure self quad dim f err ->
snd (support_of_entity self (get_indices self) (get_value_indices self)
       quad dim f) = inl err.
Proof.
intros Hfail. unfold support_of_entity.
rewrite snd_tbind. unfold call at 1. cbn [snd].
destruct Hfail as [Hraise|[tab [Htab Hfail]]].
- rewrite Hraise. reflexivity.
- rewrite Htab. cbn [bind]. rewrite snd_tbind. unfold lift at 1. cbn [snd].
  destruct Hfail as [[Hlen ->]|[vals [i [Hvals [Hi [Hout ->]]]]]].
  + unfold unpack1. destruct (values tab) as [|v [|v' r]];
      try reflexivity. exfalso. apply Hlen. reflexivity.
  + rewrite Hvals. cbn [unpack1 bind].
    rewrite snd_tbind. unfold call at 1. cbn [snd bind evaluate map].
    rewrite snd_tbind. unfold lift at 1. cbn [snd unpack1 bind].
    rewrite snd_tbind. unfold lift at 1. cbn [snd].
    unfold evaluate_one at 1. cbn [fids].
    pose proof (squared_basis_integral_open self vals quad i Hi Hout) as Hfree.
    destruct (free_indices _) as [|j rest]; [destruct Hfree|].
    reflexivity.
Qed.

Lemma rule_for_Some (self : FiniteElementBase) (dim : dimkey)
  (quad : QuadratureRule) :
rule_for twice_wide make_quadrature self dim = Some quad ->
exists entity_cell deg,
  construct_subelement (cell self) dim = inr entity_cell /\
  twice_degree twice_wide (degree self) = inr deg /\
  make_quadrature entity_cell deg = inr quad.
Proof.
unfold rule_for.
destruct (construct_subelement (cell self) dim) as [e|c]; [discriminate|].
destruct (twice_degree twice_wide (degree self)) as [e|deg]; [discriminate|].
destruct (make_quadrature c deg) as [e|q] eqn:Eq; [discriminate|].
intros E. inversion E; subst q. eauto.
Qed.

Lemma support_raises_at (self : FiniteElementBase) (dim : dimkey)
  (err : py_error) :
In dim (keys (sub_entities (cell self))) ->
snd (support_of_dimension twice_wide make_quadrature self dim) = inl err ->
exists err', snd (_entity_support_dofs twice_wide make_quadrature self) = inl err'.
Proof.
intros Hdim Hbody. unfold _entity_support_dofs. rewrite snd_tbind.
unfold call at 1. cbn [snd bind].
exact (tmapM_raises _ _ dim err Hdim Hbody).
Qed.

(** X11. The support computation raises when [cell.sub_entities] has
  a dimension for which [entity_dofs()] has no entry. *)
Theorem support_missing_dimension_raises (self : FiniteElementBase)
  (dim : dimkey) :
In dim (keys (sub_entities (cell self))) ->
dict_get (entity_dofs self) dim = None ->
exists err, snd (_entity_support_dofs twice_wide make_quadrature self) = inl err.
Proof.
intros Hdim Hnone.
assert (Hbody : exists err,
           snd (support_of_dimension twice_wide make_quadrature self dim) = inl err).
{ unfold support_of_dimension. rewrite snd_tbind. unfold call at 1. cbn [snd].
  destruct (construct_subelement (cell self) dim) as [e|c]; cbn [bind];
    [eauto|].
  rewrite snd_tbind. unfold lift at 1. cbn [snd].
  destruct (twice_degree twice_wide (degree self)) as [e|deg];
    cbn [bind]; [eauto|].
  rewrite snd_tbind. unfold call at 1. cbn [snd].
  destruct (make_quadrature c deg) as [e|q]; cbn [bind]; [eauto|].
  rewrite snd_tbind. unfold call at 1. cbn [snd bind].
  rewrite snd_tbind. unfold lift at 1, getitem. cbn [snd]. rewrite Hnone.
  cbn [bind]. eauto. }
destruct Hbody as [err Hbody]. exact (support_raises_at self dim err Hdim Hbody).
Qed.

(** X12. On an entity that the support computation visits, a failure
  of the tabulation ends the pass on that entity with its exception:
  the one [basis_evaluation] raised, unchanged; [ValueError] when
  [basis_evaluation] returned a [dict] that does not hold exactly one
  expression; [AssertionError] when the expression or the weights
  have a free index outside the point set.  The method then raises
  and returns no table. *)
Theorem support_tabulation_failure_raises (self : FiniteElementBase)
  (dim : dimkey) (quad : QuadratureRule) (by_entity : dict Z (list Z))
  (f : Z) (err : py_error) :
In dim (keys (sub_entities (cell self))) ->
rule_for twice_wide make_quadrature self dim = Some quad ->
dict_get (entity_dofs self) dim = Some by_entity ->
In f (keys by_entity) ->
tabulation_failure self quad dim f err ->
snd (support_of_entity self (get_indices self) (get_value_indices self)
       quad dim f) = inl err /\
exists err', snd (_entity_support_dofs twice_wide make_quadrature self) = inl err'.
Proof.
intros Hdim Hrule Hrow Hf Hfail.
pose proof (support_of_entity_fails self quad dim f err Hfail) as Hbody.
split; [exact Hbody|].
destruct (rule_for_Some self dim quad Hrule) as [c [deg [Hc [Hdeg Hq]]]].
destruct (tmapM_raises
            (support_of_entity self (get_indices self)
               (get_value_indices self) quad dim)
            (keys by_entity) f err Hf Hbody) as [err1 Hloop].
apply (support_raises_at self dim err1 Hdim).
unfold support_of_dimension. rewrite snd_tbind. unfold call at 1. cbn [snd].
rewrite Hc. cbn [bind]. rewrite snd_tbind. unfold lift at 1. cbn [snd].
rewrite Hdeg. cbn [bind]. rewrite snd_tbind. unfold call at 1. cbn [snd].
rewrite Hq. cbn [bind]. rewrite snd_tbind. unfold call at 1. cbn [snd bind].
rewrite snd_tbind. unfold lift at 1, getitem. cbn [snd]. rewrite Hrow.
cbn [bind]. rewrite snd_tbind, Hloop. reflexivity.
Qed.
End Failures.
(** ** What the support computation asks of [basis_evaluation] *)

Lemma picked_tbind {A B X : Type} (pick : event -> list X)
    (m : traced A) (k : A -> traced B) :
  flat_map pick (fst (tbind m k)) =
  flat_map pick (fst m) ++
  match snd m with
  | inl _ => []
  | inr a => flat_map pick (fst (k a))
  end.
Proof.
  rewrite fst_tbind, flat_map_app. destruct (snd m); reflexivity.
Qed.

Lemma picked_tmapM_returned {A B X : Type} (pick : event -> list X)
    (f : A -> traced B) (l : list A) (ys : list B) :
  snd (tmapM f l) = inr ys ->
  flat_map pick (fst (tmapM f l)) =
  flat_map (fun x => flat_map pick (fst (f x))) l.
Proof.
  revert ys. induction l as [|x l IH]; intros ys; [reflexivity|].
  cbn [tmapM]. rewrite snd_tbind, picked_tbind, flat_map_step.
  destruct (snd (f x)) as [e|y]; cbn [bind]; [discriminate|].
  rewrite snd_tbind, picked_tbind.
  destruct (snd (tmapM f l)) as [e|ys'] eqn:El; cbn [bind]; [discriminate|].
  intros _. rewrite (IH ys' eq_refl). cbn [tret fst flat_map].
  rewrite app_nil_r. reflexivity.
Qed.

Ltac picked_step :=
  rewrite picked_tbind; unfold call, lift;
  cbn [fst snd basis_evaluation_requests flat_map app].

Section BasisRequests.
Variable twice_wide : Degree -> result DegreeArg.
Variable make_quadrature : Cell -> DegreeArg -> result QuadratureRule.

Lemma support_of_entity_asks (self : FiniteElementBase)
  (beta zeta : list Index) (quad : QuadratureRule) (dim : dimkey) (f : Z) :
basis_evaluation_requests
  (fst (support_of_entity self beta zeta quad dim f))
= [(0, point_set quad, Some (dim, f))].
Proof.
unfold support_of_entity, basis_evaluation_requests. picked_step.
destruct (basis_evaluation self 0 (point_set quad) (Some (dim, f)))
  as [err|tab]; [reflexivity|].
picked_step. destruct (unpack1 (values tab)); [reflexivity|].
picked_step. picked_step.
destruct (unpack1 _); [reflexivity|].
picked_step. destruct (assert _); reflexivity.
Qed.

Lemma support_of_dimension_asks (self : FiniteElementBase) (dim : dimkey)
  (out : dimkey * dict Z (list Z)) :
snd (support_of_dimension twice_wide make_quadrature self dim) = inr out ->
exists quad by_entity,
  rule_for twice_wide make_quadrature self dim = Some quad /\
  dict_get (entity_dofs self) dim = Some by_entity /\
  basis_evaluation_requests
    (fst (support_of_dimension twice_wide make_quadrature self dim))
  = map (fun f => (0, point_set quad, Some (dim, f))) (keys by_entity).
Proof.
unfold support_of_dimension, rule_for. rewrite snd_tbind.
unfold basis_evaluation_requests. picked_step.
destruct (construct_subelement (cell self) dim) as [e|c]; cbn [bind];
  [discriminate|].
rewrite snd_tbind. picked_step.
destruct (twice_degree twice_wide (degree self)) as [e|deg];
  cbn [bind]; [discriminate|].
rewrite snd_tbind. picked_step.
destruct (make_quadrature c deg) as [e|quad];
  cbn [bind]; [discriminate|].
rewrite snd_tbind. picked_step. cbn [bind]. rewrite snd_tbind. picked_step.
unfold getitem.
destruct (dict_get (entity_dofs self) dim) as [by_entity|]; cbn [bind];
  [|discriminate].
rewrite snd_tbind. picked_step.
destruct (snd (tmapM _ (keys by_entity))) as [e|rows] eqn:Erows; cbn [bind];
  [discriminate|].
intros _. exists quad, by_entity. repeat split.
cbn [tret fst flat_map]. rewrite app_nil_r.
rewrite (picked_tmapM_returned _ _ _ rows Erows). clear Erows.
induction (keys by_entity) as [|f fs IH]; [reflexivity|].
rewrite flat_map_step, IH.
pose proof (support_of_entity_asks self (get_indices self)
              (get_value_indices self) quad dim f) as E.
unfold basis_evaluation_requests in E. rewrite E. reflexivity.
Qed.

(** X13. A returning support computation calls [basis_evaluation]
  once for every entity of [entity_dofs()] at every dimension of
  [cell.sub_entities], in the order of the two loops, each time for
  order 0, on the point set of the rule made for that dimension, and
  for that entity; it makes no other call to it. *)
Theorem support_basis_evaluation_requests (self : FiniteElementBase)
  (table : SupportDofs) :
snd (_entity_support_dofs twice_wide make_quadrature self) = inr table ->
basis_evaluation_requests (fst (_entity_support_dofs twice_wide make_quadrature self))
= flat_map
    (fun dim =>
       match rule_for twice_wide make_quadrature self dim,
             dict_get (entity_dofs self) dim with
       | Some quad, Some by_entity =>
           map (fun f => (0, point_set quad, Some (dim, f))) (keys by_entity)
       | _, _ => []
       end)
    (keys (sub_entities (cell self))).
Proof.
unfold _entity_support_dofs. rewrite snd_tbind.
unfold basis_evaluation_requests at 1. picked_step. cbn [bind].
intros Hrun.
rewrite (picked_tmapM_returned _ _ _ table Hrun).
assert (Hloop : mapM (fun d => snd (support_of_dimension twice_wide make_quadrature self d))
                     (keys (sub_entities (cell self))) = inr table)
  by (rewrite <- snd_tmapM; exact Hrun).
apply mapM_inr, Forall2_Forall_left in Hloop. clear Hrun.
induction Hloop as [|dim dims [out Hout] _ IH]; [reflexivity|].
rewrite !flat_map_step, IH. f_equal.
destruct (support_of_dimension_asks self dim out Hout)
  as [quad [by_entity [-> [-> E]]]].
exact E.
Qed.
End BasisRequests.

(** ** The module-level function and the index factories *)

Lemma getitem_inr_iff {K V : Type} `{Hashable K} (d : dict K V) (k : K) :
  (exists v, getitem d k = inr v) <-> In k (keys d).
Proof.
  unfold getitem. split.
  - intros [v E]. destruct (dict_get d k) as [v'|] eqn:Ed; [|discriminate].
    exact (dict_get_key _ _ _ Ed).
  - intros Hk. induction d as [|[k1 v1] d IH]; simpl in *; [contradiction|].
    destruct (key_eqb k1 k) eqn:E; [eauto|].
    apply IH. destruct Hk as [->|Hk]; [|exact Hk].
    rewrite key_eqb_refl in E. discriminate.
Qed.

Lemma getitem_KeyError {K V : Type} `{Hashable K} (d : dict K V) (k : K) :
  ~ In k (keys d) -> getitem d k = inl KeyError.
Proof.
  intros Hk. unfold getitem. destruct (dict_get d k) as [v|] eqn:E;
    [|reflexivity].
  exfalso. exact (Hk (dict_get_key _ _ _ E)).
Qed.

(** X14. On an instance that has not computed its support table yet,
    when the method [entity_support_dofs()] returns, the module-level
    [entity_support_dofs(elem, entity_dim)] returns the entry of the
    computed table for every dimension of [cell.sub_entities] and
    raises [KeyError] for any other; and asking for one dimension after
    another runs the computation once: the later calls change
    nothing. *)
Theorem module_entity_support_dofs
    (twice_wide : Degree -> result DegreeArg)
    (make_quadrature : Cell -> DegreeArg -> result QuadratureRule)
    (elem : FiniteElementBase) (w w1 : World) (address : nat) :
  dict_get (instance_dict w) "_entity_support_dofs"%string = None ->
  entity_support_dofs twice_wide make_quadrature elem w = (w1, inr address) ->
  exists table,
    snd (_entity_support_dofs twice_wide make_quadrature elem) = inr table /\
    probe w1 = probe w ++ fst (_entity_support_dofs twice_wide make_quadrature elem) /\
    forall entity_dim,
      Toplevel.entity_support_dofs twice_wide make_quadrature elem entity_dim w
      = (w1, getitem table entity_dim) /\
      Toplevel.entity_support_dofs twice_wide make_quadrature elem entity_dim w1
      = (w1, getitem table entity_dim) /\
      (In entity_dim (keys (sub_entities (cell elem))) ->
       exists row, getitem table entity_dim = inr row) /\
      (~ In entity_dim (keys (sub_entities (cell elem))) ->
       getitem table entity_dim = inl KeyError).
Proof.
  intros Hnew Hfirst.
  destruct (cached_property_once _ _ _ _ _ _ Hnew Hfirst)
    as [Hsecond [Hprobe [object [Hobject Hheap]]]].
  unfold boxed in Hobject, Hprobe. cbn [fst snd] in Hobject, Hprobe.
  destruct (snd (_entity_support_dofs twice_wide make_quadrature elem)) as [e|table]
    eqn:Htable; [discriminate|].
  inversion Hobject; subst object. exists table.
  split; [reflexivity|]. split; [exact Hprobe|].
  pose proof (support_table_dimensions twice_wide make_quadrature elem table Htable)
    as Hkeys.
  intros entity_dim. unfold Toplevel.entity_support_dofs.
  fold (entity_support_dofs twice_wide make_quadrature elem w1) in Hsecond.
  rewrite Hfirst, Hsecond, Hheap. repeat split.
  - intros Hdim. apply getitem_inr_iff. rewrite Hkeys. exact Hdim.
  - intros Hdim. apply getitem_KeyError. rewrite Hkeys. exact Hdim.
Qed.

(** ** Exactly when the methods return *)

Lemma the_length_evenly_sized {A : Type} (ls : list (list A)) :
  (exists n, the_length ls = inr n) <-> evenly_sized ls.
Proof.
  unfold evenly_sized. split.
  - intros [n E]. apply the_length_inr in E. destruct E as [Hne Hall]. eauto.
  - intros [Hne [n Hall]]. exists n. apply the_length_inr. auto.
Qed.

Lemma mapM_returns_iff {A B : Type} (f : A -> result B) (l : list A) :
  (exists ys, mapM f l = inr ys) <-> Forall (fun x => exists y, f x = inr y) l.
Proof.
  split.
  - intros [ys E]. apply mapM_inr in E.
    exact (Forall2_Forall_left _ _ _ E).
  - apply mapM_total.
Qed.

Lemma permutations_simple_returns_iff (self : FiniteElementBase)
    (item : dimkey * dict Z (list Z)) :
  is_tensor_product (cell self) = false ->
  (exists out, permutations_simple self item = inr out) <->
  dimension_admissible self item.
Proof.
  intros Hcell. destruct item as [dim by_entity].
  unfold dimension_admissible, permutations_simple. rewrite Hcell.
  cbn [fst snd]. rewrite <- the_length_evenly_sized. split.
  - intros [out E].
    destruct (the_length (values by_entity)) as [e|n]; cbn [bind] in E;
      [discriminate|].
    split; [eauto|]. intros Hne. rewrite (key_eqb_neq _ _ Hne) in E.
    unfold getitem in E.
    destruct (dict_get (topology (cell self)) dim) as [t|]; cbn [bind] in E;
      [|discriminate].
    exists t. split; [reflexivity|]. apply the_length_evenly_sized.
    destruct (the_length (values t)) as [e|m]; cbn [bind] in E;
      [discriminate | eauto].
  - intros [[n Hn] Htop]. rewrite Hn. cbn [bind].
    destruct (key_eqb dim (DimInt 0)) eqn:E; [eauto|].
    destruct Htop as [t [Ht Hm]].
    + intros ->. rewrite key_eqb_refl in E. discriminate.
    + apply the_length_evenly_sized in Hm. destruct Hm as [m Hm].
      unfold getitem. rewrite Ht. cbn [bind]. rewrite Hm. cbn [bind]. eauto.
Qed.

Lemma permutations_product_returns_iff (self : FiniteElementBase)
    (item : dimkey * dict Z (list Z)) :
  is_tensor_product (cell self) = true ->
  (exists out, permutations_product self item = inr out) <->
  dimension_admissible self item.
Proof.
  intros Hcell. destruct item as [dim by_entity].
  unfold dimension_admissible, permutations_product. rewrite Hcell.
  cbn [fst snd]. rewrite <- the_length_evenly_sized. split.
  - intros [out E].
    destruct (the_length (values by_entity)) as [e|n]; cbn [bind] in E;
      [discriminate|].
    split; [eauto|].
    destruct (dim_len dim) as [e|len] eqn:Elen; cbn [bind] in E; [discriminate|].
    destruct (Nat.eqb len 2) eqn:Etwo; cbn [assert bind] in E; [|discriminate].
    destruct (dim_len_two dim len Elen Etwo) as [d0 [d1 ->]].
    destruct (cells_item (cell self) 0) as [e|c0] eqn:Ec0; cbn [bind] in E;
      [discriminate|].
    cbn [dim_item nth_error bind] in E. unfold getitem in E.
    destruct (dict_get (topology c0) (DimInt d0)) as [t0|] eqn:Et0;
      cbn [bind] in E;
      [|discriminate].
    destruct (the_length (values t0)) as [e|m0] eqn:Em0; cbn [bind] in E;
      [discriminate|].
    destruct (cells_item (cell self) 1) as [e|c1] eqn:Ec1; cbn [bind] in E;
      [discriminate|].
    destruct (dict_get (topology c1) (DimInt d1)) as [t1|] eqn:Et1;
      cbn [bind] in E;
      [|discriminate].
    destruct (the_length (values t1)) as [e|m1] eqn:Em1; cbn [bind] in E;
      [discriminate|].
    exists d0, d1, c0, c1, t0, t1.
    repeat split; try apply the_length_evenly_sized; eauto.
  - intros [[n Hn] [d0 [d1 [c0 [c1 [t0 [t1 [-> [Hc0 [Hc1 [Ht0 [Ht1 [H0 H1]]]]]]]]]]]]].
    apply the_length_evenly_sized in H0, H1.
    destruct H0 as [m0 Hm0], H1 as [m1 Hm1].
    rewrite Hn. cbn [bind dim_len List.length Nat.eqb assert].
    rewrite Hc0. cbn [bind dim_item nth_error]. unfold getitem.
    rewrite Ht0. cbn [bind]. rewrite Hm0. cbn [bind].
    rewrite Hc1. cbn [bind]. rewrite Ht1. cbn [bind]. rewrite Hm1. cbn [bind].
    eauto.
Qed.

(** X16. [permutations()] returns exactly when every dimension of
    [entity_dofs()] is admissible: it has entities, with equally many
    degrees of freedom each, and the topology has what the branch looks
    up for it, with equally long entries; on a cell that is not a
    product cell nothing is looked up for the vertex dimension. *)
Theorem permutations_returns_iff (self : FiniteElementBase) :
  (exists table, permutations self = inr table) <->
  Forall (dimension_admissible self) (entity_dofs self).
Proof.
  unfold permutations, items.
  destruct (is_tensor_product (cell self)) eqn:Hcell.
  - pose proof (mapM_returns_iff (permutations_product self) (entity_dofs self))
      as Hiff.
    split; intros Hall.
    + apply Hiff in Hall. eapply Forall_impl; [|exact Hall].
      intros item. apply permutations_product_returns_iff. exact Hcell.
    + apply Hiff. eapply Forall_impl; [|exact Hall].
      intros item. apply permutations_product_returns_iff. exact Hcell.
  - pose proof (mapM_returns_iff (permutations_simple self) (entity_dofs self))
      as Hiff.
    split; intros Hall.
    + apply Hiff in Hall. eapply Forall_impl; [|exact Hall].
      intros item. apply permutations_simple_returns_iff. exact Hcell.
    + apply Hiff. eapply Forall_impl; [|exact Hall].
      intros item. apply permutations_simple_returns_iff. exact Hcell.
Qed.

(** ** The two cached properties side by side *)

Lemma dict_get_appended_other {V : Type} (d : dict string V)
    (name other : string) (v : V) :
  other <> name ->
  dict_get (d ++ [(other, v)]) name = dict_get d name.
Proof.
  intros Hne. induction d as [|[k w] d IH]; simpl.
  - destruct (String.eqb_spec other name); [contradiction | reflexivity].
  - destruct (String.eqb k name); [reflexivity | exact IH].
Qed.

(** X18. The two accessors keep separate entries in the instance:
    on a new instance, after [entity_closure_dofs()] has returned,
    [entity_support_dofs()] still runs its computation and returns
    another object; from then on each accessor returns its own object
    and runs nothing. *)
Theorem cached_properties_separate
    (twice_wide : Degree -> result DegreeArg)
    (make_quadrature : Cell -> DegreeArg -> result QuadratureRule)
    (self : FiniteElementBase) (w w1 w2 : World) (closure support : nat) :
  dict_get (instance_dict w) "_entity_closure_dofs"%string = None ->
  dict_get (instance_dict w) "_entity_support_dofs"%string = None ->
  entity_closure_dofs self w = (w1, inr closure) ->
  entity_support_dofs twice_wide make_quadrature self w1 = (w2, inr support) ->
  closure <> support /\
  probe w2 = probe w ++ fst (_entity_closure_dofs self)
                     ++ fst (_entity_support_dofs twice_wide make_quadrature self) /\
  entity_closure_dofs self w2 = (w2, inr closure) /\
  entity_support_dofs twice_wide make_quadrature self w2 = (w2, inr support).
Proof.
  intros Hc Hs Hfirst Hsecond.
  unfold entity_closure_dofs, cached_property in Hfirst. rewrite Hc in Hfirst.
  unfold boxed in Hfirst. cbn [fst snd] in Hfirst.
  destruct (snd (_entity_closure_dofs self)) as [e|ctable]; [discriminate|].
  inversion Hfirst; subst w1 closure. clear Hfirst.
  unfold entity_support_dofs, cached_property in Hsecond.
  cbn [instance_dict heap probe] in Hsecond.
  rewrite dict_get_appended_other, Hs in Hsecond by discriminate.
  unfold boxed in Hsecond. cbn [fst snd] in Hsecond.
  destruct (snd (_entity_support_dofs twice_wide make_quadrature self)) as [e|stable];
    [discriminate|].
  inversion Hsecond; subst w2 support. clear Hsecond.
  repeat split.
  - rewrite length_app. simpl. lia.
  - cbn [probe]. rewrite app_assoc. reflexivity.
  - unfold entity_closure_dofs, cached_property. cbn [instance_dict].
    rewrite dict_get_appended_other by discriminate.
    rewrite (dict_get_appended _ _ _ Hc). reflexivity.
  - unfold entity_support_dofs, cached_property. cbn [instance_dict].
    rewrite dict_get_appended.
    + rewrite length_app. reflexivity.
    + rewrite dict_get_appended_other, Hs by discriminate. reflexivity.
Qed.

(** ** The statements at work on the interval *)

Section OnTheInterval.
Import Interval.

Example P1_support :
  snd (_entity_support_dofs twice_wide make_quadrature P1) = inr P1_support_dofs.
Proof. vm_compute. reflexivity. Qed.

Example P2_support :
  snd (_entity_support_dofs twice_wide make_quadrature P2) = inr P2_support_dofs.
Proof. vm_compute. reflexivity. Qed.

Example P2_closure :
  _entity_closure_dofs P2
  = ([CallEntityDofs; ReadSubEntities], inr P2_closure_dofs).
Proof. reflexivity. Qed.

Example uneven_permutations : permutations uneven = inl ValueError.
Proof. reflexivity. Qed.

Example P2_permutations_return : exists table, permutations P2 = inr table.
Proof.
  apply permutations_returns; [reflexivity|].
  apply Forall_cons; [|apply Forall_cons; [|apply Forall_nil]].
  - split; [exists 1%nat; reflexivity|]. intros Hne. contradiction Hne.
    reflexivity.
  - split; [exists 1%nat; reflexivity|]. intros _.
    exists [(0, [0; 1])], 2%nat. split; reflexivity.
Qed.

Lemma entity_support_dofs_threshold_witness :
  snd (_entity_support_dofs twice_wide make_quadrature P2) = inr P2_support_dofs /\
  In (DimInt 1) (keys (sub_entities (cell P2))) /\
  dict_get (entity_dofs P2) (DimInt 1) = Some [(0, [2])] /\
  In 0 (keys [(0, [2])]) /\
  exists dofs,
    lookup2 P2_support_dofs (DimInt 1) 0 = Some dofs /\
    StronglySorted Z.lt dofs.
Proof.
  assert (H1 : snd (_entity_support_dofs twice_wide make_quadrature P2)
               = inr P2_support_dofs) by (vm_compute; reflexivity).
  assert (H2 : In (DimInt 1) (keys (sub_entities (cell P2))))
    by (simpl; auto).
  assert (H3 : dict_get (entity_dofs P2) (DimInt 1) = Some [(0, [2])])
    by reflexivity.
  assert (H4 : In 0 (keys [(0, [2])])) by (simpl; auto).
  repeat split; try assumption.
  destruct (entity_support_dofs_threshold twice_wide make_quadrature P2 P2_support_dofs
              (DimInt 1) [(0, [2])] 0 H1 H2 H3 H4)
    as [c [d [q [t [v [dofs [_ [_ [_ [_ [_ [Hl [_ [_ Hs]]]]]]]]]]]]]].
  exists dofs. split; assumption.
Defined.

Lemma entity_closure_dofs_sorted_concatenation_witness :
  listed_entities_have_dofs P2 = true /\
  lookup2 (sub_entities (cell P2)) (DimInt 1) 0
  = Some [(DimInt 0, 0); (DimInt 0, 1); (DimInt 1, 0)] /\
  exists table lists dofs,
    snd (_entity_closure_dofs P2) = inr table /\
    lookup2 table (DimInt 1) 0 = Some dofs /\
    Forall2 (fun p l => lookup2 (entity_dofs P2) (fst p) (snd p) = Some l)
            [(DimInt 0, 0); (DimInt 0, 1); (DimInt 1, 0)] lists /\
    Permutation dofs (List.concat lists) /\
    StronglySorted Z.le dofs.
Proof.
  split; [reflexivity|]. split; [reflexivity|].
  apply (entity_closure_dofs_sorted_concatenation P2 (DimInt 1) 0);
    reflexivity.
Defined.

Lemma closure_dofs_monotone_witness :
  transitively_closed (sub_entities (cell P2)) = true /\
  snd (_entity_closure_dofs P2) = inr P2_closure_dofs /\
  lookup2 (sub_entities (cell P2)) (DimInt 1) 0
  = Some [(DimInt 0, 0); (DimInt 0, 1); (DimInt 1, 0)] /\
  In (DimInt 0, 1) [(DimInt 0, 0); (DimInt 0, 1); (DimInt 1, 0)] /\
  lookup2 P2_closure_dofs (DimInt 1) 0 = Some [0; 1; 2] /\
  lookup2 P2_closure_dofs (DimInt 0) 1 = Some [1] /\
  incl [1] [0; 1; 2].
Proof.
  assert (Hin : In (DimInt 0, 1) [(DimInt 0, 0); (DimInt 0, 1); (DimInt 1, 0)])
    by (simpl; auto).
  repeat split; try reflexivity; try exact Hin.
  apply (closure_dofs_monotone P2 P2_closure_dofs (DimInt 1) (DimInt 0) 0 1
           [(DimInt 0, 0); (DimInt 0, 1); (DimInt 1, 0)]);
    try reflexivity.
  exact Hin.
Defined.

Lemma closure_dofs_sorted_distinct_superset_witness :
  NoDup (all_dofs (entity_dofs P2)) /\
  lookup2 (sub_entities (cell P2)) (DimInt 1) 0
  = Some [(DimInt 0, 0); (DimInt 0, 1); (DimInt 1, 0)] /\
  NoDup [(DimInt 0, 0); (DimInt 0, 1); (DimInt 1, 0)] /\
  In (DimInt 1, 0) [(DimInt 0, 0); (DimInt 0, 1); (DimInt 1, 0)] /\
  snd (_entity_closure_dofs P2) = inr P2_closure_dofs /\
  lookup2 P2_closure_dofs (DimInt 1) 0 = Some [0; 1; 2] /\
  StronglySorted Z.le [0; 1; 2] /\
  NoDup [0; 1; 2] /\
  exists own, lookup2 (entity_dofs P2) (DimInt 1) 0 = Some own /\
              incl own [0; 1; 2].
Proof.
  assert (H1 : NoDup (all_dofs (entity_dofs P2))).
  { simpl. repeat (constructor; [simpl; intuition discriminate|]).
    constructor. }
  assert (H2 : NoDup [(DimInt 0, 0); (DimInt 0, 1); (DimInt 1, 0)]).
  { repeat (constructor; [simpl; intuition discriminate|]). constructor. }
  assert (H3 : In (DimInt 1, 0) [(DimInt 0, 0); (DimInt 0, 1); (DimInt 1, 0)])
    by (simpl; auto).
  split; [exact H1|]. split; [reflexivity|]. split; [exact H2|].
  split; [exact H3|]. split; [reflexivity|]. split; [reflexivity|].
  apply (closure_dofs_sorted_distinct_superset P2 P2_closure_dofs (DimInt 1) 0
           [(DimInt 0, 0); (DimInt 0, 1); (DimInt 1, 0)] [0; 1; 2]);
    try reflexivity; assumption.
Defined.

Lemma permutations_orientation_table_witness :
  is_tensor_product (cell P2) = false /\
  permutations P2 = inr P2_permutations /\
  dict_get (entity_dofs P2) (DimInt 1) = Some [(0, [2])] /\
  DimInt 1 <> DimInt 0 /\
  exists n m row,
    dict_get P2_permutations (DimInt 1) = Some row /\
    List.length row = (fact m * 2)%nat /\
    forall o, 0 <= o < Z.of_nat (fact m * 2) ->
      exists perm, dict_get row (Orient o) = Some perm /\
                   identity_permutation n perm.
Proof.
  assert (Hne : DimInt 1 <> DimInt 0) by discriminate.
  repeat split; try reflexivity; try exact Hne.
  destruct (permutations_orientation_table P2 P2_permutations (DimInt 1)
              [(0, [2])] eq_refl eq_refl eq_refl Hne)
    as [n [m [cones [row [_ [_ [_ [Hrow [Hall [_ [_ Hlen]]]]]]]]]]].
  exists n, m, row. auto.
Defined.

(** At the vertex dimension of [P2] every vertex is bounded by one
    vertex, so that orientations 0 and 1 are in the range
    [0 .. factorial(1)*2 - 1]; the table holds orientation 0 only. *)
Lemma permutations_vertex_orientations_counterexample :
  is_tensor_product (cell P2) = false /\
  permutations P2 = inr P2_permutations /\
  dict_get (topology (cell P2)) (DimInt 0) = Some [(0, [0]); (1, [1])] /\
  Forall (fun cone => List.length cone = 1%nat)
         (values [(0, [0]); (1, [1])]) /\
  exists row,
    dict_get P2_permutations (DimInt 0) = Some row /\
    ~ (forall o, 0 <= o < Z.of_nat (fact 1 * 2) ->
         exists perm, dict_get row (Orient o) = Some perm /\
                      identity_permutation 1 perm).
Proof.
  repeat split; try reflexivity.
  - repeat constructor.
  - exists [(Orient 0, [0])]. split; [reflexivity|].
    intros Hall. destruct (Hall 1) as [perm [Hperm _]]; [simpl; lia|].
    discriminate Hperm.
Qed.

Lemma support_quadrature_requests_witness :
  doubled_exactly (degree P2) /\
  keys (sub_entities (cell P2)) = [DimInt 0; DimInt 1] /\
  requests_on P2 [DimInt 0; DimInt 1]
  = [(point_cell, ArgInt 4); (interval_cell_upto 0, ArgInt 4)] /\
  quadrature_requests
    (fst (_entity_support_dofs twice_wide make_quadrature P2)) =
  requests_on P2
    (dimensions_entered twice_wide make_quadrature P2
       (keys (sub_entities (cell P2)))) /\
  (forall table,
     snd (_entity_support_dofs twice_wide make_quadrature P2) = inr table ->
     dimensions_entered twice_wide make_quadrature P2
       (keys (sub_entities (cell P2)))
     = keys (sub_entities (cell P2)) /\
     Forall2 (fun dim request =>
                construct_subelement (cell P2) dim = inr (fst request) /\
                snd request = exactly_twice (degree P2))
             (keys (sub_entities (cell P2)))
             (quadrature_requests
                (fst (_entity_support_dofs twice_wide make_quadrature P2)))).
Proof.
  assert (H : doubled_exactly (degree P2)) by (left; simpl; lia).
  split; [exact H|]. split; [reflexivity|]. split; [reflexivity|].
  apply (support_quadrature_requests twice_wide make_quadrature P2 H).
Defined.

(** C6 as worded, without a bound on the degree: at degree [2**62] the
    support computation returns, and both rules were requested with
    degree [-2**63], which is not twice the degree. *)
Lemma support_quadrature_requests_counterexample :
  keys (sub_entities (cell (of_degree (DegreeInt (2 ^ 62)))))
  = [DimInt 0; DimInt 1] /\
  (exists table,
     snd (_entity_support_dofs twice_wide make_quadrature
            (of_degree (DegreeInt (2 ^ 62)))) = inr table) /\
  quadrature_requests
    (fst (_entity_support_dofs twice_wide make_quadrature
            (of_degree (DegreeInt (2 ^ 62)))))
  = [(point_cell, ArgInt (- 2 ^ 63)); (interval_cell_upto 0, ArgInt (- 2 ^ 63))] /\
  exactly_twice (degree (of_degree (DegreeInt (2 ^ 62)))) = ArgInt (2 ^ 63) /\
  ArgInt (- 2 ^ 63) <> ArgInt (2 ^ 63).
Proof.
  split; [reflexivity|]. split; [eexists; vm_compute; reflexivity|].
  split; [reflexivity|]. split; [reflexivity|]. discriminate.
Qed.

(** Beyond 64 bits numpy holds an [int] as an object: the product has
    no [tolist], and the computation raises with the subelement
    constructed and no rule requested. *)
Example degree_held_as_object_raises :
  snd (_entity_support_dofs twice_wide make_quadrature
         (of_degree (DegreeInt (2 ^ 64)))) = inl AttributeError /\
  fst (_entity_support_dofs twice_wide make_quadrature
         (of_degree (DegreeInt (2 ^ 64))))
  = [ReadSubEntities; CallConstructSubelement (DimInt 0)].
Proof. split; reflexivity. Qed.

(** A tuple with such a component is doubled exactly. *)
Example tuple_held_as_objects (numpy : Degree -> result DegreeArg) :
  twice_degree numpy (DegreeTuple [2 ^ 64; 1]) = inr (ArgList [2 ^ 65; 2]).
Proof. reflexivity. Qed.

Lemma cached_dofs_computed_once_witness :
  dict_get (instance_dict new_world) (attribute EntityClosureDofs) = None /\
  access twice_wide make_quadrature EntityClosureDofs P2 new_world
  = (P2_after_closure, inr 0%nat) /\
  access twice_wide make_quadrature EntityClosureDofs P2 P2_after_closure
  = (P2_after_closure, inr 0%nat) /\
  probe P2_after_closure
  = probe new_world ++ fst (computation twice_wide make_quadrature EntityClosureDofs P2) /\
  exists object,
    snd (computation twice_wide make_quadrature EntityClosureDofs P2) = inr object /\
    nth_error (heap P2_after_closure) 0 = Some object.
Proof.
  split; [reflexivity|]. split; [reflexivity|].
  apply (cached_dofs_computed_once twice_wide make_quadrature EntityClosureDofs P2
           new_world P2_after_closure 0%nat); reflexivity.
Defined.

Lemma permutations_uneven_dofs_raises_witness :
  dict_get (entity_dofs uneven) (DimInt 0) = Some [(0, [0; 1]); (1, [2])] /\
  dict_get [(0, [0; 1]); (1, [2])] 0 = Some [0; 1] /\
  dict_get [(0, [0; 1]); (1, [2])] 1 = Some [2] /\
  List.length [0; 1] <> List.length [2] /\
  exists err, permutations uneven = inl err.
Proof.
  assert (Hne : List.length [0; 1] <> List.length [2]) by discriminate.
  repeat split; try reflexivity; try exact Hne.
  apply (permutations_uneven_dofs_raises uneven (DimInt 0)
           [(0, [0; 1]); (1, [2])] 0 1 [0; 1] [2]);
    try reflexivity.
  exact Hne.
Defined.

Lemma permutations_vertex_dimension_witness :
  is_tensor_product (cell P2) = false /\
  permutations P2 = inr P2_permutations /\
  dict_get (entity_dofs P2) (DimInt 0) = Some [(0, [0]); (1, [1])] /\
  exists n perm,
    [(0, [0]); (1, [1])] <> [] /\
    Forall (fun dofs => List.length dofs = n) (values [(0, [0]); (1, [1])]) /\
    identity_permutation n perm /\
    dict_get P2_permutations (DimInt 0) = Some [(Orient 0, perm)].
Proof.
  repeat split; try reflexivity.
  apply (permutations_vertex_dimension P2 P2_permutations
           [(0, [0]); (1, [1])]); reflexivity.
Defined.
End OnTheInterval.

(** ** The statements at work on the product of two intervals *)

Section OnTheProduct.
Import Quadrilateral.

Example Q1_vertex_permutations :
  exists table,
    permutations Q1 = inr table /\
    dict_get table vertex
    = Some [(OrientPair 0 0, [0]); (OrientPair 0 1, [0]);
            (OrientPair 1 0, [0]); (OrientPair 1 1, [0])].
Proof. eexists. split; reflexivity. Qed.

Example Q1_interior_permutations :
  exists table row,
    permutations Q1 = inr table /\
    dict_get table interior = Some row /\
    List.length row = 16%nat /\
    dict_get row (OrientPair 3 2) = Some [].
Proof. eexists _, _. repeat split; reflexivity. Qed.

Example Q1_closure :
  exists table,
    snd (_entity_closure_dofs Q1) = inr table /\
    lookup2 table edge10 1 = Some [1; 3] /\
    lookup2 table interior 0 = Some [0; 1; 2; 3].
Proof. eexists. repeat split; reflexivity. Qed.

Example Q1_twice_degree (numpy : Degree -> result DegreeArg) :
  twice_degree numpy (degree Q1) = inr (ArgList [2; 2]).
Proof. reflexivity. Qed.
End OnTheProduct.

(** ** More statements at work *)

Section MoreAtWork.
Import Interval.

Lemma permutations_dimensions_witness :
permutations P2 = inr P2_permutations /\
keys P2_permutations = keys (entity_dofs P2).
Proof.
split; [reflexivity|].
apply (permutations_dimensions P2 P2_permutations). reflexivity.
Defined.

Lemma permutations_product_table_witness :
is_tensor_product (cell Quadrilateral.Q1) = true /\
permutations Quadrilateral.Q1 = inr Q1_permutations /\
dict_get (entity_dofs Quadrilateral.Q1) Quadrilateral.vertex
= Some [(0, [0]); (1, [1]); (2, [2]); (3, [3])] /\
exists m0 m1 row,
  dict_get Q1_permutations Quadrilateral.vertex = Some row /\
  NoDup (keys row) /\
  List.length row = (fact m0 * 2 * (fact m1 * 2))%nat.
Proof.
split; [reflexivity|]. split; [reflexivity|]. split; [reflexivity|].
destruct (permutations_product_table Quadrilateral.Q1 Q1_permutations
            Quadrilateral.vertex [(0, [0]); (1, [1]); (2, [2]); (3, [3])]
            eq_refl eq_refl eq_refl)
  as [d0 [d1 [c0 [c1 [t0 [t1 [n [m0 [m1 [row H]]]]]]]]]].
exists m0, m1, row. tauto.
Defined.

Lemma permutations_malformed_raises_witness :
dict_get (entity_dofs Malformed.no_edges) (DimInt 1) = Some [] /\
exists err, permutations Malformed.no_edges = inl err.
Proof.
split; [reflexivity|].
apply (permutations_malformed_raises Malformed.no_edges (DimInt 1) []);
  [reflexivity | left; reflexivity].
Defined.

Lemma closure_table_entities_witness :
snd (_entity_closure_dofs P2) = inr P2_closure_dofs /\
keys P2_closure_dofs = keys (sub_entities (cell P2)) /\
forall dim entities,
  dict_get (sub_entities (cell P2)) dim = Some entities ->
  exists row, dict_get P2_closure_dofs dim = Some row /\
              keys row = keys entities.
Proof.
split; [reflexivity|].
apply (closure_table_entities P2 P2_closure_dofs). reflexivity.
Defined.

Lemma closure_dofs_members_witness :
snd (_entity_closure_dofs P2) = inr P2_closure_dofs /\
lookup2 (sub_entities (cell P2)) (DimInt 1) 0
= Some [(DimInt 0, 0); (DimInt 0, 1); (DimInt 1, 0)] /\
exists lists dofs,
  lookup2 P2_closure_dofs (DimInt 1) 0 = Some dofs /\
  List.length dofs = list_sum (map (@List.length Z) lists).
Proof.
split; [reflexivity|]. split; [reflexivity|].
destruct (closure_dofs_members P2 P2_closure_dofs (DimInt 1) 0
            [(DimInt 0, 0); (DimInt 0, 1); (DimInt 1, 0)] eq_refl eq_refl)
  as [lists [dofs [Hd [_ [_ Hlen]]]]].
exists lists, dofs. auto.
Defined.

Lemma closure_of_order_independent_witness :
Permutation [(DimInt 0, 0); (DimInt 0, 1); (DimInt 1, 0)]
            [(DimInt 1, 0); (DimInt 0, 1); (DimInt 0, 0)] /\
closure_of (entity_dofs P2) [(DimInt 0, 0); (DimInt 0, 1); (DimInt 1, 0)]
= inr [0; 1; 2] /\
closure_of (entity_dofs P2) [(DimInt 1, 0); (DimInt 0, 1); (DimInt 0, 0)]
= inr [0; 1; 2].
Proof.
assert (Hp : Permutation [(DimInt 0, 0); (DimInt 0, 1); (DimInt 1, 0)]
                         [(DimInt 1, 0); (DimInt 0, 1); (DimInt 0, 0)])
  by exact (Permutation_rev [(DimInt 0, 0); (DimInt 0, 1); (DimInt 1, 0)]).
split; [exact Hp|]. split; [reflexivity|].
apply (closure_of_order_independent (entity_dofs P2) _ _ [0; 1; 2] Hp).
reflexivity.
Defined.

Lemma support_table_entities_witness :
snd (_entity_support_dofs twice_wide make_quadrature P2) = inr P2_support_dofs /\
keys P2_support_dofs = keys (sub_entities (cell P2)).
Proof.
assert (H : snd (_entity_support_dofs twice_wide make_quadrature P2)
            = inr P2_support_dofs) by (vm_compute; reflexivity).
split; [exact H|].
exact (proj1 (support_table_entities twice_wide make_quadrature P2 P2_support_dofs H)).
Defined.

Lemma support_dofs_in_range_witness :
snd (_entity_support_dofs twice_wide make_quadrature P2) = inr P2_support_dofs /\
lookup2 P2_support_dofs (DimInt 0) 1 = Some [1] /\
(forall k, In k [1] -> 0 <= k < Z.of_nat (size_of (index_shape P2))) /\
NoDup [1] /\
(List.length [1] <= size_of (index_shape P2))%nat.
Proof.
assert (H : snd (_entity_support_dofs twice_wide make_quadrature P2)
            = inr P2_support_dofs) by (vm_compute; reflexivity).
split; [exact H|]. split; [reflexivity|].
apply (support_dofs_in_range twice_wide make_quadrature P2 P2_support_dofs (DimInt 0) 1
         [1] H).
reflexivity.
Defined.

Lemma dofs_above_eps_leaves_out_witness :
nth_error [1%float; 0%float; nan] 1 = Some 0%float /\
(PrimFloat.leb 0 eps = true \/ 0%float = nan) /\
~ In (Z.of_nat 1) (dofs_above_eps [1%float; 0%float; nan]).
Proof.
assert (H : PrimFloat.leb 0 eps = true \/ 0%float = nan)
  by (left; vm_compute; reflexivity).
split; [reflexivity|]. split; [exact H|].
apply (dofs_above_eps_leaves_out [1%float; 0%float; nan] 1 0%float);
  [reflexivity | exact H].
Defined.

Lemma support_missing_dimension_raises_witness :
In (DimInt 1) (keys (sub_entities (cell Malformed.vertices_only))) /\
dict_get (entity_dofs Malformed.vertices_only) (DimInt 1) = None /\
exists err,
  snd (_entity_support_dofs twice_wide make_quadrature Malformed.vertices_only)
  = inl err.
Proof.
assert (H : In (DimInt 1)
               (keys (sub_entities (cell Malformed.vertices_only))))
  by (simpl; auto).
split; [exact H|]. split; [reflexivity|].
apply (support_missing_dimension_raises twice_wide make_quadrature
         Malformed.vertices_only (DimInt 1) H).
reflexivity.
Defined.

Lemma support_tabulation_failure_raises_witness :
exists quad,
  In (DimInt 0) (keys (sub_entities (cell Malformed.two_tabulations))) /\
  rule_for twice_wide make_quadrature Malformed.two_tabulations (DimInt 0) = Some quad /\
  dict_get (entity_dofs Malformed.two_tabulations) (DimInt 0)
  = Some [(0, [0]); (1, [1])] /\
  In 0 (keys [(0, [0]); (1, [1])]) /\
  tabulation_failure Malformed.two_tabulations quad (DimInt 0) 0 ValueError /\
  exists err',
    snd (_entity_support_dofs twice_wide make_quadrature Malformed.two_tabulations)
    = inl err'.
Proof.
exists (rule_on [[]] [1%float]).
assert (H1 : In (DimInt 0)
                (keys (sub_entities (cell Malformed.two_tabulations))))
  by (simpl; auto).
assert (H4 : In 0 (keys [(0, [0]); (1, [1])])) by (simpl; auto).
assert (H5 : tabulation_failure Malformed.two_tabulations
               (rule_on [[]] [1%float]) (DimInt 0) 0 ValueError).
{ right. eexists. split; [reflexivity|]. left. split; [|reflexivity].
  simpl. discriminate. }
split; [exact H1|]. split; [reflexivity|]. split; [reflexivity|].
split; [exact H4|]. split; [exact H5|].
exact (proj2 (support_tabulation_failure_raises twice_wide make_quadrature
                Malformed.two_tabulations (DimInt 0)
                (rule_on [[]] [1%float]) [(0, [0]); (1, [1])] 0 ValueError
                H1 eq_refl eq_refl H4 H5)).
Defined.

Lemma support_basis_evaluation_requests_witness :
snd (_entity_support_dofs twice_wide make_quadrature P2) = inr P2_support_dofs /\
List.length
  (basis_evaluation_requests (fst (_entity_support_dofs twice_wide make_quadrature P2)))
= 3%nat.
Proof.
assert (H : snd (_entity_support_dofs twice_wide make_quadrature P2)
            = inr P2_support_dofs) by (vm_compute; reflexivity).
split; [exact H|].
rewrite (support_basis_evaluation_requests twice_wide make_quadrature P2
           P2_support_dofs H).
reflexivity.
Defined.

Lemma module_entity_support_dofs_witness :
dict_get (instance_dict new_world) "_entity_support_dofs"%string = None /\
entity_support_dofs twice_wide make_quadrature P2 new_world
= (P2_after_support, inr 0%nat) /\
exists table,
  snd (_entity_support_dofs twice_wide make_quadrature P2) = inr table /\
  Toplevel.entity_support_dofs twice_wide make_quadrature P2 (DimInt 1) new_world
  = (P2_after_support, getitem table (DimInt 1)) /\
  getitem table (DimInt 2) = inl KeyError.
Proof.
assert (H : entity_support_dofs twice_wide make_quadrature P2 new_world
            = (P2_after_support, inr 0%nat)) by (vm_compute; reflexivity).
split; [reflexivity|]. split; [exact H|].
destruct (module_entity_support_dofs twice_wide make_quadrature P2 new_world
            P2_after_support 0%nat eq_refl H) as [table [Ht [_ Hall]]].
exists table. split; [exact Ht|]. split.
- exact (proj1 (Hall (DimInt 1))).
- apply (proj2 (proj2 (proj2 (Hall (DimInt 2))))).
  simpl. intros [E|[E|[]]]; discriminate E.
Defined.

Lemma cached_properties_separate_witness :
dict_get (instance_dict new_world) "_entity_closure_dofs"%string = None /\
dict_get (instance_dict new_world) "_entity_support_dofs"%string = None /\
entity_closure_dofs P2 new_world = (P2_after_closure, inr 0%nat) /\
entity_support_dofs twice_wide make_quadrature P2 P2_after_closure
= (P2_after_both, inr 1%nat) /\
0%nat <> 1%nat /\
probe P2_after_both
= probe new_world ++ fst (_entity_closure_dofs P2)
                  ++ fst (_entity_support_dofs twice_wide make_quadrature P2) /\
entity_closure_dofs P2 P2_after_both = (P2_after_both, inr 0%nat) /\
entity_support_dofs twice_wide make_quadrature P2 P2_after_both
= (P2_after_both, inr 1%nat).
Proof.
assert (H : entity_support_dofs twice_wide make_quadrature P2 P2_after_closure
            = (P2_after_both, inr 1%nat)) by (vm_compute; reflexivity).
split; [reflexivity|]. split; [reflexivity|]. split; [reflexivity|].
split; [exact H|].
exact (cached_properties_separate twice_wide make_quadrature P2 new_world
         P2_after_closure P2_after_both 0%nat 1%nat
         eq_refl eq_refl eq_refl H).
Defined.
End MoreAtWork.
